(** * Todo backend: endpoint protocol over a document store

    A shallow embedding of the Convex backend of the to-do application:
    the validation helpers, the data-access layer (one module per table),
    the rate-limiter configuration and the endpoint layer, followed by the
    properties of the endpoint protocol.

    Conventions of the embedding:
    - a JavaScript string is the list of its UTF-16 code units, so that
      [length] is the [.length] of the source;
    - a table is the list of its documents in insertion order (the order of
      [_creationTime]); [ctx.db.get], [patch] and [delete] address documents
      by [_id];
    - a JavaScript number the program computes itself (a timestamp of
      [Date.now()], a length, a count, a limit) is an integer; the [order]
      of a task is an integer-valued number, and adding to it rounds as
      float64 addition does; a due date, which the caller supplies and
      nothing checks, is a [number]: an integer, NaN or an infinity;
    - a handler is a function of the request context and the store that
      either throws or returns a value and a new store; a mutation that
      throws commits nothing. *)

From Stdlib Require Import List ZArith NArith Bool Lia Arith.
From Stdlib Require String Ascii DecimalString.
From Stdlib Require Import Permutation Sorted.
Import ListNotations.

Set Implicit Arguments.

(** ** JavaScript strings *)

Definition jsstring := list N.

(** A literal, for readable examples: one code unit per character. *)
Definition str (s : String.string) : jsstring :=
  map Ascii.N_of_ascii (String.list_ascii_of_string s).

Import Stdlib.Strings.String.StringSyntax.
Delimit Scope string_scope with string.
Arguments str s%_string.

Fixpoint str_eqb (a b : jsstring) : bool :=
  match a, b with
  | [], [] => true
  | x :: a', y :: b' => N.eqb x y && str_eqb a' b'
  | _, _ => false
  end.

(** [if (s)] on a string: the empty string is falsy. *)
Definition truthy (s : jsstring) : bool :=
  match s with [] => false | _ => true end.

(** WhiteSpace and LineTerminator code units, the ones [String.prototype.trim]
    strips. *)
Definition isWhiteSpace (c : N) : bool :=
  ((9 <=? c) && (c <=? 13) || (c =? 32) || (c =? 160) || (c =? 5760)
   || (8192 <=? c) && (c <=? 8202) || (c =? 8232) || (c =? 8233)
   || (c =? 8239) || (c =? 8287) || (c =? 12288) || (c =? 65279))%N.

Fixpoint trimStart (s : jsstring) : jsstring :=
  match s with
  | c :: s' => if isWhiteSpace c then trimStart s' else s
  | [] => []
  end.

Definition trimEnd (s : jsstring) : jsstring := rev (trimStart (rev s)).

Definition trim (s : jsstring) : jsstring := trimEnd (trimStart s).

(** [s.length], as an integer. *)
Definition jslength (s : jsstring) : Z := Z.of_nat (length s).

(** ** JavaScript numbers *)

(** A number that arrives from outside: a whole number of milliseconds, or
    one of the three values of float64 that are not finite. *)
Inductive number := Num (z : Z) | NaN | Infinity | NegInfinity.

(** [!x] on a number: [0] and NaN are falsy. *)
Definition isFalsy (x : number) : bool :=
  match x with
  | Num z => (z =? 0)%Z
  | NaN => true
  | Infinity | NegInfinity => false
  end.

(** [x - y], [x < y] and [x > y] for a number [x] and an integer [y]; a
    comparison with NaN is false. *)
Definition number_sub (x : number) (y : Z) : number :=
  match x with
  | Num z => Num (z - y)
  | NaN => NaN
  | Infinity => Infinity
  | NegInfinity => NegInfinity
  end.

Definition lessThan (x : number) (y : Z) : bool :=
  match x with
  | Num z => (z <? y)%Z
  | NegInfinity => true
  | NaN | Infinity => false
  end.

Definition greaterThan (x : number) (y : Z) : bool :=
  match x with
  | Num z => (y <? z)%Z
  | Infinity => true
  | NaN | NegInfinity => false
  end.

(** An integer as float64 holds it: up to 53 significant bits are exact,
    what lies beyond is rounded to the nearest value of 53 bits, a tie to
    the one whose last bit is 0. *)
Definition toFloat64 (n : Z) : Z :=
  let a := Z.abs n in
  let dropped := (Z.log2 a - 52)%Z in
  if (dropped <=? 0)%Z then n
  else
    let q := Z.shiftr a dropped in
    let r := (a - Z.shiftl q dropped)%Z in
    let half := Z.shiftl 1 (dropped - 1) in
    let q' :=
      if (r <? half)%Z then q
      else if (half <? r)%Z then (q + 1)%Z
      else if Z.even q then q else (q + 1)%Z in
    (Z.sgn n * Z.shiftl q' dropped)%Z.

(** [x + y] on integer-valued numbers: the exact sum, rounded. *)
Definition float64_add (x y : Z) : Z := toFloat64 (x + y).

(** ** helpers/validation.ts *)

Definition isValidTaskTitle (title : jsstring) : bool :=
  (0 <? jslength (trim title))%Z && (jslength (trim title) <=? 200)%Z.

Definition isValidTaskDescription (description : option jsstring) : bool :=
  match description with
  | None => true
  | Some d => if truthy d then (jslength d <=? 2000)%Z else true
  end.

Definition isValidLabelName (name : jsstring) : bool :=
  (0 <? jslength (trim name))%Z && (jslength (trim name) <=? 50)%Z.

Definition isHexDigit (c : N) : bool :=
  ((48 <=? c) && (c <=? 57) || (65 <=? c) && (c <=? 70)
   || (97 <=? c) && (c <=? 102))%N.

(** [/^#([A-Fa-f0-9]{6}|[A-Fa-f0-9]{3})$/] *)
Definition isValidHexColor (color : jsstring) : bool :=
  match color with
  | 35%N :: digits =>
      forallb isHexDigit digits
      && ((length digits =? 6) || (length digits =? 3))
  | _ => false
  end.

Definition isValidMessageContent (content : jsstring) : bool :=
  (0 <? jslength (trim content))%Z && (jslength (trim content) <=? 10000)%Z.

Definition isValidCommentContent (content : jsstring) : bool :=
  (0 <? jslength (trim content))%Z && (jslength (trim content) <=? 5000)%Z.

Definition isValidThreadTitle (title : option jsstring) : bool :=
  match title with
  | None => true
  | Some t =>
      if truthy t
      then (0 <? jslength (trim t))%Z && (jslength (trim t) <=? 200)%Z
      else true
  end.

(** [isValidDueDate]: [!dueDate] holds for [undefined], for [0] and for
    NaN; [now] is the [Date.now()] of the call. *)
Definition isValidDueDate (dueDate : option number) (now : Z) : bool :=
  match dueDate with
  | None => true
  | Some d => if isFalsy d then true else greaterThan d now
  end.

Definition sanitizeString (input : jsstring) : jsstring := trim input.

(** ** schema.ts: enumerations and documents *)

Definition Id := nat.
Definition UserId := jsstring.

Inductive TaskStatus := todo | in_progress | completed.
Inductive Priority := low | medium | high.
Inductive ThreadStatus := active | archived.
Inductive Role := user | assistant.
Inductive CommentType := user_note | ai_suggestion | ai_insight.
Inductive Action :=
  | created | updated | act_completed | deleted
  | status_changed | priority_changed.
Inductive Theme := light | dark | system.
Inductive View := view_list | view_board.
Inductive SortBy :=
  | sort_created | sort_updated | sort_priority | sort_dueDate | sort_custom.
Inductive SortOrder := asc | desc.

Definition status_eqb (a b : TaskStatus) : bool :=
  match a, b with
  | todo, todo | in_progress, in_progress | completed, completed => true
  | _, _ => false
  end.

Definition priority_eqb (a b : Priority) : bool :=
  match a, b with
  | low, low | medium, medium | high, high => true
  | _, _ => false
  end.

Record Task := mkTask {
  t_id : Id;
  t_userId : UserId;
  t_title : jsstring;
  t_description : option jsstring;
  t_status : TaskStatus;
  t_priority : Priority;
  t_dueDate : option number;
  t_completedAt : option Z;
  t_order : Z;
  t_createdAt : Z;
  t_updatedAt : Z
}.

Record Label := mkLabel {
  l_id : Id;
  l_userId : UserId;
  l_name : jsstring;
  l_color : jsstring;
  l_createdAt : Z
}.

Record TaskLabel := mkTaskLabel {
  tl_id : Id;
  tl_taskId : Id;
  tl_labelId : Id;
  tl_userId : UserId;
  tl_createdAt : Z
}.

Record Thread := mkThread {
  th_id : Id;
  th_userId : UserId;
  th_title : option jsstring;
  th_status : ThreadStatus;
  th_createdAt : Z;
  th_updatedAt : Z
}.

Record Message := mkMessage {
  m_id : Id;
  m_threadId : Id;
  m_userId : UserId;
  m_role : Role;
  m_content : jsstring;
  m_createdAt : Z
}.

Record Preferences := mkPreferences {
  p_id : Id;
  p_userId : UserId;
  p_theme : Theme;
  p_defaultView : View;
  p_sortBy : SortBy;
  p_sortOrder : SortOrder;
  p_showCompleted : bool;
  p_enableAI : bool;
  p_createdAt : Z;
  p_updatedAt : Z
}.

(** The [v.any()] payloads the endpoints actually store in an activity. *)
Inductive ActivityValue :=
  | VStatus (s : TaskStatus)
  | VPriority (p : Priority)
  | VCreated (title : jsstring) (p : Priority)
  | VTitle (title : jsstring).

Record Activity := mkActivity {
  a_id : Id;
  a_userId : UserId;
  a_taskId : Id;
  a_action : Action;
  a_oldValue : option ActivityValue;
  a_newValue : option ActivityValue;
  a_createdAt : Z
}.

Record Comment := mkComment {
  c_id : Id;
  c_taskId : Id;
  c_userId : UserId;
  c_content : jsstring;
  c_type : CommentType;
  c_createdAt : Z
}.

(** ** helpers/constants.ts *)

Definition MAX_TASK_TITLE_LENGTH : Z := 200.
Definition MAX_TASK_DESCRIPTION_LENGTH : Z := 2000.
Definition MAX_LABEL_NAME_LENGTH : Z := 50.
Definition MAX_COMMENT_LENGTH : Z := 5000.
Definition MAX_MESSAGE_LENGTH : Z := 10000.
Definition MAX_THREAD_TITLE_LENGTH : Z := 200.
Definition MAX_RECENT_ACTIVITIES : Z := 20.

Definition DEFAULT_LABEL_COLORS : list jsstring :=
  map (fun s => str s)
    ["#ef4444"; "#f97316"; "#f59e0b"; "#eab308"; "#84cc16"; "#22c55e";
     "#10b981"; "#14b8a6"; "#06b6d4"; "#0ea5e9"; "#3b82f6"; "#6366f1";
     "#8b5cf6"; "#a855f7"; "#d946ef"; "#ec4899"; "#f43f5e"]%string.

Definition TASK_STATUSES : list TaskStatus := [todo; in_progress; completed].

Definition TASK_PRIORITIES : list Priority := [low; medium; high].

Definition STATUS_TRANSITIONS (s : TaskStatus) : list TaskStatus :=
  match s with
  | todo => [in_progress; completed]
  | in_progress => [todo; completed]
  | completed => [todo; in_progress]
  end.

(** ** helpers/formatting.ts *)

(** A number in a template literal: its decimal digits. *)
Definition decimal (n : Z) : jsstring :=
  str (DecimalString.NilZero.string_of_int (Z.to_int n)).

(** [`${n} unit${n > 1 ? "s" : ""} ago`] *)
Definition ago (n : Z) (unit : jsstring) : jsstring :=
  decimal n ++ str " " ++ unit ++ (if (1 <? n)%Z then str "s" else [])
  ++ str " ago".

(** [formatRelativeTime(timestamp)], [now] being the [Date.now()] of the
    call; [Math.floor] of a quotient is the floored division. *)
Definition formatRelativeTime (timestamp : Z) (now : Z) : jsstring :=
  let diff := (now - timestamp)%Z in
  let seconds := (diff / 1000)%Z in
  let minutes := (seconds / 60)%Z in
  let hours := (minutes / 60)%Z in
  let days := (hours / 24)%Z in
  let weeks := (days / 7)%Z in
  let months := (days / 30)%Z in
  let years := (days / 365)%Z in
  if (seconds <? 60)%Z then str "just now"
  else if (minutes <? 60)%Z then ago minutes (str "minute")
  else if (hours <? 24)%Z then ago hours (str "hour")
  else if (days <? 7)%Z then ago days (str "day")
  else if (weeks <? 4)%Z then ago weeks (str "week")
  else if (months <? 12)%Z then ago months (str "month")
  else ago years (str "year").

Inductive DueDateStatus := overdue | due_soon | normal.

(** [getDueDateStatus(dueDate)]; [None] is the [null] of the source. *)
Definition getDueDateStatus (dueDate : option number) (now : Z)
  : option DueDateStatus :=
  match dueDate with
  | None => None
  | Some d =>
      if isFalsy d then None
      else
        let diff := number_sub d now in
        if lessThan diff 0 then Some overdue
        else if lessThan diff (24 * 60 * 60 * 1000) then Some due_soon
        else Some normal
  end.

Definition getPriorityColor (priority : Priority) : jsstring :=
  match priority with
  | high => str "#ef4444"
  | medium => str "#f59e0b"
  | low => str "#10b981"
  end.

Definition getStatusColor (status : TaskStatus) : jsstring :=
  match status with
  | todo => str "#64748b"
  | in_progress => str "#0ea5e9"
  | completed => str "#22c55e"
  end.

(** [text.slice(0, end)]: a negative [end] counts from the end of the
    string, and the result is empty when that falls before the start. *)
Definition slice0 (text : jsstring) (end_ : Z) : jsstring :=
  let len := jslength text in
  let e := if (end_ <? 0)%Z then Z.max (len + end_) 0 else Z.min end_ len in
  firstn (Z.to_nat e) text.

Definition truncateText (text : jsstring) (maxLength : Z) : jsstring :=
  if (jslength text <=? maxLength)%Z then text
  else slice0 text (maxLength - 3) ++ str "...".

(** ** rateLimiter.ts *)

Module Limit.
(** The names configured in [rateLimiter.ts]. *)
Inductive Name :=
  | createTask | updateTask | deleteTask
  | createLabel | updateLabel | deleteLabel
  | addLabelToTask | removeLabelFromTask
  | createComment | deleteComment
  | updatePreferences
  | createThread | sendMessage | deleteThread.

Definition MINUTE : Z := 60000.
Definition HOUR : Z := 3600000.

(** [kind: "token bucket"] throughout. *)
Record Config := mkConfig { rate : Z; period : Z; capacity : Z }.

Definition config (n : Name) : Config :=
  match n with
  | createTask => mkConfig 30 MINUTE 5
  | updateTask => mkConfig 60 MINUTE 10
  | deleteTask => mkConfig 30 MINUTE 5
  | createLabel => mkConfig 20 MINUTE 3
  | updateLabel => mkConfig 30 MINUTE 5
  | deleteLabel => mkConfig 20 MINUTE 3
  | addLabelToTask => mkConfig 50 MINUTE 10
  | removeLabelFromTask => mkConfig 50 MINUTE 10
  | createComment => mkConfig 30 MINUTE 5
  | deleteComment => mkConfig 30 MINUTE 5
  | updatePreferences => mkConfig 20 MINUTE 5
  | createThread => mkConfig 10 HOUR 2
  | sendMessage => mkConfig 30 HOUR 5
  | deleteThread => mkConfig 20 MINUTE 3
  end.

Definition name_eqb (a b : Name) : bool :=
  match a, b with
  | createTask, createTask | updateTask, updateTask
  | deleteTask, deleteTask | createLabel, createLabel
  | updateLabel, updateLabel | deleteLabel, deleteLabel
  | addLabelToTask, addLabelToTask
  | removeLabelFromTask, removeLabelFromTask
  | createComment, createComment | deleteComment, deleteComment
  | updatePreferences, updatePreferences
  | createThread, createThread | sendMessage, sendMessage
  | deleteThread, deleteThread => true
  | _, _ => false
  end.

(** What [rateLimiter.limit] returns: [{ ok: true }] or
    [{ ok: false, retryAfter }]. *)
Inductive Status := Ok | Retry (retryAfter : Z).
End Limit.

(** The rate-limiter component is an external collaborator: the endpoints
    only call [rateLimiter.limit(ctx, name, { key })], which reads and writes
    the component's own tables. Its state is kept abstract. *)
Class RateLimiter := {
  rl_state : Type;
  rl_limit : Limit.Name -> UserId -> Z -> rl_state -> Limit.Status * rl_state
}.

(** ** The store and the handler monad *)

Record Store {RL : RateLimiter} := mkStore {
  tasks : list Task;
  labels : list Label;
  taskLabels : list TaskLabel;
  threads : list Thread;
  messages : list Message;
  userPreferences : list Preferences;
  taskActivity : list Activity;
  taskComments : list Comment;
  nextId : Id;
  limiter : rl_state
}.
Arguments mkStore {RL}.

(** What a handler sees of its request: the session user resolved by
    [authComponent.getAuthUser] ([None] for no session) and [Date.now()]. *)
Record Ctx := mkCtx { auth : option UserId; now : Z }.

(** The error taxonomy. The endpoint layer throws [Error]s that differ only
    in their message; each message falls in one of the first five classes
    (the message is quoted where it is thrown). [StoreFailure] stands for
    an error raised by the store itself, and for the "Failed to get user
    preferences" of [preferences.update]. *)
Inductive Err :=
  | Unauthenticated
  | RateLimited (retryAfter : Z)
  | NotFound
  | Forbidden
  | InvalidArgument
  | StoreFailure.

Inductive Result (A : Type) :=
  | Return (a : A)
  | Throw (e : Err).
Arguments Return {A} a.
Arguments Throw {A} e.

Section Handler.
Context {RL : RateLimiter}.

Definition set_tasks (v : list Task) (st : Store) : Store :=
  mkStore v (labels st) (taskLabels st) (threads st) (messages st)
    (userPreferences st) (taskActivity st) (taskComments st) (nextId st)
    (limiter st).
Definition set_labels (v : list Label) (st : Store) : Store :=
  mkStore (tasks st) v (taskLabels st) (threads st) (messages st)
    (userPreferences st) (taskActivity st) (taskComments st) (nextId st)
    (limiter st).
Definition set_taskLabels (v : list TaskLabel) (st : Store) : Store :=
  mkStore (tasks st) (labels st) v (threads st) (messages st)
    (userPreferences st) (taskActivity st) (taskComments st) (nextId st)
    (limiter st).
Definition set_threads (v : list Thread) (st : Store) : Store :=
  mkStore (tasks st) (labels st) (taskLabels st) v (messages st)
    (userPreferences st) (taskActivity st) (taskComments st) (nextId st)
    (limiter st).
Definition set_messages (v : list Message) (st : Store) : Store :=
  mkStore (tasks st) (labels st) (taskLabels st) (threads st) v
    (userPreferences st) (taskActivity st) (taskComments st) (nextId st)
    (limiter st).
Definition set_userPreferences (v : list Preferences) (st : Store) : Store :=
  mkStore (tasks st) (labels st) (taskLabels st) (threads st) (messages st)
    v (taskActivity st) (taskComments st) (nextId st) (limiter st).
Definition set_taskActivity (v : list Activity) (st : Store) : Store :=
  mkStore (tasks st) (labels st) (taskLabels st) (threads st) (messages st)
    (userPreferences st) v (taskComments st) (nextId st) (limiter st).
Definition set_taskComments (v : list Comment) (st : Store) : Store :=
  mkStore (tasks st) (labels st) (taskLabels st) (threads st) (messages st)
    (userPreferences st) (taskActivity st) v (nextId st) (limiter st).
Definition set_nextId (v : Id) (st : Store) : Store :=
  mkStore (tasks st) (labels st) (taskLabels st) (threads st) (messages st)
    (userPreferences st) (taskActivity st) (taskComments st) v (limiter st).
Definition set_limiter (v : rl_state) (st : Store) : Store :=
  mkStore (tasks st) (labels st) (taskLabels st) (threads st) (messages st)
    (userPreferences st) (taskActivity st) (taskComments st) (nextId st) v.

(** A handler: throws, or returns a value and the store it leaves. *)
Definition M (A : Type) : Type := Ctx -> Store -> Result (A * Store).

Definition ret {A} (a : A) : M A := fun _ st => Return (a, st).

Definition bind {A B} (m : M A) (k : A -> M B) : M B :=
  fun ctx st =>
    match m ctx st with
    | Return (a, st') => k a ctx st'
    | Throw e => Throw e
    end.

Definition throw {A} (e : Err) : M A := fun _ _ => Throw e.

Definition Date_now : M Z := fun ctx st => Return (now ctx, st).

(** [authComponent.getAuthUser(ctx)] *)
Definition getAuthUser : M (option UserId) :=
  fun ctx st => Return (auth ctx, st).

(** [rateLimiter.limit(ctx, name, { key })] *)
Definition limit (name : Limit.Name) (key : UserId) : M Limit.Status :=
  fun ctx st =>
    let (status, l') := rl_limit name key (now ctx) (limiter st) in
    Return (status, set_limiter l' st).

(** [mutation({ handler })]: the handler runs as one transaction, and a
    handler that throws leaves the store as it found it. *)
Definition mutation {A} (handler : M A) (ctx : Ctx) (st : Store)
  : Result A * Store :=
  match handler ctx st with
  | Return (a, st') => (Return a, st')
  | Throw e => (Throw e, st)
  end.

(** [query({ handler })]: read-only, only the value comes back. *)
Definition query {A} (handler : M A) (ctx : Ctx) (st : Store) : Result A :=
  match handler ctx st with
  | Return (a, _) => Return a
  | Throw e => Throw e
  end.

(** *** [ctx.db] *)

(** A table of the schema: how a document names itself and where the
    table lives in the store. *)
Record Table (R : Type) := mkTable {
  doc_id : R -> Id;
  rows : Store -> list R;
  set_rows : list R -> Store -> Store
}.

Definition tasksT := mkTable t_id tasks set_tasks.
Definition labelsT := mkTable l_id labels set_labels.
Definition taskLabelsT := mkTable tl_id taskLabels set_taskLabels.
Definition threadsT := mkTable th_id threads set_threads.
Definition messagesT := mkTable m_id messages set_messages.
Definition userPreferencesT := mkTable p_id userPreferences set_userPreferences.
Definition taskActivityT := mkTable a_id taskActivity set_taskActivity.
Definition taskCommentsT := mkTable c_id taskComments set_taskComments.

Section Db.
Variable R : Type.
Variable T : Table R.

Definition has_id (id : Id) (r : R) : bool := doc_id T r =? id.

(** [ctx.db.insert(table, doc)]: the store assigns a fresh [_id]. *)
Definition db_insert (doc : Id -> R) : M Id :=
  fun _ st =>
    let id := nextId st in
    Return (id, set_nextId (S id) (set_rows T (rows T st ++ [doc id]) st)).

(** [ctx.db.get(id)] *)
Definition db_get (id : Id) : M (option R) :=
  fun _ st => Return (find (has_id id) (rows T st), st).

(** [ctx.db.patch(id, fields)]; patching a missing document is an error
    of the store. *)
Definition db_patch (id : Id) (fields : R -> R) : M unit :=
  fun _ st =>
    if existsb (has_id id) (rows T st)
    then Return (tt, set_rows T
           (map (fun r => if has_id id r then fields r else r) (rows T st))
           st)
    else Throw StoreFailure.

(** [ctx.db.delete(id)]; deleting a missing document is an error of the
    store. *)
Definition db_delete (id : Id) : M unit :=
  fun _ st =>
    if existsb (has_id id) (rows T st)
    then Return (tt, set_rows T
           (filter (fun r => negb (has_id id r)) (rows T st)) st)
    else Throw StoreFailure.

(** [ctx.db.query(table).withIndex(name, q => q.eq(...)).collect()]
    for an index whose remaining order is the creation order. *)
Definition db_collect (range : R -> bool) : M (list R) :=
  fun _ st => Return (filter range (rows T st), st).
End Db.

(** [await Promise.all(docs.map(f))] for writes to distinct documents. *)
Fixpoint forEach {A} (f : A -> M unit) (l : list A) : M unit :=
  match l with
  | [] => ret tt
  | x :: l' => bind (f x) (fun _ => forEach f l')
  end.
End Handler.

Notation "x <- c1 ;; c2" := (bind c1 (fun x => c2))
  (at level 61, c1 at next level, right associativity).
Notation "c1 ;; c2" := (bind c1 (fun _ => c2))
  (at level 61, right associativity).

(** Index order: a stable insertion sort by an integer key, ascending, so
    that documents with equal keys stay in creation order. *)
Section IndexOrder.
Variable R : Type.
Variable key : R -> Z.

Fixpoint insertByKey (x : R) (l : list R) : list R :=
  match l with
  | [] => [x]
  | y :: l' =>
      if (key x <? key y)%Z then x :: l else y :: insertByKey x l'
  end.

Definition sortByKey (l : list R) : list R :=
  fold_left (fun acc x => insertByKey x acc) l [].
End IndexOrder.

(** ** Data-access layer *)

(** *** db/tasks.ts *)
Module Tasks.
Section WithLimiter.
Context {RL : RateLimiter}.

Definition createTask (userId : UserId) (title : jsstring)
    (description : option jsstring) (status : TaskStatus)
    (priority : Priority) (dueDate : option number) (order : Z) : M Id :=
  now <- Date_now ;;
  db_insert tasksT (fun id =>
    mkTask id userId title description status priority dueDate None order
      now now).

Definition getTaskById (id : Id) : M (option Task) := db_get tasksT id.

(** [by_user], [order("desc")] *)
Definition getTasksByUser (userId : UserId) : M (list Task) :=
  l <- db_collect tasksT (fun t => str_eqb (t_userId t) userId) ;;
  ret (rev l).

(** [by_user_and_status] *)
Definition getTasksByUserAndStatus (userId : UserId) (status : TaskStatus)
  : M (list Task) :=
  db_collect tasksT (fun t =>
    str_eqb (t_userId t) userId && status_eqb (t_status t) status).

(** [by_user_status_order]: within one user and status, by [order]. *)
Definition getTasksByUserStatusOrdered (userId : UserId)
    (status : TaskStatus) : M (list Task) :=
  l <- db_collect tasksT (fun t =>
         str_eqb (t_userId t) userId && status_eqb (t_status t) status) ;;
  ret (sortByKey t_order l).

(** The fields [updateTask] may carry. [up_completedAt] distinguishes a
    field that is absent from one that is present and [undefined]; the
    store removes a field patched to [undefined]. *)
Record Patch := mkPatch {
  up_title : option jsstring;
  up_description : option jsstring;
  up_status : option TaskStatus;
  up_priority : option Priority;
  up_dueDate : option number;
  up_order : option Z;
  up_completedAt : option (option Z)
}.

Definition emptyPatch : Patch :=
  mkPatch None None None None None None None.

Definition orElse {A} (o : option A) (d : A) : A :=
  match o with Some x => x | None => d end.

Definition applyPatch (args : Patch) (updatedAt : Z) (t : Task) : Task :=
  mkTask (t_id t) (t_userId t)
    (orElse (up_title args) (t_title t))
    (match up_description args with
     | Some d => Some d | None => t_description t end)
    (orElse (up_status args) (t_status t))
    (orElse (up_priority args) (t_priority t))
    (match up_dueDate args with
     | Some d => Some d | None => t_dueDate t end)
    (orElse (up_completedAt args) (t_completedAt t))
    (orElse (up_order args) (t_order t))
    (t_createdAt t)
    updatedAt.

Definition updateTask (id : Id) (args : Patch) : M unit :=
  now <- Date_now ;;
  db_patch tasksT id (applyPatch args now).

Definition deleteTask (id : Id) : M unit := db_delete tasksT id.

(** [Math.max(...orders)] of a non-empty list. *)
Definition Math_max (x : Z) (l : list Z) : Z := fold_left Z.max l x.

Definition getMaxOrderForStatus (userId : UserId) (status : TaskStatus)
  : M Z :=
  tasks <- db_collect tasksT (fun t =>
             str_eqb (t_userId t) userId && status_eqb (t_status t) status) ;;
  match map t_order (sortByKey t_order tasks) with
  | [] => ret 0%Z
  | x :: xs => ret (Math_max x xs)
  end.

Definition countTasksByStatus (userId : UserId) (status : TaskStatus)
  : M Z :=
  l <- getTasksByUserAndStatus userId status ;;
  ret (Z.of_nat (length l)).
End WithLimiter.
End Tasks.

(** *** db/taskLabels.ts *)
Module TaskLabels.
Section WithLimiter.
Context {RL : RateLimiter}.

Definition createTaskLabel (taskId labelId : Id) (userId : UserId) : M Id :=
  now <- Date_now ;;
  db_insert taskLabelsT (fun id => mkTaskLabel id taskId labelId userId now).

(** [by_task] *)
Definition getLabelsForTask (taskId : Id) : M (list TaskLabel) :=
  db_collect taskLabelsT (fun tl => tl_taskId tl =? taskId).

(** [by_label] *)
Definition getTasksForLabel (labelId : Id) : M (list TaskLabel) :=
  db_collect taskLabelsT (fun tl => tl_labelId tl =? labelId).

Definition taskLabelExists (taskId labelId : Id) : M bool :=
  existing <- db_collect taskLabelsT (fun tl => tl_taskId tl =? taskId) ;;
  ret (existsb (fun tl => tl_labelId tl =? labelId) existing).

Definition deleteTaskLabel (taskId labelId : Id) : M unit :=
  taskLabel <- db_collect taskLabelsT (fun tl => tl_taskId tl =? taskId) ;;
  match find (fun tl => tl_labelId tl =? labelId) taskLabel with
  | Some toDelete => db_delete taskLabelsT (tl_id toDelete)
  | None => ret tt
  end.

Definition deleteAllLabelsFromTask (taskId : Id) : M unit :=
  taskLabels <- db_collect taskLabelsT (fun tl => tl_taskId tl =? taskId) ;;
  forEach (fun tl => db_delete taskLabelsT (tl_id tl)) taskLabels.

Definition deleteAllTasksFromLabel (labelId : Id) : M unit :=
  taskLabels <- db_collect taskLabelsT (fun tl => tl_labelId tl =? labelId) ;;
  forEach (fun tl => db_delete taskLabelsT (tl_id tl)) taskLabels.
End WithLimiter.
End TaskLabels.

(** *** db/taskComments.ts *)
Module TaskComments.
Section WithLimiter.
Context {RL : RateLimiter}.

Definition createTaskComment (taskId : Id) (userId : UserId)
    (content : jsstring) (type : CommentType) : M Id :=
  now <- Date_now ;;
  db_insert taskCommentsT (fun id =>
    mkComment id taskId userId content type now).

(** [by_task], [order("asc")] *)
Definition getCommentsByTask (taskId : Id) : M (list Comment) :=
  db_collect taskCommentsT (fun c => c_taskId c =? taskId).

Definition deleteTaskComment (id : Id) : M unit :=
  db_delete taskCommentsT id.

Definition deleteAllCommentsFromTask (taskId : Id) : M unit :=
  comments <- db_collect taskCommentsT (fun c => c_taskId c =? taskId) ;;
  forEach (fun comment => db_delete taskCommentsT (c_id comment)) comments.
End WithLimiter.
End TaskComments.

(** *** db/taskActivity.ts *)
Module TaskActivity.
Section WithLimiter.
Context {RL : RateLimiter}.

Definition createTaskActivity (userId : UserId) (taskId : Id)
    (action : Action) (oldValue newValue : option ActivityValue) : M Id :=
  now <- Date_now ;;
  db_insert taskActivityT (fun id =>
    mkActivity id userId taskId action oldValue newValue now).

(** [by_task], [order("desc")] *)
Definition getActivityByTask (taskId : Id) : M (list Activity) :=
  l <- db_collect taskActivityT (fun a => a_taskId a =? taskId) ;;
  ret (rev l).

(** [by_user], [order("desc")] *)
Definition getActivityByUser (userId : UserId) : M (list Activity) :=
  l <- db_collect taskActivityT (fun a => str_eqb (a_userId a) userId) ;;
  ret (rev l).

(** [.take(n)]: the store refuses a negative [n]. *)
Definition take {A} (n : Z) (l : list A) : M (list A) :=
  if (n <? 0)%Z then throw StoreFailure else ret (firstn (Z.to_nat n) l).

(** [by_user_and_created]: within one user, by [createdAt];
    [order("desc")], then [take(limit)] with [limit = 20] by default. *)
Definition getRecentActivityByUser (userId : UserId) (limit : option Z)
  : M (list Activity) :=
  let limit := match limit with Some n => n | None => 20%Z end in
  l <- db_collect taskActivityT (fun a => str_eqb (a_userId a) userId) ;;
  take limit (rev (sortByKey a_createdAt l)).

Definition deleteTaskActivity (id : Id) : M unit :=
  db_delete taskActivityT id.

Definition deleteAllActivityForTask (taskId : Id) : M unit :=
  activities <- db_collect taskActivityT (fun a => a_taskId a =? taskId) ;;
  forEach (fun activity => db_delete taskActivityT (a_id activity))
    activities.
End WithLimiter.
End TaskActivity.

(** *** db/labels.ts *)
Module Labels.
Section WithLimiter.
Context {RL : RateLimiter}.

Definition createLabel (userId : UserId) (name color : jsstring) : M Id :=
  now <- Date_now ;;
  db_insert labelsT (fun id => mkLabel id userId name color now).

Definition getLabelById (id : Id) : M (option Label) := db_get labelsT id.

(** [by_user], [order("desc")] *)
Definition getLabelsByUser (userId : UserId) : M (list Label) :=
  l <- db_collect labelsT (fun l => str_eqb (l_userId l) userId) ;;
  ret (rev l).

(** [.filter(callback)]: the store calls the callback once, with its
    filter builder, and keeps the documents that satisfy the expression the
    callback returns. The builder has the methods [field], [eq], ... and no
    property [name], so that [label.name] is [undefined]. *)
Definition builder_name : option jsstring := None.

(** [a === b] for a string [b]; [None] is [undefined]. *)
Definition strictEq (a : option jsstring) (b : jsstring) : bool :=
  match a with
  | Some s => str_eqb s b
  | None => false
  end.

(** [by_user_and_name] restricted to the user, [.filter((label) =>
    label.name === name)], [.first()]: the callback's [label] is the filter
    builder, the expression it returns is a constant. *)
Definition getLabelByUserAndName (userId : UserId) (name : jsstring)
  : M (option Label) :=
  l <- db_collect labelsT (fun l => str_eqb (l_userId l) userId) ;;
  let expression := strictEq builder_name name in
  ret (hd_error (filter (fun _ => expression) l)).

Record Patch := mkPatch {
  up_name : option jsstring;
  up_color : option jsstring
}.

Definition emptyPatch : Patch := mkPatch None None.

Definition applyPatch (args : Patch) (l : Label) : Label :=
  mkLabel (l_id l) (l_userId l)
    (Tasks.orElse (up_name args) (l_name l))
    (Tasks.orElse (up_color args) (l_color l))
    (l_createdAt l).

Definition updateLabel (id : Id) (args : Patch) : M unit :=
  db_patch labelsT id (applyPatch args).

Definition deleteLabel (id : Id) : M unit := db_delete labelsT id.
End WithLimiter.
End Labels.

(** *** db/threads.ts *)
Module Threads.
Section WithLimiter.
Context {RL : RateLimiter}.

Definition createThread (userId : UserId) (title : option jsstring)
    (status : ThreadStatus) : M Id :=
  now <- Date_now ;;
  db_insert threadsT (fun id => mkThread id userId title status now now).

Definition getThreadById (id : Id) : M (option Thread) :=
  db_get threadsT id.

(** [up_title]: absent, or present with a title or with [undefined]. *)
Record Patch := mkPatch {
  up_title : option (option jsstring);
  up_status : option ThreadStatus
}.

Definition applyPatch (args : Patch) (updatedAt : Z) (t : Thread) : Thread :=
  mkThread (th_id t) (th_userId t)
    (Tasks.orElse (up_title args) (th_title t))
    (Tasks.orElse (up_status args) (th_status t))
    (th_createdAt t)
    updatedAt.

Definition updateThread (id : Id) (args : Patch) : M unit :=
  now <- Date_now ;;
  db_patch threadsT id (applyPatch args now).

(** [by_user], [order("desc")] *)
Definition getThreadsByUser (userId : UserId) : M (list Thread) :=
  l <- db_collect threadsT (fun t => str_eqb (th_userId t) userId) ;;
  ret (rev l).

Definition threadStatus_eqb (a b : ThreadStatus) : bool :=
  match a, b with
  | active, active | archived, archived => true
  | _, _ => false
  end.

(** [by_user_and_status], [order("desc")] *)
Definition getThreadsByUserAndStatus (userId : UserId)
    (status : ThreadStatus) : M (list Thread) :=
  l <- db_collect threadsT (fun t =>
         str_eqb (th_userId t) userId
         && threadStatus_eqb (th_status t) status) ;;
  ret (rev l).

Definition deleteThread (id : Id) : M unit := db_delete threadsT id.
End WithLimiter.
End Threads.

(** *** db/messages.ts *)
Module Messages.
Section WithLimiter.
Context {RL : RateLimiter}.

Definition createMessage (threadId : Id) (userId : UserId) (role : Role)
    (content : jsstring) : M Id :=
  now <- Date_now ;;
  db_insert messagesT (fun id =>
    mkMessage id threadId userId role content now).

(** [by_thread], [order("asc")] *)
Definition getMessagesByThread (threadId : Id) : M (list Message) :=
  db_collect messagesT (fun m => m_threadId m =? threadId).

Definition deleteAllMessagesInThread (threadId : Id) : M unit :=
  messages <- db_collect messagesT (fun m => m_threadId m =? threadId) ;;
  forEach (fun msg => db_delete messagesT (m_id msg)) messages.
End WithLimiter.
End Messages.

(** *** db/userPreferences.ts *)
Module UserPreferences.
Section WithLimiter.
Context {RL : RateLimiter}.

Definition createUserPreferences (userId : UserId) (theme : Theme)
    (defaultView : View) (sortBy : SortBy) (sortOrder : SortOrder)
    (showCompleted enableAI : bool) : M Id :=
  now <- Date_now ;;
  db_insert userPreferencesT (fun id =>
    mkPreferences id userId theme defaultView sortBy sortOrder
      showCompleted enableAI now now).

(** [by_user], [.first()] *)
Definition getUserPreferencesByUser (userId : UserId)
  : M (option Preferences) :=
  l <- db_collect userPreferencesT (fun p => str_eqb (p_userId p) userId) ;;
  ret (hd_error l).

Record Patch := mkPatch {
  up_theme : option Theme;
  up_defaultView : option View;
  up_sortBy : option SortBy;
  up_sortOrder : option SortOrder;
  up_showCompleted : option bool;
  up_enableAI : option bool
}.

Definition applyPatch (args : Patch) (updatedAt : Z) (p : Preferences)
  : Preferences :=
  mkPreferences (p_id p) (p_userId p)
    (Tasks.orElse (up_theme args) (p_theme p))
    (Tasks.orElse (up_defaultView args) (p_defaultView p))
    (Tasks.orElse (up_sortBy args) (p_sortBy p))
    (Tasks.orElse (up_sortOrder args) (p_sortOrder p))
    (Tasks.orElse (up_showCompleted args) (p_showCompleted p))
    (Tasks.orElse (up_enableAI args) (p_enableAI p))
    (p_createdAt p)
    updatedAt.

Definition updateUserPreferences (id : Id) (args : Patch) : M unit :=
  now <- Date_now ;;
  db_patch userPreferencesT id (applyPatch args now).

Definition getOrCreateUserPreferences (userId : UserId)
  : M (option Preferences) :=
  existing <- getUserPreferencesByUser userId ;;
  match existing with
  | Some p => ret (Some p)
  | None =>
      id <- createUserPreferences userId system view_list sort_created desc
              true true ;;
      db_get userPreferencesT id
  end.
End WithLimiter.
End UserPreferences.

(** ** Endpoint layer *)

Section Protocol.
Context {RL : RateLimiter}.

(** [const authUser = await authComponent.getAuthUser(ctx);
     if (!authUser) throw new Error("Not authenticated");] *)
Definition requireAuth : M UserId :=
  authUser <- getAuthUser ;;
  match authUser with
  | Some u => ret u
  | None => throw Unauthenticated
  end.

(** [const status = await rateLimiter.limit(ctx, name, { key });
     if (!status.ok)
       throw new Error("Rate limit exceeded. Retry after ...");] *)
Definition rateLimit (name : Limit.Name) (key : UserId) : M unit :=
  status <- limit name key ;;
  match status with
  | Limit.Ok => ret tt
  | Limit.Retry retryAfter => throw (RateLimited retryAfter)
  end.

(** [args.s && ...] for an optional string argument. *)
Definition truthyOpt (s : option jsstring) : bool :=
  match s with Some s => truthy s | None => false end.

Definition isNone {A} (o : option A) : bool :=
  match o with Some _ => false | None => true end.
End Protocol.

(** *** endpoints/tasks.ts *)
Module EpTasks.
Section WithLimiter.
Context {RL : RateLimiter}.

Definition listByStatus (status : TaskStatus) : M (list Task) :=
  authUser <- requireAuth ;;
  Tasks.getTasksByUserStatusOrdered authUser status.

Definition get (id : Id) : M Task :=
  authUser <- requireAuth ;;
  task <- Tasks.getTaskById id ;;
  match task with
  | None => throw NotFound (* "Task not found" *)
  | Some task =>
      if negb (str_eqb (t_userId task) authUser)
      then throw Forbidden (* "Not authorized to view this task" *)
      else ret task
  end.

Definition create (title : jsstring) (description : option jsstring)
    (priority : Priority) (dueDate : option number) : M Id :=
  authUser <- requireAuth ;;
  rateLimit Limit.createTask authUser ;;
  let title := sanitizeString title in
  if negb (isValidTaskTitle title)
  then (* "Invalid task title (must be 1-200 characters)" *)
  throw InvalidArgument
  else
  if truthyOpt description && negb (isValidTaskDescription description)
  then throw InvalidArgument (* "Invalid description (max 2000 characters)" *)
  else
  maxOrder <- Tasks.getMaxOrderForStatus authUser todo ;;
  taskId <- Tasks.createTask authUser title description todo priority
              dueDate (float64_add maxOrder 1) ;;
  TaskActivity.createTaskActivity authUser taskId created None
    (Some (VCreated title priority)) ;;
  ret taskId.

Record UpdateArgs := mkUpdateArgs {
  id : Id;
  title : option jsstring;
  description : option jsstring;
  status : option TaskStatus;
  priority : option Priority;
  dueDate : option number
}.

Definition update (args : UpdateArgs) : M Id :=
  authUser <- requireAuth ;;
  rateLimit Limit.updateTask authUser ;;
  task <- Tasks.getTaskById (id args) ;;
  match task with
  | None => throw NotFound (* "Task not found" *)
  | Some task =>
  if negb (str_eqb (t_userId task) authUser)
  then throw Forbidden (* "Not authorized to update this task" *)
  else
  if truthyOpt (title args)
     && negb (isValidTaskTitle
                (sanitizeString (Tasks.orElse (title args) [])))
  then throw InvalidArgument
  else
  if truthyOpt (description args)
     && negb (isValidTaskDescription (description args))
  then throw InvalidArgument
  else
  (* Prepare update data *)
  let updateData :=
    Tasks.mkPatch
      (if truthyOpt (title args)
       then Some (sanitizeString (Tasks.orElse (title args) []))
       else None)
      (description args)
      None
      (priority args)
      (dueDate args)
      None
      None in
  (* Handle status change *)
  updateData <-
    match status args with
    | Some s =>
        if negb (status_eqb s (t_status task))
        then
          now <- Date_now ;;
          let updateData :=
            Tasks.mkPatch (Tasks.up_title updateData)
              (Tasks.up_description updateData)
              (Some s)
              (Tasks.up_priority updateData)
              (Tasks.up_dueDate updateData)
              (Tasks.up_order updateData)
              (Some (if status_eqb s completed then Some now else None)) in
          TaskActivity.createTaskActivity authUser (id args) status_changed
            (Some (VStatus (t_status task))) (Some (VStatus s)) ;;
          ret updateData
        else ret updateData
    | None => ret updateData
    end ;;
  (* Log priority change *)
  match priority args with
  | Some p =>
      if negb (priority_eqb p (t_priority task))
      then
        TaskActivity.createTaskActivity authUser (id args) priority_changed
          (Some (VPriority (t_priority task))) (Some (VPriority p)) ;;
        ret tt
      else ret tt
  | None => ret tt
  end ;;
  Tasks.updateTask (id args) updateData ;;
  (* Log general update activity (if not status or priority change) *)
  (if isNone (status args) && isNone (priority args)
   then
     TaskActivity.createTaskActivity authUser (id args) updated None None ;;
     ret tt
   else ret tt) ;;
  ret (id args)
  end.

Definition reorder (id : Id) (newOrder : Z) : M Id :=
  authUser <- requireAuth ;;
  rateLimit Limit.updateTask authUser ;;
  task <- Tasks.getTaskById id ;;
  match task with
  | None => throw NotFound
  | Some task =>
      if negb (str_eqb (t_userId task) authUser)
      then throw Forbidden
      else
        Tasks.updateTask id
          (Tasks.mkPatch None None None None None (Some newOrder) None) ;;
        ret id
  end.

Definition remove (id : Id) : M Id :=
  authUser <- requireAuth ;;
  rateLimit Limit.deleteTask authUser ;;
  task <- Tasks.getTaskById id ;;
  match task with
  | None => throw NotFound
  | Some task =>
      if negb (str_eqb (t_userId task) authUser)
      then throw Forbidden (* "Not authorized to delete this task" *)
      else
        (* Log deletion activity before deleting *)
        TaskActivity.createTaskActivity authUser id deleted
          (Some (VTitle (t_title task))) None ;;
        (* Delete related data; activity logs are kept *)
        TaskLabels.deleteAllLabelsFromTask id ;;
        TaskComments.deleteAllCommentsFromTask id ;;
        Tasks.deleteTask id ;;
        ret id
  end.

Record Counts := mkCounts {
  cnt_todo : Z; cnt_in_progress : Z; cnt_completed : Z; cnt_total : Z
}.

Definition getCounts : M Counts :=
  authUser <- requireAuth ;;
  todoCount <- Tasks.countTasksByStatus authUser todo ;;
  inProgressCount <- Tasks.countTasksByStatus authUser in_progress ;;
  completedCount <- Tasks.countTasksByStatus authUser completed ;;
  ret (mkCounts todoCount inProgressCount completedCount
         (todoCount + inProgressCount + completedCount)%Z).

Definition list : M (Datatypes.list Task) :=
  authUser <- requireAuth ;;
  Tasks.getTasksByUser authUser.
End WithLimiter.
End EpTasks.

(** *** endpoints/labels.ts *)
Module EpLabels.
Section WithLimiter.
Context {RL : RateLimiter}.

Definition get (id : Id) : M Label :=
  authUser <- requireAuth ;;
  label <- Labels.getLabelById id ;;
  match label with
  | None => throw NotFound (* "Label not found" *)
  | Some label =>
      if negb (str_eqb (l_userId label) authUser)
      then throw Forbidden (* "Not authorized to view this label" *)
      else ret label
  end.

Definition create (name color : jsstring) : M Id :=
  authUser <- requireAuth ;;
  rateLimit Limit.createLabel authUser ;;
  let name := sanitizeString name in
  if negb (isValidLabelName name)
  then (* "Invalid label name (must be 1-50 characters)" *)
  throw InvalidArgument
  else
  if negb (isValidHexColor color)
  then (* "Invalid color (must be a hex color code ...)" *)
  throw InvalidArgument
  else
  (* Check for duplicate name *)
  existing <- Labels.getLabelByUserAndName authUser name ;;
  match existing with
  | Some _ =>
    (* "A label with this name already exists" *)
    throw InvalidArgument
  | None =>
      labelId <- Labels.createLabel authUser name color ;;
      ret labelId
  end.

Definition update (id : Id) (name color : option jsstring) : M Id :=
  authUser <- requireAuth ;;
  rateLimit Limit.updateLabel authUser ;;
  label <- Labels.getLabelById id ;;
  match label with
  | None => throw NotFound
  | Some label =>
  if negb (str_eqb (l_userId label) authUser)
  then throw Forbidden (* "Not authorized to update this label" *)
  else
  (if truthyOpt name
   then
     let name := sanitizeString (Tasks.orElse name []) in
     if negb (isValidLabelName name)
     then throw InvalidArgument
     else
       (* Check for duplicate name (if name is changing) *)
       if negb (str_eqb name (l_name label))
       then
         existing <- Labels.getLabelByUserAndName authUser name ;;
         match existing with
         | Some _ => throw InvalidArgument
         | None => ret tt
         end
       else ret tt
   else ret tt) ;;
  if truthyOpt color && negb (isValidHexColor (Tasks.orElse color []))
  then throw InvalidArgument
  else
  let updateData :=
    Labels.mkPatch
      (if truthyOpt name
       then Some (sanitizeString (Tasks.orElse name []))
       else None)
      (if truthyOpt color then color else None) in
  Labels.updateLabel id updateData ;;
  ret id
  end.

Definition remove (id : Id) : M Id :=
  authUser <- requireAuth ;;
  rateLimit Limit.deleteLabel authUser ;;
  label <- Labels.getLabelById id ;;
  match label with
  | None => throw NotFound
  | Some label =>
      if negb (str_eqb (l_userId label) authUser)
      then throw Forbidden (* "Not authorized to delete this label" *)
      else
        TaskLabels.deleteAllTasksFromLabel id ;;
        Labels.deleteLabel id ;;
        ret id
  end.

Definition addToTask (taskId labelId : Id) : M Id :=
  authUser <- requireAuth ;;
  rateLimit Limit.addLabelToTask authUser ;;
  task <- Tasks.getTaskById taskId ;;
  match task with
  | None => throw NotFound
  | Some task =>
  if negb (str_eqb (t_userId task) authUser)
  then throw Forbidden (* "Not authorized to modify this task" *)
  else
  label <- Labels.getLabelById labelId ;;
  match label with
  | None => throw NotFound
  | Some label =>
  if negb (str_eqb (l_userId label) authUser)
  then throw Forbidden (* "Not authorized to use this label" *)
  else
  exists_ <- TaskLabels.taskLabelExists taskId labelId ;;
  if (exists_ : bool)
  then throw InvalidArgument (* "This label is already added to the task" *)
  else
    taskLabelId <- TaskLabels.createTaskLabel taskId labelId authUser ;;
    ret taskLabelId
  end
  end.

Definition removeFromTask (taskId labelId : Id) : M (Id * Id) :=
  authUser <- requireAuth ;;
  rateLimit Limit.removeLabelFromTask authUser ;;
  task <- Tasks.getTaskById taskId ;;
  match task with
  | None => throw NotFound (* "Task not found" *)
  | Some task =>
      if negb (str_eqb (t_userId task) authUser)
      then throw Forbidden (* "Not authorized to modify this task" *)
      else
        TaskLabels.deleteTaskLabel taskId labelId ;;
        ret (taskId, labelId)
  end.

(** [labels.filter((l) => l !== null)] after the per-association lookups *)
Fixpoint fetchAll {A} (get : Id -> M (option A)) (ids : list Id)
  : M (list A) :=
  match ids with
  | [] => ret []
  | i :: ids' =>
      x <- get i ;;
      xs <- fetchAll get ids' ;;
      ret (match x with Some a => a :: xs | None => xs end)
  end.

Definition getLabelsForTask (taskId : Id) : M (list Label) :=
  authUser <- requireAuth ;;
  task <- Tasks.getTaskById taskId ;;
  match task with
  | None => throw NotFound
  | Some task =>
      if negb (str_eqb (t_userId task) authUser)
      then throw Forbidden
      else
        taskLabels <- TaskLabels.getLabelsForTask taskId ;;
        fetchAll Labels.getLabelById (map tl_labelId taskLabels)
  end.

Definition getTasksForLabel (labelId : Id) : M (list Task) :=
  authUser <- requireAuth ;;
  label <- Labels.getLabelById labelId ;;
  match label with
  | None => throw NotFound
  | Some label =>
      if negb (str_eqb (l_userId label) authUser)
      then throw Forbidden
      else
        taskLabels <- TaskLabels.getTasksForLabel labelId ;;
        fetchAll Tasks.getTaskById (map tl_taskId taskLabels)
  end.

Definition list : M (Datatypes.list Label) :=
  authUser <- requireAuth ;;
  Labels.getLabelsByUser authUser.
End WithLimiter.
End EpLabels.

(** *** endpoints/comments.ts *)
Module EpComments.
Section WithLimiter.
Context {RL : RateLimiter}.

Definition listByTask (taskId : Id) : M (list Comment) :=
  authUser <- requireAuth ;;
  task <- Tasks.getTaskById taskId ;;
  match task with
  | None => throw NotFound
  | Some task =>
      if negb (str_eqb (t_userId task) authUser)
      then throw Forbidden (* "Not authorized to view comments for this task" *)
      else TaskComments.getCommentsByTask taskId
  end.

Definition create (taskId : Id) (content : jsstring)
    (type : option CommentType) : M Id :=
  authUser <- requireAuth ;;
  rateLimit Limit.createComment authUser ;;
  task <- Tasks.getTaskById taskId ;;
  match task with
  | None => throw NotFound
  | Some task =>
      if negb (str_eqb (t_userId task) authUser)
      then throw Forbidden (* "Not authorized to comment on this task" *)
      else
        let content := sanitizeString content in
        if negb (isValidCommentContent content)
        then throw InvalidArgument
        else
          commentId <- TaskComments.createTaskComment taskId authUser content
                         (Tasks.orElse type user_note) ;;
          ret commentId
  end.

(** No lookup of the comment and no ownership check: the handler deletes
    whatever document the id names. *)
Definition remove (id : Id) : M Id :=
  authUser <- requireAuth ;;
  rateLimit Limit.deleteComment authUser ;;
  TaskComments.deleteTaskComment id ;;
  ret id.
End WithLimiter.
End EpComments.

(** *** endpoints/activity.ts *)
Module EpActivity.
Section WithLimiter.
Context {RL : RateLimiter}.

Definition getByTask (taskId : Id) : M (list Activity) :=
  authUser <- requireAuth ;;
  (* Verify task ownership *)
  task <- Tasks.getTaskById taskId ;;
  match task with
  | None => throw NotFound (* "Task not found" *)
  | Some task =>
      if negb (str_eqb (t_userId task) authUser)
      then throw Forbidden (* "Not authorized to view activity for this task" *)
      else TaskActivity.getActivityByTask taskId
  end.

Definition getRecent (limit : option Z) : M (list Activity) :=
  authUser <- requireAuth ;;
  TaskActivity.getRecentActivityByUser authUser limit.

Definition getAll : M (list Activity) :=
  authUser <- requireAuth ;;
  TaskActivity.getActivityByUser authUser.
End WithLimiter.
End EpActivity.

(** *** endpoints/dashboard.ts *)
Module EpDashboard.
Section WithLimiter.
Context {RL : RateLimiter}.

Record Summary := mkSummary {
  s_todo : Z; s_inProgress : Z; s_completed : Z; s_total : Z; s_labels : Z
}.

Definition summary : M Summary :=
  authUser <- requireAuth ;;
  todoCount <- Tasks.countTasksByStatus authUser todo ;;
  inProgressCount <- Tasks.countTasksByStatus authUser in_progress ;;
  completedCount <- Tasks.countTasksByStatus authUser completed ;;
  labels <- Labels.getLabelsByUser authUser ;;
  ret (mkSummary todoCount inProgressCount completedCount
         (todoCount + inProgressCount + completedCount)%Z
         (Z.of_nat (length labels))).

(** [tasks.sort((a, b) => b.updatedAt - a.updatedAt).slice(0, 10)]:
    [Array.prototype.sort] is stable, so tasks updated at the same time
    stay in the order of [getTasksByUser]. *)
Definition recent : M (list Task) :=
  authUser <- requireAuth ;;
  tasks <- Tasks.getTasksByUser authUser ;;
  ret (firstn 10 (sortByKey (fun t => (- t_updatedAt t)%Z) tasks)).

(** The handler takes no argument and asks for 10 records. *)
Definition recentActivity : M (list Activity) :=
  authUser <- requireAuth ;;
  TaskActivity.getRecentActivityByUser authUser (Some 10%Z).

(** [loadSummary]: every table is read whole and filtered by [userId] in
    the handler; [perTable] in the order of [TABLES]. *)
Definition countOwned {R} (owner : R -> UserId) (records : list R)
    (authUser : UserId) : Z :=
  Z.of_nat (length (filter (fun r => str_eqb (owner r) authUser) records)).

Definition loadSummary : M (list (jsstring * Z) * Z) :=
  authUser <- requireAuth ;;
  tasks <- db_collect tasksT (fun _ => true) ;;
  taskComments <- db_collect taskCommentsT (fun _ => true) ;;
  taskActivity <- db_collect taskActivityT (fun _ => true) ;;
  userPreferences <- db_collect userPreferencesT (fun _ => true) ;;
  labels <- db_collect labelsT (fun _ => true) ;;
  taskLabels <- db_collect taskLabelsT (fun _ => true) ;;
  threads <- db_collect threadsT (fun _ => true) ;;
  messages <- db_collect messagesT (fun _ => true) ;;
  let perTable :=
    [(str "tasks", countOwned t_userId tasks authUser);
     (str "taskComments", countOwned c_userId taskComments authUser);
     (str "taskActivity", countOwned a_userId taskActivity authUser);
     (str "userPreferences", countOwned p_userId userPreferences authUser);
     (str "labels", countOwned l_userId labels authUser);
     (str "taskLabels", countOwned tl_userId taskLabels authUser);
     (str "threads", countOwned th_userId threads authUser);
     (str "messages", countOwned m_userId messages authUser)] in
  let totalRecords := fold_left Z.add (map snd perTable) 0%Z in
  ret (perTable, totalRecords).
End WithLimiter.
End EpDashboard.

(** *** endpoints/ai.ts *)
Module EpAi.
Section WithLimiter.
Context {RL : RateLimiter}.

Definition getThread (threadId : Id) : M (Thread * list Message) :=
  authUser <- requireAuth ;;
  thread <- Threads.getThreadById threadId ;;
  match thread with
  | None => throw NotFound
  | Some thread =>
      if negb (str_eqb (th_userId thread) authUser)
      then throw Forbidden (* "Not authorized to view this thread" *)
      else
        messages <- Messages.getMessagesByThread threadId ;;
        ret (thread, messages)
  end.

Definition createThread (title : option jsstring) : M Id :=
  authUser <- requireAuth ;;
  rateLimit Limit.createThread authUser ;;
  if truthyOpt title && negb (isValidThreadTitle title)
  then throw InvalidArgument
  else
    threadId <- Threads.createThread authUser
                  (if truthyOpt title
                   then Some (sanitizeString (Tasks.orElse title []))
                   else None)
                  active ;;
    ret threadId.

Definition sendMessage (threadId : Id) (content : jsstring) : M Id :=
  authUser <- requireAuth ;;
  rateLimit Limit.sendMessage authUser ;;
  thread <- Threads.getThreadById threadId ;;
  match thread with
  | None => throw NotFound
  | Some thread =>
      if negb (str_eqb (th_userId thread) authUser)
      then throw Forbidden
      else
        let content := sanitizeString content in
        if negb (isValidMessageContent content)
        then throw InvalidArgument
        else
          messageId <- Messages.createMessage threadId authUser user content ;;
          ret messageId
  end.

(** The handler goes from authentication straight to the ownership check:
    it never calls [rateLimiter.limit], and [rateLimiter.ts] configures no
    limit for it. *)
Definition updateThread (threadId : Id) (title : option jsstring)
    (status : option ThreadStatus) : M Id :=
  authUser <- requireAuth ;;
  thread <- Threads.getThreadById threadId ;;
  match thread with
  | None => throw NotFound (* "Thread not found" *)
  | Some thread =>
      if negb (str_eqb (th_userId thread) authUser)
      then throw Forbidden (* "Not authorized to update this thread" *)
      else
        if truthyOpt title && negb (isValidThreadTitle title)
        then throw InvalidArgument
        else
          let updateData :=
            Threads.mkPatch
              (match title with
               | Some t =>
                   Some (if truthy t then Some (sanitizeString t) else None)
               | None => None
               end)
              status in
          Threads.updateThread threadId updateData ;;
          ret threadId
  end.

Definition deleteThread (threadId : Id) : M Id :=
  authUser <- requireAuth ;;
  rateLimit Limit.deleteThread authUser ;;
  thread <- Threads.getThreadById threadId ;;
  match thread with
  | None => throw NotFound
  | Some thread =>
      if negb (str_eqb (th_userId thread) authUser)
      then throw Forbidden
      else
        Messages.deleteAllMessagesInThread threadId ;;
        Threads.deleteThread threadId ;;
        ret threadId
  end.

Definition listThreads (status : option ThreadStatus) : M (list Thread) :=
  authUser <- requireAuth ;;
  match status with
  | Some status => Threads.getThreadsByUserAndStatus authUser status
  | None => Threads.getThreadsByUser authUser
  end.
End WithLimiter.
End EpAi.

(** *** endpoints/preferences.ts *)
Module EpPreferences.
Section WithLimiter.
Context {RL : RateLimiter}.

(** The six settings; the default object of [get] carries nothing else. *)
Record Settings := mkSettings {
  theme : Theme;
  defaultView : View;
  sortBy : SortBy;
  sortOrder : SortOrder;
  showCompleted : bool;
  enableAI : bool
}.

Definition defaults : Settings :=
  mkSettings system view_list sort_created desc true true.

(** [get]: the stored document, or the default object when there is
    none. *)
Definition get : M (Preferences + Settings) :=
  authUser <- requireAuth ;;
  prefs <- UserPreferences.getUserPreferencesByUser authUser ;;
  ret (match prefs with
       | Some p => inl p
       | None => inr defaults
       end).

Definition update (args : UserPreferences.Patch) : M Id :=
  authUser <- requireAuth ;;
  rateLimit Limit.updatePreferences authUser ;;
  prefs <- UserPreferences.getOrCreateUserPreferences authUser ;;
  match prefs with
  | None => throw StoreFailure (* "Failed to get user preferences" *)
  | Some prefs =>
      UserPreferences.updateUserPreferences (p_id prefs) args ;;
      ret (p_id prefs)
  end.
End WithLimiter.
End EpPreferences.

(** ** The mutations as one transition system *)

Inductive Request :=
  | TasksCreate (title : jsstring) (description : option jsstring)
      (priority : Priority) (dueDate : option number)
  | TasksUpdate (args : EpTasks.UpdateArgs)
  | TasksReorder (id : Id) (newOrder : Z)
  | TasksRemove (id : Id)
  | LabelsCreate (name color : jsstring)
  | LabelsUpdate (id : Id) (name color : option jsstring)
  | LabelsRemove (id : Id)
  | LabelsAddToTask (taskId labelId : Id)
  | LabelsRemoveFromTask (taskId labelId : Id)
  | CommentsCreate (taskId : Id) (content : jsstring)
      (type : option CommentType)
  | CommentsRemove (id : Id)
  | PreferencesUpdate (args : UserPreferences.Patch)
  | AiCreateThread (title : option jsstring)
  | AiSendMessage (threadId : Id) (content : jsstring)
  | AiUpdateThread (threadId : Id) (title : option jsstring)
      (status : option ThreadStatus)
  | AiDeleteThread (threadId : Id).

Section Transitions.
Context {RL : RateLimiter}.

(** The store a mutation leaves, whatever it answers. *)
Definition step (ctx : Ctx) (r : Request) (st : Store) : Store :=
  match r with
  | TasksCreate t d p due => snd (mutation (EpTasks.create t d p due) ctx st)
  | TasksUpdate args => snd (mutation (EpTasks.update args) ctx st)
  | TasksReorder id o => snd (mutation (EpTasks.reorder id o) ctx st)
  | TasksRemove id => snd (mutation (EpTasks.remove id) ctx st)
  | LabelsCreate n c => snd (mutation (EpLabels.create n c) ctx st)
  | LabelsUpdate id n c => snd (mutation (EpLabels.update id n c) ctx st)
  | LabelsRemove id => snd (mutation (EpLabels.remove id) ctx st)
  | LabelsAddToTask t l => snd (mutation (EpLabels.addToTask t l) ctx st)
  | LabelsRemoveFromTask t l =>
      snd (mutation (EpLabels.removeFromTask t l) ctx st)
  | CommentsCreate t c ty => snd (mutation (EpComments.create t c ty) ctx st)
  | CommentsRemove id => snd (mutation (EpComments.remove id) ctx st)
  | PreferencesUpdate args => snd (mutation (EpPreferences.update args) ctx st)
  | AiCreateThread t => snd (mutation (EpAi.createThread t) ctx st)
  | AiSendMessage t c => snd (mutation (EpAi.sendMessage t c) ctx st)
  | AiUpdateThread t ti s => snd (mutation (EpAi.updateThread t ti s) ctx st)
  | AiDeleteThread t => snd (mutation (EpAi.deleteThread t) ctx st)
  end.

Definition emptyStore (l : rl_state) : Store :=
  mkStore [] [] [] [] [] [] [] [] 0 l.

(** The stores the application can be in: the empty deployment and
    whatever a sequence of mutation calls leaves. *)
Inductive reachable : Store -> Prop :=
  | reach_empty l : reachable (emptyStore l)
  | reach_step ctx r st : reachable st -> reachable (step ctx r st).
End Transitions.

(** ** A token-bucket limiter, for running the endpoints *)

Module TokenBucket.
(** [value] counts tokens in units of [1/period] of a token, so that the
    refill of [rate] tokens per [period] milliseconds stays integral. *)
Record Bucket := mkBucket { value : Z; ts : Z }.

Definition State := list (Limit.Name * UserId * Bucket).

Definition same (name : Limit.Name) (key : UserId)
    (e : Limit.Name * UserId * Bucket) : bool :=
  Limit.name_eqb (fst (fst e)) name && str_eqb (snd (fst e)) key.

Definition ceilDiv (a b : Z) : Z := ((a + b - 1) / b)%Z.

(** Modelled from the spec: the limiter component itself
    (@convex-dev/rate-limiter) is not part of the repository. A bucket
    holds at most [capacity] tokens, refills at [rate] tokens per
    [period], and a call consumes one token or is refused, with the time
    until a token is available, when there is none. *)
Definition limit (name : Limit.Name) (key : UserId) (now : Z) (st : State)
  : Limit.Status * State :=
  let cfg := Limit.config name in
  let full := (Limit.capacity cfg * Limit.period cfg)%Z in
  let b := match find (same name key) st with
           | Some e => snd e
           | None => mkBucket full now
           end in
  let v := Z.min full (value b + (now - ts b) * Limit.rate cfg)%Z in
  if (Limit.period cfg <=? v)%Z
  then (Limit.Ok,
        (name, key, mkBucket (v - Limit.period cfg) now)
          :: filter (fun e => negb (same name key e)) st)
  else (Limit.Retry (ceilDiv (Limit.period cfg - v) (Limit.rate cfg)), st).

(** A bucket that has just been emptied. *)
Definition drained (name : Limit.Name) (key : UserId) (now : Z)
  : Limit.Name * UserId * Bucket :=
  (name, key, mkBucket 0 now).
End TokenBucket.

#[export] Instance tokenBucket : RateLimiter :=
  {| rl_state := TokenBucket.State; rl_limit := TokenBucket.limit |}.

(** * Vocabulary of the properties *)

(** A string that does not start with white space. *)
Definition headOK (s : jsstring) : Prop :=
  match s with
  | c :: _ => isWhiteSpace c = false
  | [] => True
  end.

(** Whenever the handler returns, it leaves the invariant standing. *)
Definition preserves {RL : RateLimiter} (Inv : Store -> Prop) {A} (m : M A)
  : Prop :=
  forall ctx st a st', Inv st -> m ctx st = Return (a, st') -> Inv st'.

(** Document ids are unique and below the allocator. *)
Definition ids_ok {R} (idof : R -> Id) (l : list R) (n : Id) : Prop :=
  NoDup (map idof l) /\ Forall (fun r => idof r < n) l.

Definition wf {RL : RateLimiter} (st : Store) : Prop :=
  ids_ok t_id (tasks st) (nextId st)
  /\ ids_ok l_id (labels st) (nextId st)
  /\ ids_ok tl_id (taskLabels st) (nextId st)
  /\ ids_ok th_id (threads st) (nextId st)
  /\ ids_ok m_id (messages st) (nextId st)
  /\ ids_ok p_id (userPreferences st) (nextId st)
  /\ ids_ok a_id (taskActivity st) (nextId st)
  /\ ids_ok c_id (taskComments st) (nextId st).

Definition completedAt_iff (t : Task) : Prop :=
  t_completedAt t <> None <-> t_status t = completed.

(** A patch that leaves [status] and [completedAt] alone, or sets both in
    agreement. *)
Definition patch_agrees (p : Tasks.Patch) : Prop :=
  (Tasks.up_status p = None /\ Tasks.up_completedAt p = None)
  \/ (exists s c, Tasks.up_status p = Some s
                  /\ Tasks.up_completedAt p = Some c
                  /\ (c <> None <-> s = completed)).

Definition completedAt_inv {RL : RateLimiter} (st : Store) : Prop :=
  Forall completedAt_iff (tasks st).

(** The status, respectively the priority, the call supplies differs from
    the task's. *)
Definition status_changes (task : Task) (args : EpTasks.UpdateArgs) : bool :=
  match EpTasks.status args with
  | Some s => negb (status_eqb s (t_status task))
  | None => false
  end.

Definition priority_changes (task : Task) (args : EpTasks.UpdateArgs) : bool :=
  match EpTasks.priority args with
  | Some p => negb (priority_eqb p (t_priority task))
  | None => false
  end.

(** The actions one call logs, in order, as the handler's guards have it:
    the generic record goes with the calls that supply neither a status nor
    a priority. *)
Definition logged_actions (task : Task) (args : EpTasks.UpdateArgs)
  : list Action :=
  (if status_changes task args then [status_changed] else [])
  ++ (if priority_changes task args then [priority_changed] else [])
  ++ (if isNone (EpTasks.status args) && isNone (EpTasks.priority args)
      then [updated] else []).

(** The actions one call is to log by the handler's comment, "Log general
    update activity (if not status or priority change)": the generic
    record goes with the calls that change neither status nor priority. *)
Definition actions_if_generic_otherwise (task : Task)
    (args : EpTasks.UpdateArgs) : list Action :=
  (if status_changes task args then [status_changed] else [])
  ++ (if priority_changes task args then [priority_changed] else [])
  ++ (if negb (status_changes task args)
         && negb (priority_changes task args)
      then [updated] else []).

(** A task with nothing but [updatedAt] refreshed. *)
Definition touch (now : Z) (t : Task) : Task :=
  mkTask (t_id t) (t_userId t) (t_title t) (t_description t) (t_status t)
    (t_priority t) (t_dueDate t) (t_completedAt t) (t_order t)
    (t_createdAt t) now.

(** Everything in the store but the limiter's own state. *)
Definition data {RL : RateLimiter} (st : Store) :=
  (tasks st, labels st, taskLabels st, threads st, messages st,
   userPreferences st, taskActivity st, taskComments st, nextId st).

Definition label_key (l : Label) : UserId * jsstring :=
  (l_userId l, l_name l).

(** No user owns two labels of the same name. *)
Definition unique_names {RL : RateLimiter} (st : Store) : Prop :=
  NoDup (map label_key (labels st)).

Definition ascending {R} (key : R -> Z) : list R -> Prop :=
  StronglySorted (fun a b => (key a <= key b)%Z).

Definition descending {R} (key : R -> Z) : list R -> Prop :=
  StronglySorted (fun a b => (key b <= key a)%Z).

(** The caller's records, most recent first: what the index
    [by_user_and_created] yields in descending order. *)
Definition recentFirst {RL : RateLimiter} (st : Store) (u : UserId)
  : list Activity :=
  rev (sortByKey a_createdAt
         (filter (fun a => str_eqb (a_userId a) u) (taskActivity st))).

(** The limit a mutation consults, as its handler names it. *)
Definition limit_of (r : Request) : option Limit.Name :=
  match r with
  | TasksCreate _ _ _ _ => Some Limit.createTask
  | TasksUpdate _ => Some Limit.updateTask
  | TasksReorder _ _ => Some Limit.updateTask
  | TasksRemove _ => Some Limit.deleteTask
  | LabelsCreate _ _ => Some Limit.createLabel
  | LabelsUpdate _ _ _ => Some Limit.updateLabel
  | LabelsRemove _ => Some Limit.deleteLabel
  | LabelsAddToTask _ _ => Some Limit.addLabelToTask
  | LabelsRemoveFromTask _ _ => Some Limit.removeLabelFromTask
  | CommentsCreate _ _ _ => Some Limit.createComment
  | CommentsRemove _ => Some Limit.deleteComment
  | PreferencesUpdate _ => Some Limit.updatePreferences
  | AiCreateThread _ => Some Limit.createThread
  | AiSendMessage _ _ => Some Limit.sendMessage
  | AiUpdateThread _ _ _ => None
  | AiDeleteThread _ => Some Limit.deleteThread
  end.

Definition error_of {A} (r : Result A) : option Err :=
  match r with Return _ => None | Throw e => Some e end.

(** The error a mutation answers with, if any. *)
Definition failure {RL : RateLimiter} (ctx : Ctx) (r : Request) (st : Store)
  : option Err :=
  match r with
  | TasksCreate t d p due =>
      error_of (fst (mutation (EpTasks.create t d p due) ctx st))
  | TasksUpdate args => error_of (fst (mutation (EpTasks.update args) ctx st))
  | TasksReorder id o => error_of (fst (mutation (EpTasks.reorder id o) ctx st))
  | TasksRemove id => error_of (fst (mutation (EpTasks.remove id) ctx st))
  | LabelsCreate n c => error_of (fst (mutation (EpLabels.create n c) ctx st))
  | LabelsUpdate id n c =>
      error_of (fst (mutation (EpLabels.update id n c) ctx st))
  | LabelsRemove id => error_of (fst (mutation (EpLabels.remove id) ctx st))
  | LabelsAddToTask t l =>
      error_of (fst (mutation (EpLabels.addToTask t l) ctx st))
  | LabelsRemoveFromTask t l =>
      error_of (fst (mutation (EpLabels.removeFromTask t l) ctx st))
  | CommentsCreate t c ty =>
      error_of (fst (mutation (EpComments.create t c ty) ctx st))
  | CommentsRemove id => error_of (fst (mutation (EpComments.remove id) ctx st))
  | PreferencesUpdate args =>
      error_of (fst (mutation (EpPreferences.update args) ctx st))
  | AiCreateThread t => error_of (fst (mutation (EpAi.createThread t) ctx st))
  | AiSendMessage t c =>
      error_of (fst (mutation (EpAi.sendMessage t c) ctx st))
  | AiUpdateThread t ti s =>
      error_of (fst (mutation (EpAi.updateThread t ti s) ctx st))
  | AiDeleteThread t => error_of (fst (mutation (EpAi.deleteThread t) ctx st))
  end.

(** One step of a cascade: delete a document of the table. *)
Definition deleteDoc {RL : RateLimiter} {R} (T : Table R) (r : R) : M unit :=
  db_delete T (doc_id T r).

(** ** Vocabulary of the further properties *)

Definition pair_key (tl : TaskLabel) : Id * Id :=
  (tl_taskId tl, tl_labelId tl).

(** No label is attached twice to the same task. *)
Definition unique_pairs {RL : RateLimiter} (st : Store) : Prop :=
  NoDup (map pair_key (taskLabels st)).

(** The document [c] names, by [key], a document of [parents] that has the
    same owner. *)
Definition refers {C P} (key : C -> Id) (cowner : C -> UserId)
    (pid : P -> Id) (powner : P -> UserId) (parents : list P) (c : C)
  : Prop :=
  exists p, In p parents /\ pid p = key c /\ powner p = cowner c.

(** Every comment is on a stored task of its author. *)
Definition comments_refer {RL : RateLimiter} (st : Store) : Prop :=
  Forall (refers c_taskId c_userId t_id t_userId (tasks st))
    (taskComments st).

(** Every association joins a stored task and a stored label of its
    owner. *)
Definition associations_refer {RL : RateLimiter} (st : Store) : Prop :=
  Forall (refers tl_taskId tl_userId t_id t_userId (tasks st))
    (taskLabels st)
  /\ Forall (refers tl_labelId tl_userId l_id l_userId (labels st))
       (taskLabels st).

(** Every message is in a stored thread of its author. *)
Definition messages_refer {RL : RateLimiter} (st : Store) : Prop :=
  Forall (refers m_threadId m_userId th_id th_userId (threads st))
    (messages st).

Definition integrity {RL : RateLimiter} (st : Store) : Prop :=
  comments_refer st /\ associations_refer st /\ messages_refer st.

(** The caller's tasks in status [todo], as [getMaxOrderForStatus] reads
    them. *)
Definition todoTasks {RL : RateLimiter} (st : Store) (u : UserId)
  : list Task :=
  filter (fun t => str_eqb (t_userId t) u && status_eqb (t_status t) todo)
    (tasks st).

(** The documents of a table that belong to a user. *)
Definition ownedBy {R} (owner : R -> UserId) (u : UserId) (l : list R)
  : list R :=
  filter (fun r => str_eqb (owner r) u) l.

Definition withStatus (s : TaskStatus) (l : list Task) : list Task :=
  filter (fun t => status_eqb (t_status t) s) l.

Definition count {A} (l : list A) : Z := Z.of_nat (length l).

(** No user has two preference documents. *)
Definition one_preferences {RL : RateLimiter} (st : Store) : Prop :=
  NoDup (map p_userId (userPreferences st)).

(** The six settings an answer of [preferences.get] shows. *)
Definition settingsOf (r : Preferences + EpPreferences.Settings)
  : EpPreferences.Settings :=
  match r with
  | inl p =>
      EpPreferences.mkSettings (p_theme p) (p_defaultView p) (p_sortBy p)
        (p_sortOrder p) (p_showCompleted p) (p_enableAI p)
  | inr s => s
  end.

(** The settings with the supplied fields of a call put over them. *)
Definition override (args : UserPreferences.Patch)
    (s : EpPreferences.Settings) : EpPreferences.Settings :=
  EpPreferences.mkSettings
    (Tasks.orElse (UserPreferences.up_theme args) (EpPreferences.theme s))
    (Tasks.orElse (UserPreferences.up_defaultView args)
       (EpPreferences.defaultView s))
    (Tasks.orElse (UserPreferences.up_sortBy args) (EpPreferences.sortBy s))
    (Tasks.orElse (UserPreferences.up_sortOrder args)
       (EpPreferences.sortOrder s))
    (Tasks.orElse (UserPreferences.up_showCompleted args)
       (EpPreferences.showCompleted s))
    (Tasks.orElse (UserPreferences.up_enableAI args)
       (EpPreferences.enableAI s)).

(** ** Concrete runs, on the token-bucket limiter *)

Import Stdlib.Strings.String.StringSyntax.
Delimit Scope string_scope with string.
Arguments str s%_string.

Definition alice : UserId := str "alice".
Definition bob : UserId := str "bob".

Definition as_user (u : UserId) (time : Z) : Ctx := mkCtx (Some u) time.

(** An empty deployment, then alice creates a task, comments on it, creates
    a label, attaches it, and opens a thread. *)
Definition s0 : Store := emptyStore (RL := tokenBucket) [].
Definition s1 : Store :=
  step (as_user alice 1000)
    (TasksCreate (str " hello ") None low None) s0.
Definition s2 : Store :=
  step (as_user alice 2000) (CommentsCreate 0 (str "note") None) s1.
Definition s3 : Store :=
  step (as_user alice 3000)
    (LabelsCreate (str "work") (str "#6366f1")) s2.
Definition s4 : Store := step (as_user alice 4000) (LabelsAddToTask 0 3) s3.
Definition s5 : Store :=
  step (as_user alice 5000) (AiCreateThread (Some (str "plan"))) s4.

(** The task of [s1] .. [s5]. *)
Definition task0 : Task :=
  mkTask 0 alice (str "hello") None todo low None None 1 1000 1000.

(** From [s1], alice completes the task, then reopens it. *)
Definition s1_completed : Store :=
  step (as_user alice 2000)
    (TasksUpdate (EpTasks.mkUpdateArgs 0 None None (Some completed) None None))
    s1.
Definition s1_reopened : Store :=
  step (as_user alice 3000)
    (TasksUpdate (EpTasks.mkUpdateArgs 0 None None (Some todo) None None))
    s1_completed.

(** Eleven tasks created ten seconds apart: eleven activity records. *)
Definition s11 : Store :=
  fold_left
    (fun st i =>
       step (as_user alice (10000 * Z.of_nat i))
         (TasksCreate (str "task") None medium None) st)
    (seq 0 11) s0.

Definition allLimits : list Limit.Name :=
  [Limit.createTask; Limit.updateTask; Limit.deleteTask; Limit.createLabel;
   Limit.updateLabel; Limit.deleteLabel; Limit.addLabelToTask;
   Limit.removeLabelFromTask; Limit.createComment; Limit.deleteComment;
   Limit.updatePreferences; Limit.createThread; Limit.sendMessage;
   Limit.deleteThread].

(** [s5] at time 9000, every bucket of alice just emptied. *)
Definition s5_drained : Store :=
  set_limiter (map (fun n => TokenBucket.drained n alice 9000) allLimits) s5.

(** The label and the thread of [s5], its association and its comment. *)
Definition label3 : Label :=
  mkLabel 3 alice (str "work") (str "#6366f1") 3000.
Definition thread5 : Thread :=
  mkThread 5 alice (Some (str "plan")) active 5000 5000.
Definition association4 : TaskLabel := mkTaskLabel 4 0 3 alice 4000.
Definition comment2 : Comment :=
  mkComment 2 0 alice (str "note") user_note 2000.

(** From [s5], alice writes in her thread, then chooses the dark theme. *)
Definition s6 : Store :=
  step (as_user alice 6000) (AiSendMessage 5 (str "hi")) s5.
Definition message6 : Message :=
  mkMessage 6 5 alice user (str "hi") 6000.
Definition darkTheme : UserPreferences.Patch :=
  UserPreferences.mkPatch (Some dark) None None None None None.
Definition s7 : Store :=
  step (as_user alice 7000) (PreferencesUpdate darkTheme) s6.

(** A caller without a session. *)
Definition nobody : Ctx := mkCtx None 1000.

(** From [s7], alice switches to the board and bob chooses the dark theme:
    three updates, two users. *)
Definition boardView : UserPreferences.Patch :=
  UserPreferences.mkPatch None (Some view_board) None None None None.
Definition s8 : Store :=
  step (as_user alice 8000) (PreferencesUpdate boardView) s7.
Definition s9 : Store :=
  step (as_user bob 9000) (PreferencesUpdate darkTheme) s8.
Definition preferences_alice : Preferences :=
  mkPreferences 7 alice dark view_board sort_created desc true true 7000
    8000.
Definition preferences_bob : Preferences :=
  mkPreferences 8 bob dark view_list sort_created desc true true 9000 9000.

(** From [s1], alice moves her task to the order [2 ^ 53]. *)
Definition s1_moved : Store :=
  step (as_user alice 2000) (TasksReorder 0 (2 ^ 53)) s1.
Definition task0_moved : Task :=
  mkTask 0 alice (str "hello") None todo low None None (2 ^ 53) 1000 2000.

(** An update of the task of [s1] that renames it and supplies its current
    status, and the same update without the status. *)
Definition renameWithStatus : EpTasks.UpdateArgs :=
  EpTasks.mkUpdateArgs 0 (Some (str "renamed")) None (Some todo) None None.
Definition renameOnly : EpTasks.UpdateArgs :=
  EpTasks.mkUpdateArgs 0 (Some (str "renamed")) None None None None.

(** * Properties *)

Unset Implicit Arguments.

(** ** Strings *)

Lemma str_eqb_refl (a : jsstring) : str_eqb a a = true.
Proof.
  induction a as [|x a IH]; simpl; [reflexivity|].
  now rewrite N.eqb_refl, IH.
Qed.

Lemma str_eqb_eq (a b : jsstring) : str_eqb a b = true <-> a = b.
Proof.
  split.
  - revert b; induction a as [|x a IH]; intros [|y b]; simpl; try easy.
    intros H. apply andb_true_iff in H as [Hx Hab].
    apply N.eqb_eq in Hx. apply IH in Hab. now subst.
  - intros ->. apply str_eqb_refl.
Qed.

Lemma str_eqb_neq (a b : jsstring) : str_eqb a b = false <-> a <> b.
Proof.
  split.
  - intros H Heq. apply str_eqb_eq in Heq. congruence.
  - intros H. destruct (str_eqb a b) eqn:E; [|reflexivity].
    apply str_eqb_eq in E. contradiction.
Qed.

Lemma trimStart_headOK (s : jsstring) : headOK (trimStart s).
Proof.
  induction s as [|c s IH]; simpl; [exact I|].
  destruct (isWhiteSpace c) eqn:E; [exact IH|exact E].
Qed.

Lemma trimStart_fixed (s : jsstring) : headOK s -> trimStart s = s.
Proof.
  destruct s as [|c s]; simpl; [reflexivity|]. now intros ->.
Qed.

Lemma trimStart_suffix (s : jsstring) :
  exists ws, s = ws ++ trimStart s.
Proof.
  induction s as [|c s [ws IH]]; simpl.
  - now exists [].
  - destruct (isWhiteSpace c).
    + exists (c :: ws). simpl. now f_equal.
    + now exists [].
Qed.

Lemma trimEnd_prefix (s : jsstring) : exists ws, s = trimEnd s ++ ws.
Proof.
  unfold trimEnd. destruct (trimStart_suffix (rev s)) as [ws H].
  exists (rev ws). rewrite <- rev_app_distr, <- H. now rewrite rev_involutive.
Qed.

Lemma trimEnd_headOK (s : jsstring) : headOK s -> headOK (trimEnd s).
Proof.
  intros H. destruct (trimEnd_prefix s) as [ws E].
  destruct (trimEnd s) as [|c r]; [exact I|].
  rewrite E in H. exact H.
Qed.

Lemma trimEnd_idem (s : jsstring) : trimEnd (trimEnd s) = trimEnd s.
Proof.
  unfold trimEnd. rewrite rev_involutive.
  now rewrite (trimStart_fixed _ (trimStart_headOK (rev s))).
Qed.

(** Sanitizing twice is sanitizing once: the validators, which trim again,
    measure the sanitized string itself. *)
Lemma trim_idem (s : jsstring) : trim (trim s) = trim s.
Proof.
  unfold trim.
  rewrite (trimStart_fixed _ (trimEnd_headOK _ (trimStart_headOK s))).
  apply trimEnd_idem.
Qed.

Lemma isValidTaskTitle_spec (title : jsstring) :
  isValidTaskTitle (sanitizeString title) = true
  <-> (1 <= jslength (trim title) <= 200)%Z.
Proof.
  unfold isValidTaskTitle, sanitizeString. rewrite trim_idem.
  rewrite andb_true_iff, Z.ltb_lt, Z.leb_le. lia.
Qed.

Lemma status_eqb_eq (a b : TaskStatus) : status_eqb a b = true <-> a = b.
Proof. destruct a, b; simpl; split; congruence. Qed.

Lemma priority_eqb_eq (a b : Priority) : priority_eqb a b = true <-> a = b.
Proof. destruct a, b; simpl; split; congruence. Qed.

Lemma status_eqb_refl (s : TaskStatus) : status_eqb s s = true.
Proof. now destruct s. Qed.

Lemma find_existsb {A} (p : A -> bool) (l : list A) (x : A) :
  find p l = Some x -> existsb p l = true.
Proof.
  intros H. apply find_some in H. apply existsb_exists. now exists x.
Qed.

(** ** Handlers that keep an invariant *)

Section Preservation.
Context {RL : RateLimiter}.
Variable Inv : Store -> Prop.

Lemma preserves_ret {A} (a : A) : preserves Inv (ret a).
Proof. intros ctx st b st' H E. inversion E; now subst. Qed.

Lemma preserves_throw {A} (e : Err) : preserves Inv (@throw _ A e).
Proof. intros ctx st b st' H E. discriminate E. Qed.

Lemma preserves_bind {A B} (m : M A) (k : A -> M B) :
  preserves Inv m -> (forall a, preserves Inv (k a)) ->
  preserves Inv (bind m k).
Proof.
  intros Hm Hk ctx st b st' H E. unfold bind in E.
  destruct (m ctx st) as [[a st1]|e] eqn:Em; [|discriminate].
  eapply Hk; [|exact E]. eapply Hm; eauto.
Qed.

Lemma preserves_getAuthUser : preserves Inv getAuthUser.
Proof. intros ctx st b st' H E. inversion E; now subst. Qed.

Lemma preserves_Date_now : preserves Inv Date_now.
Proof. intros ctx st b st' H E. inversion E; now subst. Qed.

Lemma preserves_limit name key :
  (forall l st, Inv st -> Inv (set_limiter l st)) ->
  preserves Inv (limit name key).
Proof.
  intros Hl ctx st b st' H E. unfold limit in E.
  destruct (rl_limit name key (now ctx) (limiter st)) as [s l'].
  inversion E; subst. now apply Hl.
Qed.

Lemma preserves_db_get {R} (T : Table R) id : preserves Inv (db_get T id).
Proof. intros ctx st b st' H E. inversion E; now subst. Qed.

Lemma preserves_db_collect {R} (T : Table R) p :
  preserves Inv (db_collect T p).
Proof. intros ctx st b st' H E. inversion E; now subst. Qed.

Lemma preserves_db_insert {R} (T : Table R) doc :
  (forall st, Inv st ->
     Inv (set_nextId (S (nextId st))
            (set_rows T (rows T st ++ [doc (nextId st)]) st))) ->
  preserves Inv (db_insert T doc).
Proof. intros Hi ctx st b st' H E. inversion E; subst. now apply Hi. Qed.

Lemma preserves_db_patch {R} (T : Table R) id fields :
  (forall st, Inv st ->
     Inv (set_rows T
            (map (fun r => if has_id T id r then fields r else r)
               (rows T st)) st)) ->
  preserves Inv (db_patch T id fields).
Proof.
  intros Hp ctx st b st' H E. unfold db_patch in E.
  destruct (existsb (has_id T id) (rows T st)); [|discriminate].
  inversion E; subst. now apply Hp.
Qed.

Lemma preserves_db_delete {R} (T : Table R) id :
  (forall st, Inv st ->
     Inv (set_rows T (filter (fun r => negb (has_id T id r)) (rows T st))
            st)) ->
  preserves Inv (db_delete T id).
Proof.
  intros Hd ctx st b st' H E. unfold db_delete in E.
  destruct (existsb (has_id T id) (rows T st)); [|discriminate].
  inversion E; subst. now apply Hd.
Qed.

Lemma preserves_forEach {A} (f : A -> M unit) (l : list A) :
  (forall x, preserves Inv (f x)) -> preserves Inv (forEach f l).
Proof.
  intros Hf. induction l as [|x l IH]; simpl.
  - apply preserves_ret.
  - apply preserves_bind; [apply Hf|intros _; exact IH].
Qed.

Lemma preserves_fetchAll {A} (get : Id -> M (option A)) (ids : list Id) :
  (forall i, preserves Inv (get i)) ->
  preserves Inv (EpLabels.fetchAll get ids).
Proof.
  intros Hg. induction ids as [|i ids IH]; simpl.
  - apply preserves_ret.
  - apply preserves_bind; [apply Hg|intros x].
    apply preserves_bind; [exact IH|intros xs]. apply preserves_ret.
Qed.

Lemma preserves_mutation {A} (m : M A) ctx st :
  preserves Inv m -> Inv st -> Inv (snd (mutation m ctx st)).
Proof.
  intros Hm H. unfold mutation.
  destruct (m ctx st) as [[a st']|e] eqn:E; simpl; [|exact H].
  eapply Hm; eauto.
Qed.
End Preservation.

(** Walks a handler, leaving the obligations of its writes to [side]. *)
Ltac unfold_layers :=
  unfold
    requireAuth, rateLimit,
    Tasks.createTask, Tasks.getTaskById, Tasks.updateTask, Tasks.deleteTask,
    Tasks.getMaxOrderForStatus, Tasks.getTasksByUser,
    TaskLabels.createTaskLabel, TaskLabels.taskLabelExists,
    TaskLabels.deleteTaskLabel, TaskLabels.deleteAllLabelsFromTask,
    TaskLabels.deleteAllTasksFromLabel, TaskLabels.getLabelsForTask,
    TaskLabels.getTasksForLabel,
    TaskComments.createTaskComment, TaskComments.deleteTaskComment,
    TaskComments.deleteAllCommentsFromTask, TaskComments.getCommentsByTask,
    TaskActivity.createTaskActivity, TaskActivity.getActivityByTask,
    TaskActivity.getActivityByUser, TaskActivity.getRecentActivityByUser,
    TaskActivity.take,
    Labels.createLabel, Labels.getLabelById, Labels.getLabelByUserAndName,
    Labels.updateLabel, Labels.deleteLabel,
    Threads.createThread, Threads.getThreadById, Threads.updateThread,
    Threads.deleteThread,
    Messages.createMessage, Messages.getMessagesByThread,
    Messages.deleteAllMessagesInThread,
    UserPreferences.getOrCreateUserPreferences,
    UserPreferences.getUserPreferencesByUser,
    UserPreferences.createUserPreferences,
    UserPreferences.updateUserPreferences.

Ltac walk side :=
  repeat first
    [ apply preserves_ret
    | apply preserves_throw
    | apply preserves_getAuthUser
    | apply preserves_Date_now
    | apply preserves_db_get
    | apply preserves_db_collect
    | apply preserves_bind; [|intros ?]
    | apply preserves_forEach; intros ?
    | apply preserves_fetchAll; intros ?
    | apply preserves_limit; side
    | apply preserves_db_insert; side
    | apply preserves_db_patch; side
    | apply preserves_db_delete; side
    | match goal with
      | |- preserves _ (match ?x with _ => _ end) => destruct x
      end
    | progress cbv zeta
    | progress unfold_layers ].

(** ** Document ids are unique and below the allocator *)

Section Ids.
Context {R : Type}.
Variable idof : R -> Id.

Lemma ids_ok_nil n : ids_ok idof [] n.
Proof. split; constructor. Qed.

Lemma ids_ok_S l n : ids_ok idof l n -> ids_ok idof l (S n).
Proof.
  intros [Hnd Hlt]. split; [exact Hnd|].
  eapply Forall_impl; [|exact Hlt]. simpl. intros; lia.
Qed.

Lemma NoDup_map_filter (p : R -> bool) l :
  NoDup (map idof l) -> NoDup (map idof (filter p l)).
Proof.
  induction l as [|x l IH]; simpl; intros H; [constructor|].
  inversion H as [|? ? Hnin Hnd]; subst.
  destruct (p x); simpl; [|now apply IH].
  constructor; [|now apply IH].
  intros Hin. apply Hnin. apply in_map_iff in Hin as [y [Ey Hy]].
  apply filter_In in Hy as [Hy _]. apply in_map_iff. now exists y.
Qed.

Lemma ids_ok_filter (p : R -> bool) l n :
  ids_ok idof l n -> ids_ok idof (filter p l) n.
Proof.
  intros [Hnd Hlt]. split; [now apply NoDup_map_filter|].
  apply Forall_forall. intros x Hx. apply filter_In in Hx as [Hx _].
  rewrite Forall_forall in Hlt. now apply Hlt.
Qed.

Lemma ids_ok_patch (c : R -> bool) (f : R -> R) l n :
  (forall r, idof (f r) = idof r) ->
  ids_ok idof l n -> ids_ok idof (map (fun r => if c r then f r else r) l) n.
Proof.
  intros Hf [Hnd Hlt].
  assert (E : forall r, idof (if c r then f r else r) = idof r)
    by (intros r; destruct (c r); [apply Hf|reflexivity]).
  split.
  - rewrite map_map. erewrite map_ext; [exact Hnd|exact E].
  - apply Forall_forall. intros y Hy.
    apply in_map_iff in Hy as [x [<- Hx]]. rewrite E.
    rewrite Forall_forall in Hlt. now apply Hlt.
Qed.

Lemma ids_ok_snoc l n r :
  idof r = n -> ids_ok idof l n -> ids_ok idof (l ++ [r]) (S n).
Proof.
  intros Hr [Hnd Hlt]. split.
  - rewrite map_app. simpl. apply NoDup_app_remove_l with (l := []).
    simpl. apply Permutation_NoDup with (l := idof r :: map idof l).
    + apply Permutation_cons_append.
    + constructor; [|exact Hnd].
      intros Hin. apply in_map_iff in Hin as [y [Ey Hy]].
      rewrite Forall_forall in Hlt. specialize (Hlt y Hy). lia.
  - apply Forall_app. split.
    + eapply Forall_impl; [|exact Hlt]. simpl. intros; lia.
    + constructor; [lia|constructor].
Qed.
End Ids.

Ltac wf_side :=
  let H := fresh "H" in
  intros ? H; unfold wf in *; simpl in *;
  repeat match goal with
         | H : _ /\ _ |- _ => destruct H
         end;
  repeat match goal with
         | |- _ /\ _ => split
         end;
  first
    [ assumption
    | apply ids_ok_filter; assumption
    | apply ids_ok_patch; [intros ?; reflexivity|assumption]
    | apply ids_ok_snoc; [reflexivity|assumption]
    | apply ids_ok_S; assumption ].

Section WellFormedReachable.
Context {RL : RateLimiter}.

Lemma wf_limiter (l : rl_state) (st : Store) :
  wf st -> wf (set_limiter l st).
Proof. intros H. exact H. Qed.

Lemma step_wf ctx r st : wf st -> wf (step ctx r st).
Proof.
  intros H. destruct r; simpl; apply preserves_mutation; try exact H.
  all: first
    [ unfold EpTasks.create | unfold EpTasks.update | unfold EpTasks.reorder
    | unfold EpTasks.remove | unfold EpLabels.create | unfold EpLabels.update
    | unfold EpLabels.remove | unfold EpLabels.addToTask
    | unfold EpLabels.removeFromTask | unfold EpComments.create
    | unfold EpComments.remove | unfold EpPreferences.update
    | unfold EpAi.createThread | unfold EpAi.sendMessage
    | unfold EpAi.updateThread | unfold EpAi.deleteThread ].
  all: walk ltac:(first [exact wf_limiter | wf_side]).
Qed.

Theorem reachable_wf st : reachable st -> wf st.
Proof.
  induction 1 as [l|ctx r st _ IH].
  - unfold wf, emptyStore; simpl. repeat split; constructor.
  - now apply step_wf.
Qed.
End WellFormedReachable.

(** ** Tasks: [completedAt] and [status] *)

Ltac unfold_monad :=
  unfold bind, ret, throw, getAuthUser, Date_now, limit, db_get, db_insert,
    db_patch, db_delete, db_collect.

Lemma applyPatch_completedAt (p : Tasks.Patch) (n : Z) (t : Task) :
  patch_agrees p -> completedAt_iff t ->
  completedAt_iff (Tasks.applyPatch p n t).
Proof.
  unfold completedAt_iff. intros [[Hs Hc]|[s [c [Hs [Hc Hsc]]]]] Ht;
    simpl; rewrite Hs, Hc; simpl; assumption.
Qed.

Lemma patch_agrees_change (t d : option jsstring) (p : option Priority)
    (due : option number) (o : option Z) (s : TaskStatus) (n : Z) :
  patch_agrees
    (Tasks.mkPatch t d (Some s) p due o
       (Some (if status_eqb s completed then Some n else None))).
Proof.
  right. exists s, (if status_eqb s completed then Some n else None).
  repeat split; destruct s; simpl; congruence.
Qed.

Lemma find_patched {R} (idof : R -> Id) (id : Id) (f : R -> R) (l : list R)
    (r : R) :
  (forall x, idof (f x) = idof x) ->
  find (fun x => idof x =? id) l = Some r ->
  find (fun x => idof x =? id)
    (map (fun x => if idof x =? id then f x else x) l) = Some (f r).
Proof.
  intros Hf. induction l as [|x l IH]; simpl; [discriminate|].
  destruct (idof x =? id) eqn:E.
  - intros H. inversion H; subst. now rewrite Hf, E.
  - rewrite E. exact IH.
Qed.

Section CompletedAt.
Context {RL : RateLimiter}.

Lemma completedAt_inv_patch (st : Store) id p n :
  patch_agrees p -> completedAt_inv st ->
  completedAt_inv
    (set_tasks
       (map (fun r => if has_id tasksT id r then Tasks.applyPatch p n r
                      else r) (tasks st)) st).
Proof.
  unfold completedAt_inv. simpl. intros Hp H.
  apply Forall_forall. intros y Hy.
  apply in_map_iff in Hy as [x [<- Hx]].
  rewrite Forall_forall in H. specialize (H x Hx).
  destruct (has_id tasksT id x); [now apply applyPatch_completedAt|exact H].
Qed.

Lemma completedAt_inv_delete (st : Store) (q : Task -> bool) :
  completedAt_inv st -> completedAt_inv (set_tasks (filter q (tasks st)) st).
Proof.
  unfold completedAt_inv. simpl. intros H.
  apply Forall_forall. intros x Hx. apply filter_In in Hx as [Hx _].
  rewrite Forall_forall in H. now apply H.
Qed.

Lemma completedAt_inv_insert (st : Store) (t : Task) :
  t_status t = todo -> t_completedAt t = None ->
  completedAt_inv st ->
  completedAt_inv (set_nextId (S (nextId st)) (set_tasks (tasks st ++ [t]) st)).
Proof.
  unfold completedAt_inv. simpl. intros Hs Hc H.
  apply Forall_app. split; [exact H|]. constructor; [|constructor].
  unfold completedAt_iff. rewrite Hs, Hc. split; [congruence|discriminate].
Qed.

(** [tasks.update] keeps the invariant: the only patch that touches
    [status] sets [completedAt] with it. *)
Lemma update_completedAt_inv ctx st args :
  completedAt_inv st ->
  completedAt_inv (snd (mutation (EpTasks.update args) ctx st)).
Proof.
  intros H.
  unfold mutation, EpTasks.update. unfold_layers. unfold_monad. simpl.
  destruct (auth ctx) as [u|]; [|exact H].
  destruct (rl_limit Limit.updateTask u (now ctx) (limiter st))
    as [[|ra] l']; [|exact H].
  simpl.
  destruct (find (has_id tasksT (EpTasks.id args)) (tasks st))
    as [task|] eqn:Hfind; [|exact H].
  pose proof (find_existsb _ _ _ Hfind) as Hex.
  destruct (negb (str_eqb (t_userId task) u)); [exact H|].
  destruct (truthyOpt (EpTasks.title args) && _); [exact H|].
  destruct (truthyOpt (EpTasks.description args) && _); [exact H|].
  destruct (EpTasks.status args) as [s|];
    [destruct (negb (status_eqb s (t_status task)))|];
    (destruct (EpTasks.priority args) as [p|];
     [destruct (negb (priority_eqb p (t_priority task)))|]);
    simpl; unfold has_id in *; simpl in *; rewrite ?Hex; simpl;
    first
      [ apply (completedAt_inv_patch st (EpTasks.id args));
        [apply patch_agrees_change|exact H]
      | apply (completedAt_inv_patch st (EpTasks.id args));
        [left; split; reflexivity|exact H] ].
Qed.

Lemma step_completedAt ctx r st :
  completedAt_inv st -> completedAt_inv (step ctx r st).
Proof.
  intros H. destruct r; simpl;
    try (apply update_completedAt_inv; exact H);
    apply preserves_mutation; try exact H.
  all: first
    [ unfold EpTasks.create | unfold EpTasks.reorder
    | unfold EpTasks.remove | unfold EpLabels.create | unfold EpLabels.update
    | unfold EpLabels.remove | unfold EpLabels.addToTask
    | unfold EpLabels.removeFromTask | unfold EpComments.create
    | unfold EpComments.remove | unfold EpPreferences.update
    | unfold EpAi.createThread | unfold EpAi.sendMessage
    | unfold EpAi.updateThread | unfold EpAi.deleteThread ].
  all: walk ltac:(first
    [ intros ? ? ?; assumption
    | intros ? ?; assumption
    | intros ? ?; apply completedAt_inv_insert;
      [reflexivity|reflexivity|assumption]
    | intros ? ?; apply completedAt_inv_delete; assumption
    | intros ? ?; apply completedAt_inv_patch;
      [left; split; reflexivity|assumption] ]).
Qed.

Lemma reachable_completedAt st : reachable st -> completedAt_inv st.
Proof.
  induction 1 as [l|ctx r st _ IH].
  - constructor.
  - now apply step_completedAt.
Qed.
End CompletedAt.

Lemma find_app_fresh {R} (idof : R -> Id) (l : list R) (n : Id) (r : R) :
  Forall (fun x => idof x < n) l -> idof r = n ->
  find (fun x => idof x =? n) (l ++ [r]) = Some r.
Proof.
  intros Hl Hr. induction l as [|x l IH]; simpl.
  - now rewrite Hr, Nat.eqb_refl.
  - inversion Hl as [|? ? Hx Hl']; subst.
    destruct (idof x =? idof r) eqn:E; [apply Nat.eqb_eq in E; lia|].
    now apply IH.
Qed.

Lemma returned {S A} (out : Result A * S) (r : A) :
  fst out = Return r -> out = (Return r, snd out).
Proof. destruct out as [x st]. simpl. now intros ->. Qed.

Section TaskBehaviour.
Context {RL : RateLimiter}.

(** What a successful [tasks.create] leaves in the task table. *)
Lemma create_returns ctx st title description priority dueDate r st' :
  mutation (EpTasks.create title description priority dueDate) ctx st
    = (Return r, st') ->
  exists u order,
    auth ctx = Some u /\ r = nextId st
    /\ tasks st' =
       tasks st ++ [mkTask (nextId st) u (sanitizeString title) description
                      todo priority dueDate None order (now ctx) (now ctx)].
Proof.
  unfold mutation, EpTasks.create. unfold_layers. unfold_monad. simpl.
  destruct (auth ctx) as [u|]; [|discriminate].
  destruct (rl_limit Limit.createTask u (now ctx) (limiter st))
    as [[|ra] l']; [|discriminate].
  simpl.
  destruct (negb (isValidTaskTitle (sanitizeString title))); [discriminate|].
  destruct (truthyOpt description && _); [discriminate|].
  destruct (map t_order _) as [|x xs]; simpl;
    intros E; inversion E; subst; simpl; eauto.
Qed.

(** What a successful [tasks.update] that changes the status leaves at the
    task. *)
Lemma update_status_change ctx st args r st' task s :
  mutation (EpTasks.update args) ctx st = (Return r, st') ->
  find (has_id tasksT (EpTasks.id args)) (tasks st) = Some task ->
  EpTasks.status args = Some s ->
  s <> t_status task ->
  exists t',
    find (has_id tasksT (EpTasks.id args)) (tasks st') = Some t'
    /\ t_status t' = s
    /\ t_completedAt t' =
       (if status_eqb s completed then Some (now ctx) else None).
Proof.
  intros E Hfind Hs Hne.
  pose proof (find_existsb _ _ _ Hfind) as Hex.
  assert (Hneb : negb (status_eqb s (t_status task)) = true).
  { destruct (status_eqb s (t_status task)) eqn:Es; [|reflexivity].
    apply status_eqb_eq in Es. contradiction. }
  revert E.
  unfold mutation, EpTasks.update. unfold_layers. unfold_monad. simpl.
  destruct (auth ctx) as [u|]; [|discriminate].
  destruct (rl_limit Limit.updateTask u (now ctx) (limiter st))
    as [[|ra] l']; [|discriminate].
  simpl. rewrite Hfind.
  destruct (negb (str_eqb (t_userId task) u)); [discriminate|].
  destruct (truthyOpt (EpTasks.title args) && _); [discriminate|].
  destruct (truthyOpt (EpTasks.description args) && _); [discriminate|].
  rewrite Hs, Hneb.
  destruct (EpTasks.priority args) as [p|];
    [destruct (negb (priority_eqb p (t_priority task)))|];
    simpl; unfold has_id in *; simpl in *; rewrite ?Hex; simpl;
    intros E; inversion E; subst; clear E; simpl;
    (eexists; split;
     [apply (find_patched t_id); [intros x; reflexivity|exact Hfind]|]);
    split; reflexivity.
Qed.

(** [tasks.reorder] touches [order] and [updatedAt] only. *)
Lemma reorder_keeps ctx st id newOrder r st' :
  mutation (EpTasks.reorder id newOrder) ctx st = (Return r, st') ->
  map (fun t => (t_id t, t_status t, t_completedAt t)) (tasks st')
  = map (fun t => (t_id t, t_status t, t_completedAt t)) (tasks st).
Proof.
  unfold mutation, EpTasks.reorder. unfold_layers. unfold_monad. simpl.
  destruct (auth ctx) as [u|]; [|discriminate].
  destruct (rl_limit Limit.updateTask u (now ctx) (limiter st))
    as [[|ra] l']; [|discriminate].
  simpl.
  destruct (find (has_id tasksT id) (tasks st)) as [task|]; [|discriminate].
  destruct (negb (str_eqb (t_userId task) u)); [discriminate|].
  simpl. destruct (existsb (has_id tasksT id) (tasks st)); [|discriminate].
  intros E; inversion E; subst; clear E; simpl.
  rewrite map_map. apply map_ext. intros t.
  destruct (has_id tasksT _ t); reflexivity.
Qed.

(** C3. In every store the application can reach, a task has [completedAt]
    set if and only if its status is [completed]. From such a store:
    [tasks.create] produces a task in status [todo] without [completedAt];
    a [tasks.update] that changes the status sets [completedAt] (to the time
    of the call) when the new status is [completed] and unsets it otherwise,
    so that completing and then reopening a task leaves it unset;
    [tasks.reorder] leaves status and [completedAt] of every task as they
    were. *)
Theorem completedAt_set_iff_completed (st : Store) :
  reachable st ->
  completedAt_inv st
  /\ (forall ctx title description priority dueDate r,
        let out :=
          mutation (EpTasks.create title description priority dueDate) ctx
            st in
        fst out = Return r ->
        exists t, find (has_id tasksT r) (tasks (snd out)) = Some t
                  /\ t_status t = todo /\ t_completedAt t = None)
  /\ (forall ctx args r task s,
        let out := mutation (EpTasks.update args) ctx st in
        fst out = Return r ->
        find (has_id tasksT (EpTasks.id args)) (tasks st) = Some task ->
        EpTasks.status args = Some s ->
        s <> t_status task ->
        exists t',
          find (has_id tasksT (EpTasks.id args)) (tasks (snd out)) = Some t'
          /\ t_status t' = s
          /\ t_completedAt t' =
             (if status_eqb s completed then Some (now ctx) else None))
  /\ (forall ctx id newOrder r,
        let out := mutation (EpTasks.reorder id newOrder) ctx st in
        fst out = Return r ->
        map (fun t => (t_id t, t_status t, t_completedAt t))
          (tasks (snd out))
        = map (fun t => (t_id t, t_status t, t_completedAt t)) (tasks st)).
Proof.
  intros Hreach. split; [now apply reachable_completedAt|].
  split; [|split].
  - intros ctx title description priority dueDate r out E.
    apply returned in E.
    apply create_returns in E as [u [order [_ [-> Et]]]].
    apply reachable_wf in Hreach. destruct Hreach as [[_ Hlt] _].
    eexists. rewrite Et. split.
    + apply (find_app_fresh t_id); [exact Hlt|reflexivity].
    + split; reflexivity.
  - intros ctx args r task s out E. apply returned in E.
    now apply (update_status_change ctx st args r (snd out) task s).
  - intros ctx id newOrder r out E. apply returned in E.
    now apply (reorder_keeps ctx st id newOrder r (snd out)).
Qed.
End TaskBehaviour.

(** ** [tasks.update]: the activity log *)

Section UpdateLog.
Context {RL : RateLimiter}.

(** The records a successful [tasks.update] appends to the activity log. *)
Lemma update_log_appended ctx st args r st' task :
  mutation (EpTasks.update args) ctx st = (Return r, st') ->
  find (has_id tasksT (EpTasks.id args)) (tasks st) = Some task ->
  exists new,
    taskActivity st' = taskActivity st ++ new
    /\ map a_action new = logged_actions task args
    /\ Forall (fun a => a_taskId a = EpTasks.id args
                        /\ auth ctx = Some (a_userId a)) new
    /\ (status_changes task args = true ->
        priority_changes task args = true ->
        map a_action new = [status_changed; priority_changed])
    /\ (status_changes task args || priority_changes task args = true ->
        ~ In updated (map a_action new)).
Proof.
  intros E Hfind.
  pose proof (find_existsb _ _ _ Hfind) as Hex.
  revert E.
  unfold mutation, EpTasks.update. unfold_layers. unfold_monad. simpl.
  unfold logged_actions, status_changes, priority_changes.
  destruct (auth ctx) as [u|]; [|discriminate].
  destruct (rl_limit Limit.updateTask u (now ctx) (limiter st))
    as [[|ra] l']; [|discriminate].
  simpl. rewrite Hfind.
  destruct (negb (str_eqb (t_userId task) u)); [discriminate|].
  destruct (truthyOpt (EpTasks.title args) && _); [discriminate|].
  destruct (truthyOpt (EpTasks.description args) && _); [discriminate|].
  destruct (EpTasks.status args) as [s|];
    [destruct (negb (status_eqb s (t_status task)))|];
    (destruct (EpTasks.priority args) as [p|];
     [destruct (negb (priority_eqb p (t_priority task)))|]);
    simpl; unfold has_id in *; simpl in *; rewrite ?Hex; simpl;
    intros E; inversion E; subst; clear E; simpl;
    rewrite <- ?app_assoc;
    (eexists; split; [try reflexivity; symmetry; apply app_nil_r|]);
    (split; [reflexivity|]);
    (split; [repeat constructor|]);
    (split; [intros; (reflexivity || discriminate)|]);
    simpl; intros Hc Hin; try discriminate Hc;
    repeat (destruct Hin as [Hin|Hin]; [discriminate Hin|]); exact Hin.
Qed.

(** Where the guards and the comment part: a call that supplies a status
    or a priority and changes neither logs nothing, whatever else it
    changes, and the comment has it log the generic record. *)
Lemma logged_actions_differ (task : Task) (args : EpTasks.UpdateArgs) :
  logged_actions task args <> actions_if_generic_otherwise task args
  <-> status_changes task args = false
      /\ priority_changes task args = false
      /\ (EpTasks.status args <> None \/ EpTasks.priority args <> None).
Proof.
  unfold logged_actions, actions_if_generic_otherwise, status_changes,
    priority_changes.
  destruct (EpTasks.status args) as [s|];
    [destruct (negb (status_eqb s (t_status task)))|];
    (destruct (EpTasks.priority args) as [p|];
     [destruct (negb (priority_eqb p (t_priority task)))|]);
    simpl; split;
    try (intros H; exfalso; apply H; reflexivity);
    try (intros (H1 & H2 & H3); discriminate);
    try (intros (_ & _ & [H|H]); exfalso; apply H; reflexivity);
    try (intros _; repeat split; (left; discriminate) || (right; discriminate));
    try (intros _; discriminate).
Qed.

(** C9. An update by the owner that supplies only a status, equal to the
    task's current status, succeeds, appends nothing to the activity log and
    changes nothing in the task table but the [updatedAt] of that task. *)
Theorem update_same_status_only ctx st u task :
  auth ctx = Some u ->
  fst (rl_limit Limit.updateTask u (now ctx) (limiter st)) = Limit.Ok ->
  find (has_id tasksT (t_id task)) (tasks st) = Some task ->
  t_userId task = u ->
  let args :=
    EpTasks.mkUpdateArgs (t_id task) None None (Some (t_status task)) None
      None in
  let st' := snd (mutation (EpTasks.update args) ctx st) in
  fst (mutation (EpTasks.update args) ctx st) = Return (t_id task)
  /\ taskActivity st' = taskActivity st
  /\ tasks st' =
     map (fun t => if t_id t =? t_id task then touch (now ctx) t else t)
       (tasks st)
  /\ find (has_id tasksT (t_id task)) (tasks st')
     = Some (touch (now ctx) task).
Proof.
  intros Hauth Hrl Hfind Hown args st'. subst args st'.
  pose proof (find_existsb _ _ _ Hfind) as Hex.
  pose proof (find_patched t_id (t_id task) (touch (now ctx)) (tasks st) task
                (fun x => eq_refl) Hfind) as Hfind'.
  revert Hfind'.
  unfold mutation, EpTasks.update. unfold_layers. unfold_monad. simpl.
  rewrite Hauth.
  destruct (rl_limit Limit.updateTask u (now ctx) (limiter st)) as [s l'].
  simpl in Hrl. subst s. simpl.
  rewrite Hfind, Hown, str_eqb_refl. simpl.
  rewrite status_eqb_refl. simpl.
  unfold has_id in *; simpl in *. rewrite Hex. simpl.
  intros Hfind'. repeat split. exact Hfind'.
Qed.
End UpdateLog.

(** ** Cascading deletes *)

Lemma NoDup_map_inj {R} (idof : R -> Id) (l : list R) (x y : R) :
  NoDup (map idof l) -> In x l -> In y l -> idof x = idof y -> x = y.
Proof.
  induction l as [|z l IH]; simpl; intros Hnd Hx Hy E; [contradiction|].
  inversion Hnd as [|? ? Hnin Hnd']; subst.
  destruct Hx as [->|Hx], Hy as [->|Hy]; auto.
  - exfalso. apply Hnin. rewrite E. now apply in_map.
  - exfalso. apply Hnin. rewrite <- E. now apply in_map.
Qed.

Lemma filter_filter {A} (f g : A -> bool) (l : list A) :
  filter f (filter g l) = filter (fun x => g x && f x) l.
Proof.
  induction l as [|x l IH]; simpl; [reflexivity|].
  destruct (g x); simpl; [destruct (f x)|]; now rewrite IH.
Qed.

Lemma filter_all_true {A} (f : A -> bool) (l : list A) :
  (forall x, f x = true) -> filter f l = l.
Proof.
  intros H. induction l as [|x l IH]; simpl; [reflexivity|].
  now rewrite H, IH.
Qed.

Section Cascade.
Context {RL : RateLimiter}.
Context {R : Type}.
Variable T : Table R.

(** The table is a field of the store. *)
Hypothesis rows_set_rows : forall v st, rows T (set_rows T v st) = v.
Hypothesis set_rows_twice :
  forall v w st, set_rows T v (set_rows T w st) = set_rows T v st.
Hypothesis set_rows_same : forall st, set_rows T (rows T st) st = st.

Lemma forEach_delete (ctx : Ctx) (l : list R) : forall st,
  NoDup (map (doc_id T) l) ->
  incl l (rows T st) ->
  forEach (deleteDoc T) l ctx st
  = Return (tt, set_rows T
       (filter (fun r => negb (existsb (fun x => has_id T (doc_id T x) r) l))
          (rows T st)) st).
Proof.
  induction l as [|x l IH]; intros st Hnd Hin.
  - simpl. unfold ret. rewrite filter_all_true; [|reflexivity].
    now rewrite set_rows_same.
  - inversion Hnd as [|? ? Hnin Hnd']; subst.
    simpl. unfold bind, deleteDoc at 1, db_delete.
    assert (Hx : existsb (has_id T (doc_id T x)) (rows T st) = true).
    { apply existsb_exists. exists x. split; [apply Hin; now left|].
      unfold has_id. apply Nat.eqb_refl. }
    rewrite Hx.
    set (st1 := set_rows T _ st).
    assert (Hin1 : incl l (rows T st1)).
    { intros y Hy. unfold st1. rewrite rows_set_rows. apply filter_In.
      split; [apply Hin; now right|].
      unfold has_id. apply negb_true_iff, Nat.eqb_neq. intros E.
      apply Hnin. rewrite <- E. now apply in_map. }
    rewrite (IH st1 Hnd' Hin1).
    f_equal. f_equal. unfold st1. rewrite rows_set_rows, set_rows_twice.
    f_equal. rewrite filter_filter. apply filter_ext. intros r.
    simpl. now rewrite negb_orb.
Qed.

(** Deleting, one by one, the documents a range selects leaves the
    documents outside the range. *)
Lemma forEach_delete_range (ctx : Ctx) (p : R -> bool) (st : Store) :
  NoDup (map (doc_id T) (rows T st)) ->
  forEach (deleteDoc T) (filter p (rows T st)) ctx st
  = Return (tt, set_rows T (filter (fun r => negb (p r)) (rows T st)) st).
Proof.
  intros Hnd. rewrite forEach_delete.
  - f_equal. f_equal. f_equal.
    apply filter_ext_in. intros r Hr. f_equal.
    destruct (p r) eqn:Ep.
    + apply existsb_exists. exists r. split; [now apply filter_In|].
      unfold has_id. apply Nat.eqb_refl.
    + destruct (existsb _ _) eqn:Ex; [|reflexivity].
      apply existsb_exists in Ex as [x [Hx Hid]].
      apply filter_In in Hx as [Hx Hpx].
      unfold has_id in Hid. apply Nat.eqb_eq in Hid.
      assert (x = r) by (eapply NoDup_map_inj; eauto). congruence.
  - now apply NoDup_map_filter.
  - intros x Hx. now apply filter_In in Hx.
Qed.
End Cascade.

Section CascadeInstances.
Context {RL : RateLimiter}.

Lemma deleteAllLabelsFromTask_run ctx st id :
  NoDup (map tl_id (taskLabels st)) ->
  TaskLabels.deleteAllLabelsFromTask id ctx st
  = Return (tt, set_taskLabels
              (filter (fun tl => negb (tl_taskId tl =? id)) (taskLabels st))
              st).
Proof.
  intros Hnd. unfold TaskLabels.deleteAllLabelsFromTask, bind, db_collect.
  apply (forEach_delete_range taskLabelsT); try reflexivity; try exact Hnd.
  intros s; now destruct s.
Qed.

Lemma deleteAllTasksFromLabel_run ctx st id :
  NoDup (map tl_id (taskLabels st)) ->
  TaskLabels.deleteAllTasksFromLabel id ctx st
  = Return (tt, set_taskLabels
              (filter (fun tl => negb (tl_labelId tl =? id)) (taskLabels st))
              st).
Proof.
  intros Hnd. unfold TaskLabels.deleteAllTasksFromLabel, bind, db_collect.
  apply (forEach_delete_range taskLabelsT); try reflexivity; try exact Hnd.
  intros s; now destruct s.
Qed.

Lemma deleteAllCommentsFromTask_run ctx st id :
  NoDup (map c_id (taskComments st)) ->
  TaskComments.deleteAllCommentsFromTask id ctx st
  = Return (tt, set_taskComments
              (filter (fun c => negb (c_taskId c =? id)) (taskComments st))
              st).
Proof.
  intros Hnd. unfold TaskComments.deleteAllCommentsFromTask, bind, db_collect.
  apply (forEach_delete_range taskCommentsT); try reflexivity; try exact Hnd.
  intros s; now destruct s.
Qed.

(** What [tasks.remove] does for the owner of the task. *)
Lemma remove_owned ctx st u l' id task :
  wf st ->
  auth ctx = Some u ->
  rl_limit Limit.deleteTask u (now ctx) (limiter st) = (Limit.Ok, l') ->
  find (has_id tasksT id) (tasks st) = Some task ->
  t_userId task = u ->
  mutation (EpTasks.remove id) ctx st
  = (Return id,
     mkStore
       (filter (fun t => negb (t_id t =? id)) (tasks st))
       (labels st)
       (filter (fun tl => negb (tl_taskId tl =? id)) (taskLabels st))
       (threads st) (messages st) (userPreferences st)
       (taskActivity st
          ++ [mkActivity (nextId st) u id deleted
                (Some (VTitle (t_title task))) None (now ctx)])
       (filter (fun c => negb (c_taskId c =? id)) (taskComments st))
       (S (nextId st)) l').
Proof.
  intros Hwf Hauth Hrl Hfind Hown.
  pose proof (find_existsb _ _ _ Hfind) as Hex.
  destruct Hwf as (_ & _ & [Hl _] & _ & _ & _ & _ & [Hc _]).
  unfold mutation, EpTasks.remove, requireAuth, rateLimit, Tasks.getTaskById,
    TaskActivity.createTaskActivity, Tasks.deleteTask.
  unfold bind, getAuthUser, limit, ret, throw, db_get, Date_now, db_insert.
  rewrite Hauth, Hrl. cbn [rows tasksT tasks set_limiter].
  rewrite Hfind, Hown, str_eqb_refl. cbn [negb].
  rewrite deleteAllLabelsFromTask_run by exact Hl.
  rewrite deleteAllCommentsFromTask_run by exact Hc.
  unfold db_delete. cbn. rewrite Hex. reflexivity.
Qed.
End CascadeInstances.

Lemma find_filter_gone {R} (idof : R -> Id) (id : Id) (l : list R) :
  find (fun r => idof r =? id) (filter (fun r => negb (idof r =? id)) l)
  = None.
Proof.
  induction l as [|x l IH]; simpl; [reflexivity|].
  destruct (idof x =? id) eqn:E; simpl; [exact IH|now rewrite E].
Qed.

Section RemoveTask.
Context {RL : RateLimiter}.

(** C2. When the owner removes a task in a reachable store, the call
    succeeds; afterwards no label association and no comment refers to the
    task, every activity record of the store is still there, but
    [activity.getByTask] for that task fails with [NotFound] since the task
    is gone; the caller's records of the task are among what
    [activity.getAll] returns. *)
Theorem remove_cascades_and_keeps_activity ctx st u task :
  reachable st ->
  auth ctx = Some u ->
  fst (rl_limit Limit.deleteTask u (now ctx) (limiter st)) = Limit.Ok ->
  find (has_id tasksT (t_id task)) (tasks st) = Some task ->
  t_userId task = u ->
  exists st',
    mutation (EpTasks.remove (t_id task)) ctx st = (Return (t_id task), st')
    /\ (forall tl, In tl (taskLabels st') -> tl_taskId tl <> t_id task)
    /\ (forall c, In c (taskComments st') -> c_taskId c <> t_id task)
    /\ (forall a, In a (taskActivity st) -> In a (taskActivity st'))
    /\ (forall t, query (EpActivity.getByTask (t_id task)) (mkCtx (Some u) t)
                    st' = Throw NotFound)
    /\ (forall t a, In a (taskActivity st) -> a_taskId a = t_id task ->
                    a_userId a = u ->
                    exists l, query EpActivity.getAll (mkCtx (Some u) t) st'
                              = Return l /\ In a l).
Proof.
  intros Hreach Hauth Hrl Hfind Hown.
  destruct (rl_limit Limit.deleteTask u (now ctx) (limiter st))
    as [s l'] eqn:El. simpl in Hrl. subst s.
  eexists. split.
  { apply (remove_owned ctx st u l' (t_id task) task); auto.
    now apply reachable_wf. }
  simpl. repeat split.
  - intros tl Htl E. apply filter_In in Htl as [_ Htl].
    rewrite E, Nat.eqb_refl in Htl. discriminate.
  - intros c Hc E. apply filter_In in Hc as [_ Hc].
    rewrite E, Nat.eqb_refl in Hc. discriminate.
  - intros a Ha. apply in_or_app. now left.
  - intros t. unfold query, EpActivity.getByTask. unfold_layers.
    unfold_monad. simpl.
    unfold has_id. simpl. now rewrite (find_filter_gone t_id).
  - intros t a Ha Hid Hu. unfold query, EpActivity.getAll. unfold_layers.
    unfold_monad. simpl. eexists. split; [reflexivity|].
    apply in_rev. rewrite rev_involutive. apply filter_In. split.
    + apply in_or_app. now left.
    + rewrite Hu. apply str_eqb_refl.
Qed.
End RemoveTask.

Section RemoveLabelFromTask.
Context {RL : RateLimiter}.

(** C10. For the owner of the task, [labels.removeFromTask] returns the
    pair of ids whether or not the association exists, and leaves the task
    table as it was, so that the call can be repeated; when no association
    for the pair exists, it changes nothing in the tables. *)
Theorem removeFromTask_without_association ctx st u taskId labelId task :
  auth ctx = Some u ->
  fst (rl_limit Limit.removeLabelFromTask u (now ctx) (limiter st))
    = Limit.Ok ->
  find (has_id tasksT taskId) (tasks st) = Some task ->
  t_userId task = u ->
  let out := mutation (EpLabels.removeFromTask taskId labelId) ctx st in
  fst out = Return (taskId, labelId)
  /\ tasks (snd out) = tasks st
  /\ ((forall tl, In tl (taskLabels st) -> tl_taskId tl = taskId ->
                  tl_labelId tl <> labelId) ->
      data (snd out) = data st).
Proof.
  intros Hauth Hrl Hfind Hown out. subst out.
  unfold mutation, EpLabels.removeFromTask. unfold_layers.
  unfold bind, ret, throw, getAuthUser, limit, db_get, db_collect. simpl.
  rewrite Hauth.
  destruct (rl_limit Limit.removeLabelFromTask u (now ctx) (limiter st))
    as [s l']. simpl in Hrl. subst s. simpl.
  rewrite Hfind, Hown, str_eqb_refl. simpl.
  destruct (find (fun tl => tl_labelId tl =? labelId)
              (filter (fun tl => tl_taskId tl =? taskId) (taskLabels st)))
    as [toDelete|] eqn:Ef.
  - apply find_some in Ef as [Hin Hlab].
    apply filter_In in Hin as [Hin Htask].
    unfold db_delete. simpl.
    assert (Hex : existsb (has_id taskLabelsT (tl_id toDelete))
                    (taskLabels st) = true).
    { apply existsb_exists. exists toDelete. split; [exact Hin|].
      unfold has_id. apply Nat.eqb_refl. }
    rewrite Hex. simpl. repeat split.
    intros Hnone. exfalso.
    apply (Hnone toDelete Hin); now apply Nat.eqb_eq.
  - simpl. repeat split.
Qed.
End RemoveLabelFromTask.

(** ** [tasks.create]: the title bounds *)

Section CreateTitle.
Context {RL : RateLimiter}.

(** C8. For an authenticated caller the limiter lets through,
    [tasks.create] fails with [InvalidArgument], leaving the store as it
    was, for every title that is empty or longer than 200 code units once
    trimmed, and returns the new task's id for every title whose trimmed
    form has between 1 and 200 code units (so for exactly 1 and exactly
    200), given a description the validator accepts. *)
Theorem create_title_bounds ctx st u title description priority dueDate :
  auth ctx = Some u ->
  fst (rl_limit Limit.createTask u (now ctx) (limiter st)) = Limit.Ok ->
  let out :=
    mutation (EpTasks.create title description priority dueDate) ctx st in
  ((jslength (trim title) = 0 \/ 201 <= jslength (trim title))%Z ->
   fst out = Throw InvalidArgument /\ snd out = st)
  /\ ((1 <= jslength (trim title) <= 200)%Z ->
      truthyOpt description && negb (isValidTaskDescription description)
        = false ->
      fst out = Return (nextId st)).
Proof.
  intros Hauth Hrl out. subst out.
  unfold mutation, EpTasks.create. unfold_layers. unfold_monad. simpl.
  rewrite Hauth.
  destruct (rl_limit Limit.createTask u (now ctx) (limiter st)) as [s l'].
  simpl in Hrl. subst s. simpl.
  pose proof (isValidTaskTitle_spec title) as Hv.
  destruct (isValidTaskTitle (sanitizeString title)); simpl; split.
  - intros Hbad. assert (1 <= jslength (trim title) <= 200)%Z
      by (now apply Hv). lia.
  - intros _ ->. now destruct (map t_order _).
  - intros _. now split.
  - intros Hgood. apply Hv in Hgood. discriminate.
Qed.
End CreateTitle.

(** ** Labels: the duplicate check *)

Lemma hd_error_filter_none {A} (p : A -> bool) (l : list A) :
  hd_error (filter p l) = None -> forall x, In x l -> p x = false.
Proof.
  intros H x Hx. destruct (p x) eqn:E; [|reflexivity].
  assert (Hin : In x (filter p l)) by (now apply filter_In).
  destruct (filter p l); [contradiction|discriminate].
Qed.

Lemma filter_none {A} (l : list A) : filter (fun _ => false) l = [].
Proof. induction l as [|x l IH]; simpl; [reflexivity|exact IH]. Qed.

Section LabelNames.
Context {RL : RateLimiter}.

(** The lookup behind the duplicate check finds nothing, whatever is
    stored: the expression of its filter is [false]. *)
Lemma getLabelByUserAndName_null (userId : UserId) (name : jsstring)
    ctx st :
  Labels.getLabelByUserAndName userId name ctx st = Return (None, st).
Proof.
  unfold Labels.getLabelByUserAndName. unfold_monad. simpl.
  now rewrite filter_none.
Qed.

(** [labels.create] never answers that the name exists: every call with a
    valid name and colour that passes the limiter stores a new label,
    whatever labels the caller owns. *)
Lemma create_ignores_existing_names ctx st u name color :
  auth ctx = Some u ->
  fst (rl_limit Limit.createLabel u (now ctx) (limiter st)) = Limit.Ok ->
  isValidLabelName (sanitizeString name) = true ->
  isValidHexColor color = true ->
  let out := mutation (EpLabels.create name color) ctx st in
  fst out = Return (nextId st)
  /\ labels (snd out)
     = labels st
       ++ [mkLabel (nextId st) u (sanitizeString name) color (now ctx)].
Proof.
  intros Hauth Hrl Hname Hcolor out. subst out.
  unfold mutation, EpLabels.create. unfold_layers. unfold_monad. simpl.
  rewrite Hauth.
  destruct (rl_limit Limit.createLabel u (now ctx) (limiter st)) as [s l'].
  simpl in Hrl. subst s. simpl. rewrite Hname, Hcolor. simpl.
  rewrite filter_none. simpl. split; reflexivity.
Qed.

(** [labels.update] likewise renames a label of the caller to any valid
    name, whatever labels the caller owns. *)
Lemma update_ignores_existing_names ctx st u label name :
  auth ctx = Some u ->
  fst (rl_limit Limit.updateLabel u (now ctx) (limiter st)) = Limit.Ok ->
  find (has_id labelsT (l_id label)) (labels st) = Some label ->
  l_userId label = u ->
  name <> [] ->
  isValidLabelName (sanitizeString name) = true ->
  let out := mutation (EpLabels.update (l_id label) (Some name) None) ctx st in
  fst out = Return (l_id label)
  /\ option_map l_name
       (find (has_id labelsT (l_id label)) (labels (snd out)))
     = Some (sanitizeString name).
Proof.
  intros Hauth Hrl Hfind Hown Hne Hname out. subst out.
  pose proof (find_existsb _ _ _ Hfind) as Hex.
  pose proof (find_patched l_id (l_id label)
                (Labels.applyPatch
                   (Labels.mkPatch (Some (sanitizeString name)) None))
                (labels st) label (fun x => eq_refl) Hfind) as Hp.
  assert (Ht : truthy name = true)
    by (destruct name; [contradiction|reflexivity]).
  revert Hp.
  unfold mutation, EpLabels.update. unfold_layers. unfold_monad.
  cbn [truthyOpt Tasks.orElse]. rewrite Ht.
  cbn -[sanitizeString isValidLabelName]. rewrite Hauth.
  destruct (rl_limit Limit.updateLabel u (now ctx) (limiter st)) as [s l'].
  simpl in Hrl. subst s. cbn -[sanitizeString isValidLabelName].
  unfold has_id in *. cbn -[sanitizeString isValidLabelName] in *.
  rewrite Hfind, Hown, str_eqb_refl.
  cbn -[sanitizeString isValidLabelName]. rewrite Hname.
  cbn -[sanitizeString isValidLabelName].
  destruct (str_eqb (sanitizeString name) (l_name label));
    cbn -[sanitizeString isValidLabelName];
    rewrite ?filter_none; cbn -[sanitizeString isValidLabelName];
    rewrite Hex; cbn -[sanitizeString isValidLabelName];
    intros Hp; (split; [reflexivity|]); now rewrite Hp.
Qed.
End LabelNames.

(** ** Recent activity *)

Section SortByKey.
Context {R : Type}.
Variable key : R -> Z.

Lemma insertByKey_perm (x : R) (l : list R) :
  Permutation (insertByKey key x l) (x :: l).
Proof.
  induction l as [|y l IH]; simpl; [reflexivity|].
  destruct (key x <? key y)%Z; [reflexivity|].
  rewrite IH. apply perm_swap.
Qed.

Lemma insertByKey_ascending (x : R) (l : list R) :
  ascending key l -> ascending key (insertByKey key x l).
Proof.
  unfold ascending. induction l as [|y l IH]; simpl; intros H.
  - constructor; constructor.
  - inversion H as [|? ? Hs Hall]; subst.
    destruct (key x <? key y)%Z eqn:E.
    + apply Z.ltb_lt in E. constructor; [exact H|].
      constructor; [lia|].
      eapply Forall_impl; [|exact Hall]. simpl. intros; lia.
    + apply Z.ltb_ge in E. constructor; [now apply IH|].
      apply Forall_forall. intros z Hz.
      apply (Permutation_in _ (insertByKey_perm x l)) in Hz.
      destruct Hz as [<-|Hz]; [exact E|].
      rewrite Forall_forall in Hall. now apply Hall.
Qed.

Lemma sortByKey_spec (l : list R) :
  Permutation (sortByKey key l) l /\ ascending key (sortByKey key l).
Proof.
  unfold sortByKey.
  assert (H : forall acc, ascending key acc ->
            Permutation (fold_left (fun a x => insertByKey key x a) l acc)
              (acc ++ l)
            /\ ascending key
                 (fold_left (fun a x => insertByKey key x a) l acc)).
  { induction l as [|x l IH]; simpl; intros acc Hacc.
    - now rewrite app_nil_r.
    - destruct (IH (insertByKey key x acc)) as [Hp Hs].
      + now apply insertByKey_ascending.
      + split; [|exact Hs]. rewrite Hp.
        rewrite (insertByKey_perm x acc). simpl.
        apply Permutation_cons_app. reflexivity. }
  apply (H []). constructor.
Qed.

Lemma ascending_rev (l : list R) : ascending key l -> descending key (rev l).
Proof.
  unfold ascending, descending. induction 1 as [|x l Hs IH Hall]; simpl.
  - constructor.
  - assert (G : forall m, StronglySorted (fun a b => (key b <= key a)%Z) m ->
                Forall (fun y => (key x <= key y)%Z) m ->
                StronglySorted (fun a b => (key b <= key a)%Z) (m ++ [x])).
    { induction 1 as [|y m Hm IHm Hym]; simpl; intros Hx.
      - constructor; constructor.
      - inversion Hx; subst. constructor; [now apply IHm|].
        apply Forall_app. split; [exact Hym|]. now constructor. }
    apply G; [exact IH|]. apply Forall_forall. intros y Hy.
    apply in_rev in Hy. rewrite Forall_forall in Hall. now apply Hall.
Qed.
End SortByKey.

Section RecentActivity.
Context {RL : RateLimiter}.

Lemma recentFirst_spec (st : Store) (u : UserId) :
  Permutation (recentFirst st u)
    (filter (fun a => str_eqb (a_userId a) u) (taskActivity st))
  /\ descending a_createdAt (recentFirst st u).
Proof.
  unfold recentFirst.
  destruct (sortByKey_spec a_createdAt
              (filter (fun a => str_eqb (a_userId a) u) (taskActivity st)))
    as [Hp Hs].
  split.
  - rewrite <- Hp at 2. symmetry. apply Permutation_rev.
  - now apply ascending_rev.
Qed.

(** C7. For an authenticated caller, [dashboard.recentActivity] returns the
    first 10 (fewer when there are fewer) of the caller's activity records
    arranged by creation time descending; the handler takes no limit. The
    default of 20 is that of [activity.getRecent] called without a limit,
    which returns the first 20 of the same arrangement. *)
Theorem recentActivity_ten_most_recent ctx st u :
  auth ctx = Some u ->
  Permutation (recentFirst st u)
    (filter (fun a => str_eqb (a_userId a) u) (taskActivity st))
  /\ descending a_createdAt (recentFirst st u)
  /\ query EpDashboard.recentActivity ctx st
     = Return (firstn 10 (recentFirst st u))
  /\ query (EpActivity.getRecent None) ctx st
     = Return (firstn 20 (recentFirst st u)).
Proof.
  intros Hauth. destruct (recentFirst_spec st u) as [Hp Hs].
  repeat split; try assumption.
  - unfold query, EpDashboard.recentActivity. unfold_layers. unfold_monad.
    simpl. now rewrite Hauth.
  - unfold query, EpActivity.getRecent. unfold_layers. unfold_monad.
    simpl. now rewrite Hauth.
Qed.
End RecentActivity.

(** ** Rate limiting *)

Section RateLimiting.
Context {RL : RateLimiter}.

(** A handler that starts with the authentication and rate-limit steps
    stops there when the limiter refuses the call. *)
Lemma limited_prefix {A} (name : Limit.Name) (k : UserId -> M A) ctx st u
    retryAfter :
  auth ctx = Some u ->
  fst (rl_limit name u (now ctx) (limiter st)) = Limit.Retry retryAfter ->
  mutation (authUser <- requireAuth ;; rateLimit name authUser ;; k authUser)
    ctx st
  = (Throw (RateLimited retryAfter), st).
Proof.
  intros Hauth Hrl.
  unfold mutation, requireAuth, rateLimit, bind, getAuthUser, limit, ret,
    throw.
  rewrite Hauth.
  destruct (rl_limit name u (now ctx) (limiter st)) as [s l'].
  simpl in Hrl. now subst s.
Qed.

(** Every mutation that names a limit is refused, with the limiter's
    retry-after, when the limiter refuses the call, and commits nothing. *)
Lemma limited_mutations_refused ctx st u r name retryAfter :
  auth ctx = Some u ->
  limit_of r = Some name ->
  fst (rl_limit name u (now ctx) (limiter st)) = Limit.Retry retryAfter ->
  failure ctx r st = Some (RateLimited retryAfter) /\ step ctx r st = st.
Proof.
  intros Hauth Hname Hrl.
  destruct r; simpl in Hname; inversion Hname; subst name; clear Hname;
    simpl;
    unfold EpTasks.create, EpTasks.update, EpTasks.reorder,
      EpTasks.remove, EpLabels.create, EpLabels.update, EpLabels.remove,
      EpLabels.addToTask, EpLabels.removeFromTask, EpComments.create,
      EpComments.remove, EpPreferences.update, EpAi.createThread,
      EpAi.sendMessage, EpAi.deleteThread;
    erewrite limited_prefix by eassumption; split; reflexivity.
Qed.

(** [ai.updateThread] never answers [RateLimited] and never touches the
    limiter's state, whatever the limiter would say. *)
Lemma updateThread_not_limited ctx st threadId title status :
  let out := mutation (EpAi.updateThread threadId title status) ctx st in
  (forall retryAfter, fst out <> Throw (RateLimited retryAfter))
  /\ limiter (snd out) = limiter st.
Proof.
  intros out. subst out.
  unfold mutation, EpAi.updateThread. unfold_layers. unfold_monad. simpl.
  destruct (auth ctx) as [u|]; [|split; [discriminate|reflexivity]].
  simpl.
  destruct (find (has_id threadsT threadId) (threads st)) as [thread|];
    [|split; [discriminate|reflexivity]].
  destruct (negb (str_eqb (th_userId thread) u));
    [split; [discriminate|reflexivity]|].
  destruct (truthyOpt title && _); [split; [discriminate|reflexivity]|].
  simpl. destruct (existsb _ _); simpl; split; (discriminate || reflexivity).
Qed.
End RateLimiting.

(** ** Ownership checks *)

Ltac run_forbidden Hauth Hrl Hfind Hneq :=
  unfold mutation, query,
    EpTasks.get, EpTasks.update, EpTasks.reorder, EpTasks.remove,
    EpComments.listByTask, EpComments.create, EpActivity.getByTask,
    EpLabels.get, EpLabels.update, EpLabels.remove, EpLabels.addToTask,
    EpLabels.removeFromTask, EpLabels.getLabelsForTask,
    EpLabels.getTasksForLabel,
    EpAi.getThread, EpAi.sendMessage, EpAi.updateThread, EpAi.deleteThread;
  unfold_layers; unfold_monad; simpl; rewrite Hauth;
  try match goal with
      | |- context [rl_limit ?n ?u ?t ?l] =>
          let s := fresh "s" in
          let l' := fresh "l'" in
          let E := fresh "E" in
          pose proof (Hrl n) as E;
          destruct (rl_limit n u t l) as [s l'];
          simpl in E; subst s
      end;
  simpl; rewrite ?Hfind; simpl; rewrite ?Hneq; simpl; try reflexivity.

Section Ownership.
Context {RL : RateLimiter}.

(** The operations that name a task refuse a caller who does not own it. *)
Lemma foreign_task_forbidden ctx st u task :
  auth ctx = Some u ->
  (forall n, fst (rl_limit n u (now ctx) (limiter st)) = Limit.Ok) ->
  find (has_id tasksT (t_id task)) (tasks st) = Some task ->
  t_userId task <> u ->
  query (EpTasks.get (t_id task)) ctx st = Throw Forbidden
  /\ (forall args, EpTasks.id args = t_id task ->
        mutation (EpTasks.update args) ctx st = (Throw Forbidden, st))
  /\ (forall o,
        mutation (EpTasks.reorder (t_id task) o) ctx st = (Throw Forbidden, st))
  /\ mutation (EpTasks.remove (t_id task)) ctx st = (Throw Forbidden, st)
  /\ query (EpComments.listByTask (t_id task)) ctx st = Throw Forbidden
  /\ (forall c ty,
        mutation (EpComments.create (t_id task) c ty) ctx st
        = (Throw Forbidden, st))
  /\ query (EpActivity.getByTask (t_id task)) ctx st = Throw Forbidden
  /\ (forall l,
        mutation (EpLabels.addToTask (t_id task) l) ctx st
        = (Throw Forbidden, st))
  /\ (forall l,
        mutation (EpLabels.removeFromTask (t_id task) l) ctx st
        = (Throw Forbidden, st))
  /\ query (EpLabels.getLabelsForTask (t_id task)) ctx st = Throw Forbidden.
Proof.
  intros Hauth Hrl Hfind Hneq. apply str_eqb_neq in Hneq.
  repeat split; intros;
    try match goal with
        | H : EpTasks.id ?a = _ |- _ =>
            assert (Hfind' : find (has_id tasksT (EpTasks.id a)) (tasks st)
                             = Some task) by (rewrite H; exact Hfind);
            run_forbidden Hauth Hrl Hfind' Hneq
        end;
    run_forbidden Hauth Hrl Hfind Hneq.
Qed.

(** The operations that name a label refuse a caller who does not own it. *)
Lemma foreign_label_forbidden ctx st u label :
  auth ctx = Some u ->
  (forall n, fst (rl_limit n u (now ctx) (limiter st)) = Limit.Ok) ->
  find (has_id labelsT (l_id label)) (labels st) = Some label ->
  l_userId label <> u ->
  query (EpLabels.get (l_id label)) ctx st = Throw Forbidden
  /\ (forall n c,
        mutation (EpLabels.update (l_id label) n c) ctx st
        = (Throw Forbidden, st))
  /\ mutation (EpLabels.remove (l_id label)) ctx st = (Throw Forbidden, st)
  /\ query (EpLabels.getTasksForLabel (l_id label)) ctx st = Throw Forbidden
  /\ (forall task,
        find (has_id tasksT (t_id task)) (tasks st) = Some task ->
        t_userId task = u ->
        mutation (EpLabels.addToTask (t_id task) (l_id label)) ctx st
        = (Throw Forbidden, st)).
Proof.
  intros Hauth Hrl Hfind Hneq. apply str_eqb_neq in Hneq.
  repeat split; intros; try run_forbidden Hauth Hrl Hfind Hneq.
  match goal with
  | Ht : find _ (tasks st) = Some ?t, Ho : t_userId ?t = u |- _ =>
      rewrite Ht, Ho, str_eqb_refl; simpl; rewrite Hfind; simpl;
      rewrite Hneq; reflexivity
  end.
Qed.

(** The operations that name a thread refuse a caller who does not own
    it. *)
Lemma foreign_thread_forbidden ctx st u thread :
  auth ctx = Some u ->
  (forall n, fst (rl_limit n u (now ctx) (limiter st)) = Limit.Ok) ->
  find (has_id threadsT (th_id thread)) (threads st) = Some thread ->
  th_userId thread <> u ->
  query (EpAi.getThread (th_id thread)) ctx st = Throw Forbidden
  /\ (forall c,
        mutation (EpAi.sendMessage (th_id thread) c) ctx st
        = (Throw Forbidden, st))
  /\ (forall t s,
        mutation (EpAi.updateThread (th_id thread) t s) ctx st
        = (Throw Forbidden, st))
  /\ mutation (EpAi.deleteThread (th_id thread)) ctx st
     = (Throw Forbidden, st).
Proof.
  intros Hauth Hrl Hfind Hneq. apply str_eqb_neq in Hneq.
  repeat split; intros; run_forbidden Hauth Hrl Hfind Hneq.
Qed.

(** [comments.remove] deletes the comment the id names for any
    authenticated caller the limiter lets through, whoever wrote it. *)
Lemma comments_remove_any_owner ctx st u comment :
  auth ctx = Some u ->
  fst (rl_limit Limit.deleteComment u (now ctx) (limiter st)) = Limit.Ok ->
  find (has_id taskCommentsT (c_id comment)) (taskComments st)
    = Some comment ->
  let out := mutation (EpComments.remove (c_id comment)) ctx st in
  fst out = Return (c_id comment)
  /\ find (has_id taskCommentsT (c_id comment)) (taskComments (snd out))
     = None.
Proof.
  intros Hauth Hrl Hfind out. subst out.
  pose proof (find_existsb _ _ _ Hfind) as Hex.
  unfold mutation, EpComments.remove. unfold_layers. unfold_monad. simpl.
  rewrite Hauth.
  destruct (rl_limit Limit.deleteComment u (now ctx) (limiter st)) as [s l'].
  simpl in Hrl. subst s. simpl.
  unfold has_id in *. simpl in *. rewrite Hex. simpl.
  split; [reflexivity|apply (find_filter_gone c_id)].
Qed.
End Ownership.

(** ** The first steps of the protocol, for every operation *)

Ltac run_missing Hauth Hrl Hfind :=
  unfold mutation, query,
    EpTasks.get, EpTasks.update, EpTasks.reorder, EpTasks.remove,
    EpComments.listByTask, EpComments.create, EpActivity.getByTask,
    EpLabels.get, EpLabels.update, EpLabels.remove, EpLabels.addToTask,
    EpLabels.removeFromTask, EpLabels.getLabelsForTask,
    EpLabels.getTasksForLabel,
    EpAi.getThread, EpAi.sendMessage, EpAi.updateThread, EpAi.deleteThread;
  unfold_layers; unfold_monad; simpl; rewrite Hauth;
  try match goal with
      | |- context [rl_limit ?n ?u ?t ?l] =>
          let s := fresh "s" in
          let l' := fresh "l'" in
          let E := fresh "E" in
          pose proof (Hrl n) as E;
          destruct (rl_limit n u t l) as [s l'];
          simpl in E; subst s
      end;
  simpl; rewrite ?Hfind; simpl; try reflexivity.

Section FirstSteps.
Context {RL : RateLimiter}.

Lemma unauth_prefix {A} (k : UserId -> M A) ctx st :
  auth ctx = None ->
  (authUser <- requireAuth ;; k authUser) ctx st = Throw Unauthenticated.
Proof.
  intros Hauth. unfold requireAuth, bind, getAuthUser, throw.
  now rewrite Hauth.
Qed.

(** X1. Without a session every operation, mutation or query, fails with
    [Unauthenticated] before anything else happens: nothing is written and
    the limiter is not consulted. *)
Theorem unauthenticated_refused ctx st :
  auth ctx = None ->
  (forall r, failure ctx r st = Some Unauthenticated /\ step ctx r st = st)
  /\ query EpTasks.list ctx st = Throw Unauthenticated
  /\ (forall s, query (EpTasks.listByStatus s) ctx st = Throw Unauthenticated)
  /\ (forall id, query (EpTasks.get id) ctx st = Throw Unauthenticated)
  /\ query EpTasks.getCounts ctx st = Throw Unauthenticated
  /\ query EpLabels.list ctx st = Throw Unauthenticated
  /\ (forall id, query (EpLabels.get id) ctx st = Throw Unauthenticated)
  /\ (forall id,
        query (EpLabels.getLabelsForTask id) ctx st = Throw Unauthenticated)
  /\ (forall id,
        query (EpLabels.getTasksForLabel id) ctx st = Throw Unauthenticated)
  /\ (forall id,
        query (EpComments.listByTask id) ctx st = Throw Unauthenticated)
  /\ (forall id, query (EpActivity.getByTask id) ctx st = Throw Unauthenticated)
  /\ (forall n, query (EpActivity.getRecent n) ctx st = Throw Unauthenticated)
  /\ query EpActivity.getAll ctx st = Throw Unauthenticated
  /\ query EpDashboard.summary ctx st = Throw Unauthenticated
  /\ query EpDashboard.recent ctx st = Throw Unauthenticated
  /\ query EpDashboard.recentActivity ctx st = Throw Unauthenticated
  /\ query EpDashboard.loadSummary ctx st = Throw Unauthenticated
  /\ (forall s, query (EpAi.listThreads s) ctx st = Throw Unauthenticated)
  /\ (forall id, query (EpAi.getThread id) ctx st = Throw Unauthenticated)
  /\ query EpPreferences.get ctx st = Throw Unauthenticated.
Proof.
  intros Hauth.
  repeat match goal with |- _ /\ _ => split end; intros;
    try match goal with
        | r : Request |- _ => destruct r; simpl
        end;
    unfold mutation, query,
      EpTasks.create, EpTasks.update, EpTasks.reorder, EpTasks.remove,
      EpTasks.list, EpTasks.listByStatus, EpTasks.get, EpTasks.getCounts,
      EpLabels.create, EpLabels.update, EpLabels.remove, EpLabels.addToTask,
      EpLabels.removeFromTask, EpLabels.list, EpLabels.get,
      EpLabels.getLabelsForTask, EpLabels.getTasksForLabel,
      EpComments.create, EpComments.remove, EpComments.listByTask,
      EpActivity.getByTask, EpActivity.getRecent, EpActivity.getAll,
      EpDashboard.summary, EpDashboard.recent, EpDashboard.recentActivity,
      EpDashboard.loadSummary,
      EpAi.createThread, EpAi.sendMessage, EpAi.updateThread,
      EpAi.deleteThread, EpAi.listThreads, EpAi.getThread,
      EpPreferences.update, EpPreferences.get;
    rewrite unauth_prefix by exact Hauth; try split; reflexivity.
Qed.

(** [labels.removeFromTask] on a task of the caller returns the pair of
    ids, whatever the label id is. *)
Lemma removeFromTask_returns ctx st u taskId labelId task :
  auth ctx = Some u ->
  fst (rl_limit Limit.removeLabelFromTask u (now ctx) (limiter st))
    = Limit.Ok ->
  find (has_id tasksT taskId) (tasks st) = Some task ->
  t_userId task = u ->
  fst (mutation (EpLabels.removeFromTask taskId labelId) ctx st)
  = Return (taskId, labelId).
Proof.
  intros Hauth Hrl Hfind Hown.
  unfold mutation, EpLabels.removeFromTask. unfold_layers.
  unfold bind, ret, throw, getAuthUser, limit, db_get, db_collect. simpl.
  rewrite Hauth.
  destruct (rl_limit Limit.removeLabelFromTask u (now ctx) (limiter st))
    as [s l']. simpl in Hrl. subst s. simpl.
  rewrite Hfind, Hown, str_eqb_refl. simpl.
  destruct (find (fun tl => tl_labelId tl =? labelId)
              (filter (fun tl => tl_taskId tl =? taskId) (taskLabels st)))
    as [toDelete|] eqn:Ef; [|reflexivity].
  apply find_some in Ef as [Hin _]. apply filter_In in Hin as [Hin _].
  unfold db_delete. simpl.
  assert (Hex : existsb (has_id taskLabelsT (tl_id toDelete))
                  (taskLabels st) = true).
  { apply existsb_exists. exists toDelete. split; [exact Hin|].
    unfold has_id. apply Nat.eqb_refl. }
  now rewrite Hex.
Qed.

(** X2. For an authenticated caller the limiter lets through, every
    operation that loads the task, the label or the thread it names fails
    with [NotFound] when that document is not stored, and the mutations
    among them commit nothing: the ten operations on a task, [labels.get],
    [update], [remove], [getTasksForLabel] and [addToTask] on a task of the
    caller, and the four operations on a thread. [labels.removeFromTask]
    does not load the label: on a task of the caller and a label that is
    not stored it returns the pair of ids. *)
Theorem missing_document_not_found ctx st u :
  auth ctx = Some u ->
  (forall n, fst (rl_limit n u (now ctx) (limiter st)) = Limit.Ok) ->
  (forall id, find (has_id tasksT id) (tasks st) = None ->
     query (EpTasks.get id) ctx st = Throw NotFound
     /\ (forall args, EpTasks.id args = id ->
           mutation (EpTasks.update args) ctx st = (Throw NotFound, st))
     /\ (forall o,
           mutation (EpTasks.reorder id o) ctx st = (Throw NotFound, st))
     /\ mutation (EpTasks.remove id) ctx st = (Throw NotFound, st)
     /\ query (EpComments.listByTask id) ctx st = Throw NotFound
     /\ (forall c ty,
           mutation (EpComments.create id c ty) ctx st = (Throw NotFound, st))
     /\ query (EpActivity.getByTask id) ctx st = Throw NotFound
     /\ (forall l,
           mutation (EpLabels.addToTask id l) ctx st = (Throw NotFound, st))
     /\ (forall l,
           mutation (EpLabels.removeFromTask id l) ctx st
           = (Throw NotFound, st))
     /\ query (EpLabels.getLabelsForTask id) ctx st = Throw NotFound)
  /\ (forall id, find (has_id labelsT id) (labels st) = None ->
        query (EpLabels.get id) ctx st = Throw NotFound
        /\ (forall n c,
              mutation (EpLabels.update id n c) ctx st = (Throw NotFound, st))
        /\ mutation (EpLabels.remove id) ctx st = (Throw NotFound, st)
        /\ query (EpLabels.getTasksForLabel id) ctx st = Throw NotFound)
  /\ (forall id, find (has_id threadsT id) (threads st) = None ->
        query (EpAi.getThread id) ctx st = Throw NotFound
        /\ (forall c,
              mutation (EpAi.sendMessage id c) ctx st = (Throw NotFound, st))
        /\ (forall t s,
              mutation (EpAi.updateThread id t s) ctx st
              = (Throw NotFound, st))
        /\ mutation (EpAi.deleteThread id) ctx st = (Throw NotFound, st))
  /\ (forall id task,
        find (has_id labelsT id) (labels st) = None ->
        find (has_id tasksT (t_id task)) (tasks st) = Some task ->
        t_userId task = u ->
        mutation (EpLabels.addToTask (t_id task) id) ctx st
        = (Throw NotFound, st)
        /\ fst (mutation (EpLabels.removeFromTask (t_id task) id) ctx st)
           = Return (t_id task, id)).
Proof.
  intros Hauth Hrl.
  split; [|split; [|split]]; [| | |intros id task Hfind Htask Hown; split];
    [| | | |apply (removeFromTask_returns ctx st u _ _ task); auto];
    [| | |run_missing Hauth Hrl Htask; rewrite Hown, str_eqb_refl; simpl;
          now rewrite Hfind];
    intros id Hfind;
    repeat match goal with |- _ /\ _ => split end; intros;
    try match goal with
        | H : EpTasks.id ?a = _ |- _ =>
            assert (Hfind' : find (has_id tasksT (EpTasks.id a)) (tasks st)
                             = None) by (rewrite H; exact Hfind);
            run_missing Hauth Hrl Hfind'
        end;
    run_missing Hauth Hrl Hfind.
Qed.
End FirstSteps.

(** ** Refusals *)

Section Refusals.
Context {RL : RateLimiter}.

(** X3. A mutation the limiter refuses answers [RateLimited] with the
    limiter's retry-after and commits nothing, the limiter's own state
    included; this holds for the fifteen mutations that name a limit. *)
Theorem rate_limited_commits_nothing ctx st u r name retryAfter :
  auth ctx = Some u ->
  limit_of r = Some name ->
  fst (rl_limit name u (now ctx) (limiter st)) = Limit.Retry retryAfter ->
  failure ctx r st = Some (RateLimited retryAfter) /\ step ctx r st = st.
Proof. apply limited_mutations_refused. Qed.

(** X4. Every operation that names a task, [tasks.get], [update],
    [reorder], [remove], the comment, activity and label operations on it,
    answers [Forbidden] to a caller who does not own the task, and changes
    nothing. *)
Theorem tasks_of_others_forbidden ctx st u task :
  auth ctx = Some u ->
  (forall n, fst (rl_limit n u (now ctx) (limiter st)) = Limit.Ok) ->
  find (has_id tasksT (t_id task)) (tasks st) = Some task ->
  t_userId task <> u ->
  query (EpTasks.get (t_id task)) ctx st = Throw Forbidden
  /\ (forall args, EpTasks.id args = t_id task ->
        mutation (EpTasks.update args) ctx st = (Throw Forbidden, st))
  /\ (forall o,
        mutation (EpTasks.reorder (t_id task) o) ctx st = (Throw Forbidden, st))
  /\ mutation (EpTasks.remove (t_id task)) ctx st = (Throw Forbidden, st)
  /\ query (EpComments.listByTask (t_id task)) ctx st = Throw Forbidden
  /\ (forall c ty,
        mutation (EpComments.create (t_id task) c ty) ctx st
        = (Throw Forbidden, st))
  /\ query (EpActivity.getByTask (t_id task)) ctx st = Throw Forbidden
  /\ (forall l,
        mutation (EpLabels.addToTask (t_id task) l) ctx st
        = (Throw Forbidden, st))
  /\ (forall l,
        mutation (EpLabels.removeFromTask (t_id task) l) ctx st
        = (Throw Forbidden, st))
  /\ query (EpLabels.getLabelsForTask (t_id task)) ctx st = Throw Forbidden.
Proof. apply foreign_task_forbidden. Qed.

(** X5. Every operation that names a label, [labels.get], [update],
    [remove], [getTasksForLabel] and [addToTask] on a task of the caller,
    answers [Forbidden] to a caller who does not own the label, and changes
    nothing. *)
Theorem labels_of_others_forbidden ctx st u label :
  auth ctx = Some u ->
  (forall n, fst (rl_limit n u (now ctx) (limiter st)) = Limit.Ok) ->
  find (has_id labelsT (l_id label)) (labels st) = Some label ->
  l_userId label <> u ->
  query (EpLabels.get (l_id label)) ctx st = Throw Forbidden
  /\ (forall n c,
        mutation (EpLabels.update (l_id label) n c) ctx st
        = (Throw Forbidden, st))
  /\ mutation (EpLabels.remove (l_id label)) ctx st = (Throw Forbidden, st)
  /\ query (EpLabels.getTasksForLabel (l_id label)) ctx st = Throw Forbidden
  /\ (forall task,
        find (has_id tasksT (t_id task)) (tasks st) = Some task ->
        t_userId task = u ->
        mutation (EpLabels.addToTask (t_id task) (l_id label)) ctx st
        = (Throw Forbidden, st)).
Proof. apply foreign_label_forbidden. Qed.

(** X6. Every operation that names a thread, [ai.getThread],
    [sendMessage], [updateThread] and [deleteThread], answers [Forbidden]
    to a caller who does not own the thread, and changes nothing. *)
Theorem threads_of_others_forbidden ctx st u thread :
  auth ctx = Some u ->
  (forall n, fst (rl_limit n u (now ctx) (limiter st)) = Limit.Ok) ->
  find (has_id threadsT (th_id thread)) (threads st) = Some thread ->
  th_userId thread <> u ->
  query (EpAi.getThread (th_id thread)) ctx st = Throw Forbidden
  /\ (forall c,
        mutation (EpAi.sendMessage (th_id thread) c) ctx st
        = (Throw Forbidden, st))
  /\ (forall t s,
        mutation (EpAi.updateThread (th_id thread) t s) ctx st
        = (Throw Forbidden, st))
  /\ mutation (EpAi.deleteThread (th_id thread)) ctx st
     = (Throw Forbidden, st).
Proof. apply foreign_thread_forbidden. Qed.
End Refusals.

(** ** Removing a task, a label, a thread: the outcomes *)

Section Outcomes.
Context {RL : RateLimiter}.

Lemma deleteAllMessagesInThread_run ctx st id :
  NoDup (map m_id (messages st)) ->
  Messages.deleteAllMessagesInThread id ctx st
  = Return (tt, set_messages
              (filter (fun m => negb (m_threadId m =? id)) (messages st))
              st).
Proof.
  intros Hnd. unfold Messages.deleteAllMessagesInThread, bind, db_collect.
  apply (forEach_delete_range messagesT); try reflexivity; try exact Hnd.
  intros s; now destruct s.
Qed.

(** What [labels.remove] does for the owner of the label. *)
Lemma label_remove_owned ctx st u l' id label :
  wf st ->
  auth ctx = Some u ->
  rl_limit Limit.deleteLabel u (now ctx) (limiter st) = (Limit.Ok, l') ->
  find (has_id labelsT id) (labels st) = Some label ->
  l_userId label = u ->
  mutation (EpLabels.remove id) ctx st
  = (Return id,
     mkStore (tasks st)
       (filter (fun l => negb (l_id l =? id)) (labels st))
       (filter (fun tl => negb (tl_labelId tl =? id)) (taskLabels st))
       (threads st) (messages st) (userPreferences st) (taskActivity st)
       (taskComments st) (nextId st) l').
Proof.
  intros Hwf Hauth Hrl Hfind Hown.
  pose proof (find_existsb _ _ _ Hfind) as Hex.
  destruct Hwf as (_ & _ & [Hl _] & _).
  unfold mutation, EpLabels.remove, requireAuth, rateLimit,
    Labels.getLabelById, Labels.deleteLabel.
  unfold bind, getAuthUser, limit, ret, throw, db_get.
  rewrite Hauth, Hrl. cbn [rows labelsT labels set_limiter].
  rewrite Hfind, Hown, str_eqb_refl. cbn [negb].
  rewrite deleteAllTasksFromLabel_run by exact Hl.
  unfold db_delete. cbn. rewrite Hex. reflexivity.
Qed.

(** What [ai.deleteThread] does for the owner of the thread. *)
Lemma thread_delete_owned ctx st u l' id thread :
  wf st ->
  auth ctx = Some u ->
  rl_limit Limit.deleteThread u (now ctx) (limiter st) = (Limit.Ok, l') ->
  find (has_id threadsT id) (threads st) = Some thread ->
  th_userId thread = u ->
  mutation (EpAi.deleteThread id) ctx st
  = (Return id,
     mkStore (tasks st) (labels st) (taskLabels st)
       (filter (fun t => negb (th_id t =? id)) (threads st))
       (filter (fun m => negb (m_threadId m =? id)) (messages st))
       (userPreferences st) (taskActivity st) (taskComments st) (nextId st)
       l').
Proof.
  intros Hwf Hauth Hrl Hfind Hown.
  pose proof (find_existsb _ _ _ Hfind) as Hex.
  destruct Hwf as (_ & _ & _ & _ & [Hm _] & _).
  unfold mutation, EpAi.deleteThread, requireAuth, rateLimit,
    Threads.getThreadById, Threads.deleteThread.
  unfold bind, getAuthUser, limit, ret, throw, db_get.
  rewrite Hauth, Hrl. cbn [rows threadsT threads set_limiter].
  rewrite Hfind, Hown, str_eqb_refl. cbn [negb].
  rewrite deleteAllMessagesInThread_run by exact Hm.
  unfold db_delete. cbn. rewrite Hex. reflexivity.
Qed.

(** A removal either commits nothing or is the removal by the owner. *)
Lemma task_remove_outcome ctx st id :
  wf st ->
  snd (mutation (EpTasks.remove id) ctx st) = st
  \/ exists u l' task,
       mutation (EpTasks.remove id) ctx st
       = (Return id,
          mkStore
            (filter (fun t => negb (t_id t =? id)) (tasks st))
            (labels st)
            (filter (fun tl => negb (tl_taskId tl =? id)) (taskLabels st))
            (threads st) (messages st) (userPreferences st)
            (taskActivity st
               ++ [mkActivity (nextId st) u id deleted
                     (Some (VTitle (t_title task))) None (now ctx)])
            (filter (fun c => negb (c_taskId c =? id)) (taskComments st))
            (S (nextId st)) l').
Proof.
  intros Hwf.
  destruct (auth ctx) as [u|] eqn:Hauth.
  2:{ left. unfold mutation, EpTasks.remove.
      now rewrite unauth_prefix. }
  destruct (rl_limit Limit.deleteTask u (now ctx) (limiter st))
    as [[|ra] l'] eqn:Hrl.
  2:{ left. unfold EpTasks.remove.
      erewrite limited_prefix; [reflexivity|exact Hauth|now rewrite Hrl]. }
  destruct (find (has_id tasksT id) (tasks st)) as [task|] eqn:Hfind.
  2:{ left. unfold mutation, EpTasks.remove. unfold_layers. unfold_monad.
      simpl. rewrite Hauth, Hrl. simpl. now rewrite Hfind. }
  destruct (str_eqb (t_userId task) u) eqn:Hown.
  - right. exists u, l', task. apply str_eqb_eq in Hown.
    now apply remove_owned.
  - left. unfold mutation, EpTasks.remove. unfold_layers. unfold_monad.
    simpl. rewrite Hauth, Hrl. simpl. now rewrite Hfind, Hown.
Qed.

Lemma label_remove_outcome ctx st id :
  wf st ->
  snd (mutation (EpLabels.remove id) ctx st) = st
  \/ exists l',
       mutation (EpLabels.remove id) ctx st
       = (Return id,
          mkStore (tasks st)
            (filter (fun l => negb (l_id l =? id)) (labels st))
            (filter (fun tl => negb (tl_labelId tl =? id)) (taskLabels st))
            (threads st) (messages st) (userPreferences st)
            (taskActivity st) (taskComments st) (nextId st) l').
Proof.
  intros Hwf.
  destruct (auth ctx) as [u|] eqn:Hauth.
  2:{ left. unfold mutation, EpLabels.remove.
      now rewrite unauth_prefix. }
  destruct (rl_limit Limit.deleteLabel u (now ctx) (limiter st))
    as [[|ra] l'] eqn:Hrl.
  2:{ left. unfold EpLabels.remove.
      erewrite limited_prefix; [reflexivity|exact Hauth|now rewrite Hrl]. }
  destruct (find (has_id labelsT id) (labels st)) as [label|] eqn:Hfind.
  2:{ left. unfold mutation, EpLabels.remove. unfold_layers. unfold_monad.
      simpl. rewrite Hauth, Hrl. simpl. now rewrite Hfind. }
  destruct (str_eqb (l_userId label) u) eqn:Hown.
  - right. exists l'. apply str_eqb_eq in Hown.
    now apply (label_remove_owned ctx st u l' id label).
  - left. unfold mutation, EpLabels.remove. unfold_layers. unfold_monad.
    simpl. rewrite Hauth, Hrl. simpl. now rewrite Hfind, Hown.
Qed.

Lemma thread_delete_outcome ctx st id :
  wf st ->
  snd (mutation (EpAi.deleteThread id) ctx st) = st
  \/ exists l',
       mutation (EpAi.deleteThread id) ctx st
       = (Return id,
          mkStore (tasks st) (labels st) (taskLabels st)
            (filter (fun t => negb (th_id t =? id)) (threads st))
            (filter (fun m => negb (m_threadId m =? id)) (messages st))
            (userPreferences st) (taskActivity st) (taskComments st)
            (nextId st) l').
Proof.
  intros Hwf.
  destruct (auth ctx) as [u|] eqn:Hauth.
  2:{ left. unfold mutation, EpAi.deleteThread.
      now rewrite unauth_prefix. }
  destruct (rl_limit Limit.deleteThread u (now ctx) (limiter st))
    as [[|ra] l'] eqn:Hrl.
  2:{ left. unfold EpAi.deleteThread.
      erewrite limited_prefix; [reflexivity|exact Hauth|now rewrite Hrl]. }
  destruct (find (has_id threadsT id) (threads st)) as [thread|] eqn:Hfind.
  2:{ left. unfold mutation, EpAi.deleteThread. unfold_layers. unfold_monad.
      simpl. rewrite Hauth, Hrl. simpl. now rewrite Hfind. }
  destruct (str_eqb (th_userId thread) u) eqn:Hown.
  - right. exists l'. apply str_eqb_eq in Hown.
    now apply (thread_delete_owned ctx st u l' id thread).
  - left. unfold mutation, EpAi.deleteThread. unfold_layers. unfold_monad.
    simpl. rewrite Hauth, Hrl. simpl. now rewrite Hfind, Hown.
Qed.
End Outcomes.

(** ** Associations *)

Lemma NoDup_map_filter_key {R K} (key : R -> K) (p : R -> bool)
    (l : list R) :
  NoDup (map key l) -> NoDup (map key (filter p l)).
Proof.
  induction l as [|x l IH]; simpl; intros H; [constructor|].
  inversion H as [|? ? Hnin Hnd]; subst.
  destruct (p x); simpl; [|now apply IH].
  constructor; [|now apply IH].
  intros Hin. apply Hnin. apply in_map_iff in Hin as [y [Ey Hy]].
  apply filter_In in Hy as [Hy _]. apply in_map_iff. now exists y.
Qed.

Lemma no_association {RL : RateLimiter} (st : Store) (taskId labelId : Id) :
  existsb (fun tl => tl_labelId tl =? labelId)
    (filter (fun tl => tl_taskId tl =? taskId) (taskLabels st)) = false
  <-> ~ In (taskId, labelId) (map pair_key (taskLabels st)).
Proof.
  split.
  - intros H Hin. apply in_map_iff in Hin as [tl [Ek Htl]].
    unfold pair_key in Ek. inversion Ek; subst.
    assert (E : existsb (fun x => tl_labelId x =? tl_labelId tl)
                  (filter (fun x => tl_taskId x =? tl_taskId tl)
                     (taskLabels st)) = true).
    { apply existsb_exists. exists tl. split; [|apply Nat.eqb_refl].
      apply filter_In. split; [exact Htl|apply Nat.eqb_refl]. }
    congruence.
  - intros H. destruct (existsb _ _) eqn:E; [|reflexivity].
    exfalso. apply H. apply existsb_exists in E as [tl [Hin El]].
    apply filter_In in Hin as [Hin Et].
    apply Nat.eqb_eq in El, Et. apply in_map_iff. exists tl.
    split; [|exact Hin]. unfold pair_key. now rewrite El, Et.
Qed.

Section Associations.
Context {RL : RateLimiter}.

Lemma unique_pairs_delete (st : Store) (q : TaskLabel -> bool) :
  unique_pairs st ->
  unique_pairs (set_taskLabels (filter q (taskLabels st)) st).
Proof. unfold unique_pairs. simpl. apply NoDup_map_filter_key. Qed.

Lemma addToTask_unique_pairs ctx st taskId labelId :
  unique_pairs st ->
  unique_pairs (snd (mutation (EpLabels.addToTask taskId labelId) ctx st)).
Proof.
  intros H. unfold mutation, EpLabels.addToTask. unfold_layers.
  unfold_monad. simpl.
  destruct (auth ctx) as [u|]; [|exact H].
  destruct (rl_limit Limit.addLabelToTask u (now ctx) (limiter st))
    as [[|ra] l']; [|exact H].
  simpl.
  destruct (find (has_id tasksT taskId) (tasks st)) as [task|]; [|exact H].
  destruct (negb (str_eqb (t_userId task) u)); [exact H|]. simpl.
  destruct (find (has_id labelsT labelId) (labels st)) as [label|];
    [|exact H].
  destruct (negb (str_eqb (l_userId label) u)); [exact H|]. simpl.
  destruct (existsb _ _) eqn:Eex; [exact H|].
  apply no_association in Eex.
  unfold unique_pairs. simpl. rewrite map_app. simpl.
  apply Permutation_NoDup
    with (l := (taskId, labelId) :: map pair_key (taskLabels st)).
  - apply Permutation_cons_append.
  - constructor; assumption.
Qed.

Lemma step_unique_pairs ctx r st :
  unique_pairs st -> unique_pairs (step ctx r st).
Proof.
  intros H. destruct r; simpl;
    try (apply addToTask_unique_pairs; exact H);
    apply preserves_mutation; try exact H.
  all: first
    [ unfold EpTasks.create | unfold EpTasks.update | unfold EpTasks.reorder
    | unfold EpTasks.remove | unfold EpLabels.create | unfold EpLabels.update
    | unfold EpLabels.remove
    | unfold EpLabels.removeFromTask | unfold EpComments.create
    | unfold EpComments.remove | unfold EpPreferences.update
    | unfold EpAi.createThread | unfold EpAi.sendMessage
    | unfold EpAi.updateThread | unfold EpAi.deleteThread ].
  all: walk ltac:(first
    [ intros ? ? ?; assumption
    | intros ? ?; assumption
    | intros ? ?; apply unique_pairs_delete; assumption ]).
Qed.

Lemma reachable_unique_pairs st : reachable st -> unique_pairs st.
Proof.
  induction 1 as [l|ctx r st Hr IH].
  - constructor.
  - now apply step_unique_pairs.
Qed.

(** X7. In every store the application can reach no label is attached
    twice to the same task. From such a store, [labels.addToTask] for a
    task and a label of the caller that are already associated fails with
    [InvalidArgument] and commits nothing. *)
Theorem associations_never_duplicated (st : Store) :
  reachable st ->
  unique_pairs st
  /\ (forall ctx u task label tl,
        auth ctx = Some u ->
        fst (rl_limit Limit.addLabelToTask u (now ctx) (limiter st))
          = Limit.Ok ->
        find (has_id tasksT (t_id task)) (tasks st) = Some task ->
        t_userId task = u ->
        find (has_id labelsT (l_id label)) (labels st) = Some label ->
        l_userId label = u ->
        In tl (taskLabels st) ->
        tl_taskId tl = t_id task ->
        tl_labelId tl = l_id label ->
        mutation (EpLabels.addToTask (t_id task) (l_id label)) ctx st
        = (Throw InvalidArgument, st)).
Proof.
  intros Hreach. split; [now apply reachable_unique_pairs|].
  intros ctx u task label tl Hauth Hrl Ht Hto Hl Hlo Hin Etl Ell.
  assert (Eex : existsb (fun x => tl_labelId x =? l_id label)
                  (filter (fun x => tl_taskId x =? t_id task)
                     (taskLabels st)) = true).
  { apply existsb_exists. exists tl. split; [|now apply Nat.eqb_eq].
    apply filter_In. split; [exact Hin|now apply Nat.eqb_eq]. }
  unfold mutation, EpLabels.addToTask. unfold_layers. unfold_monad. simpl.
  rewrite Hauth.
  destruct (rl_limit Limit.addLabelToTask u (now ctx) (limiter st))
    as [s l']. simpl in Hrl. subst s. simpl.
  rewrite Ht, Hto, str_eqb_refl. simpl.
  rewrite Hl, Hlo, str_eqb_refl. simpl.
  now rewrite Eex.
Qed.

(** X8. When the owner removes a label in a reachable store the call
    succeeds; afterwards the label is gone, no association refers to it,
    the associations of other labels are all still there, and tasks are
    untouched. *)
Theorem label_remove_cascades ctx st u label :
  reachable st ->
  auth ctx = Some u ->
  fst (rl_limit Limit.deleteLabel u (now ctx) (limiter st)) = Limit.Ok ->
  find (has_id labelsT (l_id label)) (labels st) = Some label ->
  l_userId label = u ->
  let out := mutation (EpLabels.remove (l_id label)) ctx st in
  fst out = Return (l_id label)
  /\ find (has_id labelsT (l_id label)) (labels (snd out)) = None
  /\ (forall tl, In tl (taskLabels (snd out)) <->
                 In tl (taskLabels st) /\ tl_labelId tl <> l_id label)
  /\ (forall l, In l (labels (snd out)) <->
                In l (labels st) /\ l_id l <> l_id label)
  /\ tasks (snd out) = tasks st.
Proof.
  intros Hreach Hauth Hrl Hfind Hown out. subst out.
  destruct (rl_limit Limit.deleteLabel u (now ctx) (limiter st))
    as [s l'] eqn:El. simpl in Hrl. subst s.
  rewrite (label_remove_owned ctx st u l' (l_id label) label); auto;
    [|now apply reachable_wf].
  simpl. repeat split.
  - apply (find_filter_gone l_id).
  - now apply filter_In in H.
  - apply filter_In in H as [_ H]. intros E. rewrite E, Nat.eqb_refl in H.
    discriminate.
  - intros [Hin Hne]. apply filter_In. split; [exact Hin|].
    now apply negb_true_iff, Nat.eqb_neq.
  - now apply filter_In in H.
  - apply filter_In in H as [_ H]. intros E. rewrite E, Nat.eqb_refl in H.
    discriminate.
  - intros [Hin Hne]. apply filter_In. split; [exact Hin|].
    now apply negb_true_iff, Nat.eqb_neq.
Qed.

(** X9. When the owner deletes a thread in a reachable store the call
    succeeds; afterwards the thread is gone, none of its messages is left,
    and the messages of every other thread are all still there. *)
Theorem thread_delete_cascades ctx st u thread :
  reachable st ->
  auth ctx = Some u ->
  fst (rl_limit Limit.deleteThread u (now ctx) (limiter st)) = Limit.Ok ->
  find (has_id threadsT (th_id thread)) (threads st) = Some thread ->
  th_userId thread = u ->
  let out := mutation (EpAi.deleteThread (th_id thread)) ctx st in
  fst out = Return (th_id thread)
  /\ find (has_id threadsT (th_id thread)) (threads (snd out)) = None
  /\ (forall m, In m (messages (snd out)) <->
                In m (messages st) /\ m_threadId m <> th_id thread)
  /\ (forall t, In t (threads (snd out)) <->
                In t (threads st) /\ th_id t <> th_id thread).
Proof.
  intros Hreach Hauth Hrl Hfind Hown out. subst out.
  destruct (rl_limit Limit.deleteThread u (now ctx) (limiter st))
    as [s l'] eqn:El. simpl in Hrl. subst s.
  rewrite (thread_delete_owned ctx st u l' (th_id thread) thread); auto;
    [|now apply reachable_wf].
  simpl. repeat split.
  - apply (find_filter_gone th_id).
  - now apply filter_In in H.
  - apply filter_In in H as [_ H]. intros E. rewrite E, Nat.eqb_refl in H.
    discriminate.
  - intros [Hin Hne]. apply filter_In. split; [exact Hin|].
    now apply negb_true_iff, Nat.eqb_neq.
  - now apply filter_In in H.
  - apply filter_In in H as [_ H]. intros E. rewrite E, Nat.eqb_refl in H.
    discriminate.
  - intros [Hin Hne]. apply filter_In. split; [exact Hin|].
    now apply negb_true_iff, Nat.eqb_neq.
Qed.
End Associations.

(** ** References between documents *)

Section Refers.
Context {C P : Type}.
Variable key : C -> Id.
Variable cowner : C -> UserId.
Variable pid : P -> Id.
Variable powner : P -> UserId.

Lemma refers_app (ps : list P) (p : P) (cs : list C) :
  Forall (refers key cowner pid powner ps) cs ->
  Forall (refers key cowner pid powner (ps ++ [p])) cs.
Proof.
  intros H. eapply Forall_impl; [|exact H]. intros c [q [Hq E]].
  exists q. split; [apply in_or_app; now left|exact E].
Qed.

Lemma refers_patch (sel : P -> bool) (f : P -> P) (ps : list P)
    (cs : list C) :
  (forall x, pid (f x) = pid x /\ powner (f x) = powner x) ->
  Forall (refers key cowner pid powner ps) cs ->
  Forall (refers key cowner pid powner
            (map (fun r => if sel r then f r else r) ps)) cs.
Proof.
  intros Hf H. eapply Forall_impl; [|exact H]. intros c [q [Hq [E1 E2]]].
  exists (if sel q then f q else q). split.
  - apply in_map_iff. now exists q.
  - destruct (sel q); [|now split]. destruct (Hf q) as [-> ->]. now split.
Qed.

Lemma refers_filter (q : C -> bool) (ps : list P) (cs : list C) :
  Forall (refers key cowner pid powner ps) cs ->
  Forall (refers key cowner pid powner ps) (filter q cs).
Proof.
  intros H. apply Forall_forall. intros c Hc.
  apply filter_In in Hc as [Hc _]. rewrite Forall_forall in H. now apply H.
Qed.

Lemma refers_remove (x : Id) (ps : list P) (cs : list C) :
  Forall (refers key cowner pid powner ps) cs ->
  Forall (refers key cowner pid powner
            (filter (fun p => negb (pid p =? x)) ps))
    (filter (fun c => negb (key c =? x)) cs).
Proof.
  intros H. apply Forall_forall. intros c Hc.
  apply filter_In in Hc as [Hc Hne]. rewrite Forall_forall in H.
  destruct (H c Hc) as [p [Hp [E1 E2]]]. exists p. split; [|now split].
  apply filter_In. split; [exact Hp|]. now rewrite E1.
Qed.

Lemma refers_snoc (ps : list P) (cs : list C) (c : C) (p : P) :
  find (fun r => pid r =? key c) ps = Some p ->
  powner p = cowner c ->
  Forall (refers key cowner pid powner ps) cs ->
  Forall (refers key cowner pid powner ps) (cs ++ [c]).
Proof.
  intros Hf Ho H. apply Forall_app. split; [exact H|].
  constructor; [|constructor]. apply find_some in Hf as [Hin E].
  exists p. split; [exact Hin|]. split; [now apply Nat.eqb_eq|exact Ho].
Qed.
End Refers.

Ltac integrity_side :=
  let H := fresh "H" in
  first
    [ intros ? ? H; exact H
    | intros ? H; exact H
    | intros ? H;
      unfold integrity, comments_refer, associations_refer, messages_refer
        in *;
      simpl in *;
      destruct H as (Hc & (Ht & Hl) & Hm);
      repeat match goal with |- _ /\ _ => split end;
      first
        [ assumption
        | apply refers_app; assumption
        | apply refers_patch; [intros ?; split; reflexivity|assumption]
        | apply refers_filter; assumption ] ].

Section Integrity.
Context {RL : RateLimiter}.

Lemma step_integrity ctx r st :
  wf st -> integrity st -> integrity (step ctx r st).
Proof.
  intros Hwf H. destruct r; simpl.
  - (* tasks.create *)
    apply preserves_mutation; [|exact H]. unfold EpTasks.create.
    walk integrity_side.
  - (* tasks.update *)
    apply preserves_mutation; [|exact H]. unfold EpTasks.update.
    walk integrity_side.
  - (* tasks.reorder *)
    apply preserves_mutation; [|exact H]. unfold EpTasks.reorder.
    walk integrity_side.
  - (* tasks.remove *)
    destruct (task_remove_outcome ctx st id Hwf) as [->|[u [l' [task ->]]]];
      [exact H|].
    destruct H as (Hc & (Ht & Hl) & Hm).
    unfold integrity, comments_refer, associations_refer, messages_refer.
    simpl. repeat split.
    + now apply refers_remove.
    + now apply refers_remove.
    + now apply refers_filter.
    + exact Hm.
  - (* labels.create *)
    apply preserves_mutation; [|exact H]. unfold EpLabels.create.
    walk integrity_side.
  - (* labels.update *)
    apply preserves_mutation; [|exact H]. unfold EpLabels.update.
    walk integrity_side.
  - (* labels.remove *)
    destruct (label_remove_outcome ctx st id Hwf) as [->|[l' ->]];
      [exact H|].
    destruct H as (Hc & (Ht & Hl) & Hm).
    unfold integrity, comments_refer, associations_refer, messages_refer.
    simpl. repeat split.
    + exact Hc.
    + now apply refers_filter.
    + now apply refers_remove.
    + exact Hm.
  - (* labels.addToTask *)
    unfold mutation, EpLabels.addToTask. unfold_layers. unfold_monad. simpl.
    destruct (auth ctx) as [u|]; [|exact H].
    destruct (rl_limit Limit.addLabelToTask u (now ctx) (limiter st))
      as [[|ra] l']; [|exact H].
    simpl.
    destruct (find (has_id tasksT taskId) (tasks st)) as [task|] eqn:Eft;
      [|exact H].
    destruct (str_eqb (t_userId task) u) eqn:Eto; [|exact H]. simpl.
    destruct (find (has_id labelsT labelId) (labels st)) as [label|] eqn:Efl;
      [|exact H].
    destruct (str_eqb (l_userId label) u) eqn:Elo; [|exact H]. simpl.
    destruct (existsb _ _); [exact H|].
    apply str_eqb_eq in Eto, Elo.
    destruct H as (Hc & (Ht & Hl) & Hm).
    unfold integrity, comments_refer, associations_refer, messages_refer.
    simpl. repeat split; try assumption.
    + now apply (refers_snoc _ _ _ _ _ _ _ task).
    + now apply (refers_snoc _ _ _ _ _ _ _ label).
  - (* labels.removeFromTask *)
    apply preserves_mutation; [|exact H]. unfold EpLabels.removeFromTask.
    walk integrity_side.
  - (* comments.create *)
    unfold mutation, EpComments.create. unfold_layers. unfold_monad. simpl.
    destruct (auth ctx) as [u|]; [|exact H].
    destruct (rl_limit Limit.createComment u (now ctx) (limiter st))
      as [[|ra] l']; [|exact H].
    simpl.
    destruct (find (has_id tasksT taskId) (tasks st)) as [task|] eqn:Eft;
      [|exact H].
    destruct (str_eqb (t_userId task) u) eqn:Eto; [|exact H]. simpl.
    destruct (negb (isValidCommentContent _)); [exact H|].
    apply str_eqb_eq in Eto.
    destruct H as (Hc & (Ht & Hl) & Hm).
    unfold integrity, comments_refer, associations_refer, messages_refer.
    simpl. repeat split; try assumption.
    now apply (refers_snoc _ _ _ _ _ _ _ task).
  - (* comments.remove *)
    apply preserves_mutation; [|exact H]. unfold EpComments.remove.
    walk integrity_side.
  - (* preferences.update *)
    apply preserves_mutation; [|exact H]. unfold EpPreferences.update.
    walk integrity_side.
  - (* ai.createThread *)
    apply preserves_mutation; [|exact H]. unfold EpAi.createThread.
    walk integrity_side.
  - (* ai.sendMessage *)
    unfold mutation, EpAi.sendMessage. unfold_layers. unfold_monad. simpl.
    destruct (auth ctx) as [u|]; [|exact H].
    destruct (rl_limit Limit.sendMessage u (now ctx) (limiter st))
      as [[|ra] l']; [|exact H].
    simpl.
    destruct (find (has_id threadsT threadId) (threads st))
      as [thread|] eqn:Eft; [|exact H].
    destruct (str_eqb (th_userId thread) u) eqn:Eto; [|exact H]. simpl.
    destruct (negb (isValidMessageContent _)); [exact H|].
    apply str_eqb_eq in Eto.
    destruct H as (Hc & (Ht & Hl) & Hm).
    unfold integrity, comments_refer, associations_refer, messages_refer.
    simpl. repeat split; try assumption.
    now apply (refers_snoc _ _ _ _ _ _ _ thread).
  - (* ai.updateThread *)
    apply preserves_mutation; [|exact H]. unfold EpAi.updateThread.
    walk integrity_side.
  - (* ai.deleteThread *)
    destruct (thread_delete_outcome ctx st threadId Hwf) as [->|[l' ->]];
      [exact H|].
    destruct H as (Hc & (Ht & Hl) & Hm).
    unfold integrity, comments_refer, associations_refer, messages_refer.
    simpl. repeat split; try assumption.
    now apply refers_remove.
Qed.

Lemma reachable_integrity st : reachable st -> integrity st.
Proof.
  induction 1 as [l|ctx r st Hr IH].
  - repeat split; constructor.
  - apply step_integrity; [now apply reachable_wf|exact IH].
Qed.

(** X10. In every store the application can reach, every comment is on a
    task that is still stored and belongs to the comment's author: removing
    a task leaves no orphaned comment, and nobody comments on another
    user's task. *)
Theorem comments_refer_to_own_tasks (st : Store) :
  reachable st ->
  forall c, In c (taskComments st) ->
    exists t, In t (tasks st) /\ t_id t = c_taskId c
              /\ t_userId t = c_userId c.
Proof.
  intros Hreach c Hc. apply reachable_integrity in Hreach as (H & _).
  unfold comments_refer in H. rewrite Forall_forall in H. now apply H.
Qed.

(** X11. In every store the application can reach, every association joins
    a task and a label that are both still stored and both belong to the
    association's owner. *)
Theorem associations_refer_to_own_documents (st : Store) :
  reachable st ->
  forall tl, In tl (taskLabels st) ->
    (exists t, In t (tasks st) /\ t_id t = tl_taskId tl
               /\ t_userId t = tl_userId tl)
    /\ (exists l, In l (labels st) /\ l_id l = tl_labelId tl
                  /\ l_userId l = tl_userId tl).
Proof.
  intros Hreach tl Htl.
  apply reachable_integrity in Hreach as (_ & (Ht & Hl) & _).
  rewrite Forall_forall in Ht, Hl. split; [now apply Ht|now apply Hl].
Qed.

(** X12. In every store the application can reach, every message is in a
    thread that is still stored and belongs to the message's author. *)
Theorem messages_refer_to_own_threads (st : Store) :
  reachable st ->
  forall m, In m (messages st) ->
    exists t, In t (threads st) /\ th_id t = m_threadId m
              /\ th_userId t = m_userId m.
Proof.
  intros Hreach m Hm. apply reachable_integrity in Hreach as (_ & _ & H).
  unfold messages_refer in H. rewrite Forall_forall in H. now apply H.
Qed.
End Integrity.

(** ** Creating documents *)

Lemma Math_max_ge (l : list Z) : forall x,
  (x <= Tasks.Math_max x l)%Z
  /\ Forall (fun y => (y <= Tasks.Math_max x l)%Z) l.
Proof.
  unfold Tasks.Math_max. induction l as [|y l IH]; simpl; intros x.
  - split; [lia|constructor].
  - destruct (IH (Z.max x y)) as [H1 H2]. split; [lia|].
    constructor; [lia|exact H2].
Qed.

Lemma max_order_bound (l : list Task) (t : Task) :
  In t l ->
  (t_order t <= match map t_order l with
                | [] => 0
                | x :: xs => Tasks.Math_max x xs
                end)%Z.
Proof.
  intros Hin. apply (in_map t_order) in Hin.
  destruct (map t_order l) as [|x xs]; [contradiction|].
  destruct (Math_max_ge xs x) as [H1 H2]. destruct Hin as [<-|Hin].
  - exact H1.
  - rewrite Forall_forall in H2. now apply H2.
Qed.

Lemma Math_max_in (l : list Z) : forall x,
  In (Tasks.Math_max x l) (x :: l).
Proof.
  unfold Tasks.Math_max. induction l as [|y l IH]; simpl; intros x.
  - now left.
  - destruct (IH (Z.max x y)) as [E|H]; [|right; now right].
    rewrite <- E. destruct (Z.max_spec x y) as [[_ ->]|[_ ->]].
    + right. now left.
    + now left.
Qed.

(** Integers of magnitude up to [2 ^ 53] are float64 values. *)
Lemma toFloat64_exact (n : Z) :
  (- 2 ^ 53 <= n <= 2 ^ 53)%Z -> toFloat64 n = n.
Proof.
  intros H.
  destruct (Z.eq_dec n (2 ^ 53)) as [->|Hhi]; [reflexivity|].
  destruct (Z.eq_dec n (- 2 ^ 53)) as [->|Hlo]; [reflexivity|].
  unfold toFloat64.
  assert (Hlog : (Z.log2 (Z.abs n) - 52 <= 0)%Z).
  { destruct (Z.eq_dec (Z.abs n) 0) as [->|Hz]; [simpl; lia|].
    assert (Z.log2 (Z.abs n) < 53)%Z; [|lia].
    apply Z.log2_lt_pow2; lia. }
  apply Z.leb_le in Hlog. now rewrite Hlog.
Qed.

Lemma isValidCommentContent_spec (content : jsstring) :
  isValidCommentContent (sanitizeString content) = true
  <-> (1 <= jslength (trim content) <= 5000)%Z.
Proof.
  unfold isValidCommentContent, sanitizeString. rewrite trim_idem.
  rewrite andb_true_iff, Z.ltb_lt, Z.leb_le. lia.
Qed.

Lemma isValidMessageContent_spec (content : jsstring) :
  isValidMessageContent (sanitizeString content) = true
  <-> (1 <= jslength (trim content) <= 10000)%Z.
Proof.
  unfold isValidMessageContent, sanitizeString. rewrite trim_idem.
  rewrite andb_true_iff, Z.ltb_lt, Z.leb_le. lia.
Qed.

Lemma trim_nil_invalid (t : jsstring) :
  trim t = [] -> isValidTaskTitle (sanitizeString t) = false.
Proof.
  intros E. unfold isValidTaskTitle, sanitizeString.
  rewrite trim_idem, E. reflexivity.
Qed.

Section Creating.
Context {RL : RateLimiter}.

(** X13. A [tasks.create] that passes validation returns the id of one new
    task of the caller, in status [todo], with the sanitized title, and
    logs one [created] record for it; nothing else is added. Its order is
    1 when the caller has no [todo] task; it is greater than the order of
    every [todo] task the caller has when these orders are below [2 ^ 53]
    in magnitude, where adding 1 is exact; when the greatest of them is
    [2 ^ 53] the addition rounds back and the new task gets that same
    order. *)
Theorem create_appends_last_todo
    ctx st u title description priority dueDate :
  auth ctx = Some u ->
  fst (rl_limit Limit.createTask u (now ctx) (limiter st)) = Limit.Ok ->
  isValidTaskTitle (sanitizeString title) = true ->
  truthyOpt description && negb (isValidTaskDescription description)
    = false ->
  let out :=
    mutation (EpTasks.create title description priority dueDate) ctx st in
  exists order,
    fst out = Return (nextId st)
    /\ tasks (snd out) =
       tasks st ++ [mkTask (nextId st) u (sanitizeString title) description
                      todo priority dueDate None order (now ctx) (now ctx)]
    /\ taskActivity (snd out) =
       taskActivity st ++ [mkActivity (S (nextId st)) u (nextId st) created
                             None
                             (Some (VCreated (sanitizeString title) priority))
                             (now ctx)]
    /\ (todoTasks st u = [] -> order = 1%Z)
    /\ (Forall (fun t => (- 2 ^ 53 < t_order t < 2 ^ 53)%Z)
          (todoTasks st u) ->
        forall t, In t (todoTasks st u) -> (t_order t < order)%Z)
    /\ (forall t,
          In t (todoTasks st u) -> t_order t = (2 ^ 53)%Z ->
          Forall (fun t' => (t_order t' <= 2 ^ 53)%Z) (todoTasks st u) ->
          order = (2 ^ 53)%Z)
    /\ labels (snd out) = labels st
    /\ taskComments (snd out) = taskComments st
    /\ taskLabels (snd out) = taskLabels st.
Proof.
  intros Hauth Hrl Htitle Hdesc out. subst out.
  remember (2 ^ 53)%Z as big eqn:Ebig.
  unfold mutation, EpTasks.create. unfold_layers. unfold_monad. simpl.
  rewrite Hauth.
  destruct (rl_limit Limit.createTask u (now ctx) (limiter st)) as [s l'].
  simpl in Hrl. subst s. simpl. rewrite Htitle, Hdesc. simpl.
  fold (todoTasks st u).
  destruct (sortByKey_spec t_order (todoTasks st u)) as [Hperm _].
  assert (Hto : forall t, In t (todoTasks st u) ->
                  In (t_order t)
                    (map t_order (sortByKey t_order (todoTasks st u)))).
  { intros t Ht. apply in_map.
    exact (Permutation_in t (Permutation_sym Hperm) Ht). }
  assert (Hfrom : forall z,
            In z (map t_order (sortByKey t_order (todoTasks st u))) ->
            exists t, In t (todoTasks st u) /\ t_order t = z).
  { intros z Hz. apply in_map_iff in Hz as [t [E Ht]].
    exists t. split; [exact (Permutation_in t Hperm Ht)|exact E]. }
  assert (Hnil : todoTasks st u = [] ->
                 map t_order (sortByKey t_order (todoTasks st u)) = []).
  { intros E. rewrite E. reflexivity. }
  destruct (map t_order (sortByKey t_order (todoTasks st u))) as [|x xs];
    simpl; eexists; repeat split.
  - intros _ t Ht. destruct (Hto t Ht).
  - intros t Ht. destruct (Hto t Ht).
  - intros E. specialize (Hnil E). discriminate Hnil.
  - intros Hsafe t Ht. rewrite Forall_forall in Hsafe.
    destruct (Hfrom _ (Math_max_in xs x)) as [t' [Ht' Em]].
    pose proof (Hsafe t' Ht') as Hm. rewrite Em in Hm.
    destruct (Math_max_ge xs x) as [H1 H2].
    assert (Hle : (t_order t <= Tasks.Math_max x xs)%Z).
    { destruct (Hto t Ht) as [<-|Hin]; [exact H1|].
      rewrite Forall_forall in H2. now apply H2. }
    unfold float64_add. rewrite toFloat64_exact; lia.
  - intros t Ht E Hall. rewrite Forall_forall in Hall.
    destruct (Hfrom _ (Math_max_in xs x)) as [t' [Ht' Em]].
    pose proof (Hall t' Ht') as Hm. rewrite Em in Hm.
    destruct (Math_max_ge xs x) as [H1 H2].
    assert (Hle : (t_order t <= Tasks.Math_max x xs)%Z).
    { destruct (Hto t Ht) as [<-|Hin]; [exact H1|].
      rewrite Forall_forall in H2. now apply H2. }
    assert (Emax : Tasks.Math_max x xs = big) by lia.
    rewrite Emax, Ebig. reflexivity.
Qed.

(** X14. Neither [tasks.create] nor [tasks.update] looks at the value of
    the due date: a call that is otherwise accepted stores the due date it
    is given, also a date that is not in the future, which [isValidDueDate]
    refuses. *)
Theorem due_date_stored_unchecked ctx st u d :
  auth ctx = Some u ->
  (forall n, fst (rl_limit n u (now ctx) (limiter st)) = Limit.Ok) ->
  d <> 0%Z -> (d <= now ctx)%Z ->
  isValidDueDate (Some (Num d)) (now ctx) = false
  /\ (forall title priority,
        isValidTaskTitle (sanitizeString title) = true ->
        exists t,
          tasks (snd (mutation
                        (EpTasks.create title None priority (Some (Num d)))
                        ctx st)) = tasks st ++ [t]
          /\ t_dueDate t = Some (Num d))
  /\ (forall task,
        find (has_id tasksT (t_id task)) (tasks st) = Some task ->
        t_userId task = u ->
        let args :=
          EpTasks.mkUpdateArgs (t_id task) None None None None (Some (Num d)) in
        let out := mutation (EpTasks.update args) ctx st in
        fst out = Return (t_id task)
        /\ exists t',
             find (has_id tasksT (t_id task)) (tasks (snd out)) = Some t'
             /\ t_dueDate t' = Some (Num d)).
Proof.
  intros Hauth Hrl Hd0 Hd. split; [|split].
  - unfold isValidDueDate, isFalsy, greaterThan.
    apply Z.eqb_neq in Hd0. rewrite Hd0. apply Z.ltb_ge. exact Hd.
  - intros title priority Htitle.
    destruct (create_returns ctx st title None priority (Some (Num d))
                (nextId st)
                (snd (mutation
                        (EpTasks.create title None priority (Some (Num d)))
                        ctx st)))
      as [u' [order [_ [_ E]]]].
    + apply returned.
      unfold mutation, EpTasks.create. unfold_layers. unfold_monad. simpl.
      rewrite Hauth. pose proof (Hrl Limit.createTask) as E.
      destruct (rl_limit Limit.createTask u (now ctx) (limiter st))
        as [s l']. simpl in E. subst s. simpl. rewrite Htitle. simpl.
      now destruct (map t_order _).
    + eexists. split; [exact E|reflexivity].
  - intros task Hfind Hown args out. subst args out.
    pose proof (find_existsb _ _ _ Hfind) as Hex.
    pose proof (find_patched t_id (t_id task)
                  (Tasks.applyPatch
                     (Tasks.mkPatch None None None None (Some (Num d)) None
                        None)
                     (now ctx))
                  (tasks st) task (fun x => eq_refl) Hfind) as Hfind'.
    revert Hfind'.
    unfold mutation, EpTasks.update. unfold_layers. unfold_monad. simpl.
    rewrite Hauth. pose proof (Hrl Limit.updateTask) as E.
    destruct (rl_limit Limit.updateTask u (now ctx) (limiter st)) as [s l'].
    simpl in E. subst s. simpl.
    unfold has_id in *. simpl in *.
    rewrite Hfind, Hown, str_eqb_refl. simpl. rewrite Hex. simpl.
    intros Hfind'. split; [reflexivity|].
    eexists. split; [exact Hfind'|reflexivity].
Qed.

(** X15. [tasks.update] tests the title for truthiness before validating
    it: an empty title is ignored (the call succeeds, the title stays and a
    generic record is logged), while a non-empty title of white space only
    is refused. *)
Theorem update_empty_title_ignored ctx st u task :
  auth ctx = Some u ->
  fst (rl_limit Limit.updateTask u (now ctx) (limiter st)) = Limit.Ok ->
  find (has_id tasksT (t_id task)) (tasks st) = Some task ->
  t_userId task = u ->
  (let args :=
     EpTasks.mkUpdateArgs (t_id task) (Some []) None None None None in
   let out := mutation (EpTasks.update args) ctx st in
   fst out = Return (t_id task)
   /\ find (has_id tasksT (t_id task)) (tasks (snd out))
      = Some (touch (now ctx) task)
   /\ exists a,
        taskActivity (snd out) = taskActivity st ++ [a]
        /\ a_action a = updated /\ a_taskId a = t_id task)
  /\ (forall title,
        title <> [] -> trim title = [] ->
        mutation (EpTasks.update
                    (EpTasks.mkUpdateArgs (t_id task) (Some title) None None
                       None None)) ctx st
        = (Throw InvalidArgument, st)).
Proof.
  intros Hauth Hrl Hfind Hown. split.
  - intros args out. subst args out.
    pose proof (find_existsb _ _ _ Hfind) as Hex.
    pose proof (find_patched t_id (t_id task)
                  (Tasks.applyPatch Tasks.emptyPatch (now ctx))
                  (tasks st) task (fun x => eq_refl) Hfind) as Hfind'.
    revert Hfind'.
    unfold mutation, EpTasks.update. unfold_layers. unfold_monad. simpl.
    rewrite Hauth.
    destruct (rl_limit Limit.updateTask u (now ctx) (limiter st)) as [s l'].
    simpl in Hrl. subst s. simpl.
    unfold has_id in *. simpl in *.
    rewrite Hfind, Hown, str_eqb_refl. simpl. rewrite Hex. simpl.
    intros Hfind'. split; [reflexivity|]. split.
    + etransitivity; [exact Hfind'|]. destruct task; reflexivity.
    + eexists. split; [reflexivity|]. split; reflexivity.
  - intros title Hne Htrim.
    unfold mutation, EpTasks.update. unfold_layers. unfold_monad. simpl.
    rewrite Hauth.
    destruct (rl_limit Limit.updateTask u (now ctx) (limiter st)) as [s l'].
    simpl in Hrl. subst s. simpl.
    unfold has_id in *. simpl in *.
    rewrite Hfind, Hown, str_eqb_refl. simpl.
    rewrite (trim_nil_invalid _ Htrim).
    destruct title as [|c title]; [contradiction|]. reflexivity.
Qed.

(** X16. [comments.create] by the owner of the task: the trimmed content
    must have between 1 and 5000 characters; an accepted call appends one
    comment holding the trimmed content, of type [user_note] unless a type
    is given, and touches no task. *)
Theorem comments_create_outcome ctx st u task content type :
  auth ctx = Some u ->
  fst (rl_limit Limit.createComment u (now ctx) (limiter st)) = Limit.Ok ->
  find (has_id tasksT (t_id task)) (tasks st) = Some task ->
  t_userId task = u ->
  let out := mutation (EpComments.create (t_id task) content type) ctx st in
  ((1 <= jslength (trim content) <= 5000)%Z ->
   fst out = Return (nextId st)
   /\ taskComments (snd out) =
      taskComments st ++ [mkComment (nextId st) (t_id task) u (trim content)
                            (match type with
                             | Some ty => ty
                             | None => user_note
                             end) (now ctx)]
   /\ tasks (snd out) = tasks st
   /\ taskActivity (snd out) = taskActivity st)
  /\ (~ (1 <= jslength (trim content) <= 5000)%Z ->
      out = (Throw InvalidArgument, st)).
Proof.
  intros Hauth Hrl Hfind Hown out. subst out.
  pose proof (isValidCommentContent_spec content) as Hspec.
  unfold mutation, EpComments.create. unfold_layers. unfold_monad. simpl.
  rewrite Hauth.
  destruct (rl_limit Limit.createComment u (now ctx) (limiter st))
    as [s l']. simpl in Hrl. subst s. simpl.
  unfold has_id in *. simpl in *.
  rewrite Hfind, Hown, str_eqb_refl. simpl.
  destruct (isValidCommentContent (sanitizeString content)); simpl.
  - split; [|intros H; exfalso; apply H; now apply Hspec].
    intros _. destruct type; repeat split.
  - split; [|reflexivity].
    intros H. apply Hspec in H. discriminate H.
Qed.

(** X17. [ai.sendMessage] by the owner of the thread: the trimmed content
    must have between 1 and 10000 characters; an accepted call appends one
    message of role [user] holding the trimmed content, and [ai.getThread]
    then shows it last in the thread. *)
Theorem sendMessage_outcome ctx st u thread content :
  auth ctx = Some u ->
  fst (rl_limit Limit.sendMessage u (now ctx) (limiter st)) = Limit.Ok ->
  find (has_id threadsT (th_id thread)) (threads st) = Some thread ->
  th_userId thread = u ->
  let out := mutation (EpAi.sendMessage (th_id thread) content) ctx st in
  let new :=
    mkMessage (nextId st) (th_id thread) u user (trim content) (now ctx) in
  ((1 <= jslength (trim content) <= 10000)%Z ->
   fst out = Return (nextId st)
   /\ messages (snd out) = messages st ++ [new]
   /\ forall ctx',
        auth ctx' = Some u ->
        query (EpAi.getThread (th_id thread)) ctx' (snd out)
        = Return (thread,
                  filter (fun m => m_threadId m =? th_id thread)
                    (messages st) ++ [new]))
  /\ (~ (1 <= jslength (trim content) <= 10000)%Z ->
      out = (Throw InvalidArgument, st)).
Proof.
  intros Hauth Hrl Hfind Hown out new. subst out new.
  pose proof (isValidMessageContent_spec content) as Hspec.
  unfold mutation, EpAi.sendMessage. unfold_layers. unfold_monad. simpl.
  rewrite Hauth.
  destruct (rl_limit Limit.sendMessage u (now ctx) (limiter st))
    as [s l']. simpl in Hrl. subst s. simpl.
  unfold has_id in *. simpl in *.
  rewrite Hfind, Hown, str_eqb_refl. simpl.
  destruct (isValidMessageContent (sanitizeString content)); simpl.
  - split; [|intros H; exfalso; apply H; now apply Hspec].
    intros _. split; [reflexivity|]. split; [reflexivity|].
    intros ctx' Hauth'.
    unfold query, EpAi.getThread. unfold_layers. unfold_monad. simpl.
    rewrite Hauth'. unfold has_id. simpl.
    rewrite Hfind, Hown, str_eqb_refl. simpl.
    rewrite filter_app. simpl. now rewrite Nat.eqb_refl.
  - split; [|reflexivity].
    intros H. apply Hspec in H. discriminate H.
Qed.
End Creating.

(** ** What the queries return *)

Lemma withStatus_ownedBy (s : TaskStatus) (u : UserId) (l : list Task) :
  filter (fun t => str_eqb (t_userId t) u && status_eqb (t_status t) s) l
  = withStatus s (ownedBy t_userId u l).
Proof. unfold withStatus, ownedBy. now rewrite filter_filter. Qed.

Lemma statuses_partition (l : list Task) :
  (count (withStatus todo l) + count (withStatus in_progress l)
   + count (withStatus completed l) = count l)%Z.
Proof.
  unfold count, withStatus. rewrite <- !Nat2Z.inj_add. f_equal.
  induction l as [|t l IH]; simpl; [reflexivity|].
  destruct (t_status t); simpl; lia.
Qed.

Lemma descending_opp {R} (key : R -> Z) (l : list R) :
  ascending (fun r => (- key r)%Z) l -> descending key l.
Proof.
  unfold ascending, descending. induction 1 as [|x l Hs IH Hall].
  - constructor.
  - constructor; [exact IH|].
    eapply Forall_impl; [|exact Hall]. simpl. intros; lia.
Qed.

Section Queries.
Context {RL : RateLimiter}.

(** X18. The counters agree: the total of [tasks.getCounts] and of
    [dashboard.summary] is the number of tasks the caller owns, the three
    status counters add up to it, and [dashboard.loadSummary] reports the
    same number of tasks and the same number of labels as
    [dashboard.summary]. *)
Theorem counters_agree ctx st u :
  auth ctx = Some u ->
  let mine := ownedBy t_userId u (tasks st) in
  let myLabels := ownedBy l_userId u (labels st) in
  exists c s perTable total,
    query EpTasks.getCounts ctx st = Return c
    /\ query EpDashboard.summary ctx st = Return s
    /\ query EpDashboard.loadSummary ctx st = Return (perTable, total)
    /\ EpTasks.cnt_total c = count mine
    /\ EpTasks.cnt_todo c = count (withStatus todo mine)
    /\ EpTasks.cnt_in_progress c = count (withStatus in_progress mine)
    /\ EpTasks.cnt_completed c = count (withStatus completed mine)
    /\ (EpTasks.cnt_todo c + EpTasks.cnt_in_progress c
        + EpTasks.cnt_completed c = EpTasks.cnt_total c)%Z
    /\ (EpDashboard.s_todo s, EpDashboard.s_inProgress s,
        EpDashboard.s_completed s, EpDashboard.s_total s)
       = (EpTasks.cnt_todo c, EpTasks.cnt_in_progress c,
          EpTasks.cnt_completed c, EpTasks.cnt_total c)
    /\ EpDashboard.s_labels s = count myLabels
    /\ In (str "tasks", EpTasks.cnt_total c) perTable
    /\ In (str "labels", EpDashboard.s_labels s) perTable
    /\ (total = EpTasks.cnt_total c
                + count (ownedBy c_userId u (taskComments st))
                + count (ownedBy a_userId u (taskActivity st))
                + count (ownedBy p_userId u (userPreferences st))
                + EpDashboard.s_labels s
                + count (ownedBy tl_userId u (taskLabels st))
                + count (ownedBy th_userId u (threads st))
                + count (ownedBy m_userId u (messages st)))%Z.
Proof.
  intros Hauth mine myLabels.
  pose proof (statuses_partition mine) as Hsum.
  unfold query, EpTasks.getCounts, EpDashboard.summary,
    EpDashboard.loadSummary, Tasks.countTasksByStatus,
    Tasks.getTasksByUserAndStatus, Labels.getLabelsByUser.
  unfold_layers. unfold_monad. simpl. rewrite Hauth. simpl.
  rewrite !withStatus_ownedBy. fold mine. rewrite length_rev.
  unfold EpDashboard.countOwned.
  rewrite !(filter_all_true (fun _ => true)) by reflexivity.
  unfold count, ownedBy in *.
  do 4 eexists. do 3 (split; [reflexivity|]). simpl.
  rewrite Hsum. repeat split; auto 10; lia.
Qed.

(** X19. [tasks.listByStatus] returns exactly the caller's tasks of the
    status asked for, arranged by ascending [order]. *)
Theorem listByStatus_sorted ctx st u s :
  auth ctx = Some u ->
  exists l,
    query (EpTasks.listByStatus s) ctx st = Return l
    /\ Permutation l (withStatus s (ownedBy t_userId u (tasks st)))
    /\ ascending t_order l.
Proof.
  intros Hauth.
  unfold query, EpTasks.listByStatus, Tasks.getTasksByUserStatusOrdered.
  unfold_layers. unfold_monad. simpl. rewrite Hauth. simpl.
  rewrite withStatus_ownedBy.
  eexists. split; [reflexivity|]. apply sortByKey_spec.
Qed.

(** X20. [dashboard.recent] returns the first 10 (fewer when there are
    fewer) of the caller's tasks arranged by descending [updatedAt]. *)
Theorem recent_ten_latest ctx st u :
  auth ctx = Some u ->
  exists l,
    query EpDashboard.recent ctx st = Return (firstn 10 l)
    /\ Permutation l (ownedBy t_userId u (tasks st))
    /\ descending t_updatedAt l.
Proof.
  intros Hauth.
  unfold query, EpDashboard.recent.
  unfold_layers. unfold_monad. simpl. rewrite Hauth. simpl.
  fold (ownedBy t_userId u (tasks st)).
  destruct (sortByKey_spec (fun t => (- t_updatedAt t)%Z)
              (rev (ownedBy t_userId u (tasks st)))) as [Hp Hs].
  eexists. split; [reflexivity|]. split.
  - rewrite Hp. symmetry. apply Permutation_rev.
  - now apply descending_opp.
Qed.

(** X21. The listing queries show a caller their own documents and nothing
    else: a document is in the answer of [tasks.list], [labels.list],
    [activity.getAll] or [ai.listThreads] exactly when it is stored and the
    caller owns it (and, for threads, has the status asked for). *)
Theorem listings_show_own_documents ctx st u :
  auth ctx = Some u ->
  (exists l, query EpTasks.list ctx st = Return l
             /\ forall t, In t l <-> In t (tasks st) /\ t_userId t = u)
  /\ (exists l, query EpLabels.list ctx st = Return l
                /\ forall x, In x l <-> In x (labels st) /\ l_userId x = u)
  /\ (exists l, query EpActivity.getAll ctx st = Return l
                /\ forall a,
                     In a l <-> In a (taskActivity st) /\ a_userId a = u)
  /\ (exists l, query (EpAi.listThreads None) ctx st = Return l
                /\ forall t, In t l <-> In t (threads st) /\ th_userId t = u)
  /\ (forall s,
        exists l, query (EpAi.listThreads (Some s)) ctx st = Return l
                  /\ forall t,
                       In t l <-> In t (threads st) /\ th_userId t = u
                                  /\ th_status t = s).
Proof.
  intros Hauth.
  unfold query, EpTasks.list, EpLabels.list, EpActivity.getAll,
    EpAi.listThreads, Labels.getLabelsByUser, Threads.getThreadsByUser,
    Threads.getThreadsByUserAndStatus.
  unfold_layers. unfold_monad. simpl. rewrite Hauth. simpl.
  repeat match goal with |- _ /\ _ => split end;
    try intros s; (eexists; split; [reflexivity|]); intros x;
    rewrite <- in_rev, filter_In;
    try rewrite andb_true_iff; rewrite str_eqb_eq; try reflexivity.
  assert (E : Threads.threadStatus_eqb (th_status x) s = true
              <-> th_status x = s).
  { destruct (th_status x), s; simpl; split; congruence. }
  rewrite E. tauto.
Qed.
End Queries.

(** ** helpers/formatting.ts and helpers/validation.ts *)

Lemma ago_not_just_now (n : Z) (unit : jsstring) :
  ago n unit <> str "just now".
Proof.
  unfold ago, decimal.
  destruct (Z.to_int n) as [d|d]; [destruct d|]; simpl; discriminate.
Qed.

Lemma slice0_length (text : jsstring) (e : Z) :
  jslength (slice0 text e)
  = if (e <? 0)%Z then Z.max (jslength text + e) 0
    else Z.min e (jslength text).
Proof.
  unfold slice0, jslength. rewrite length_firstn.
  destruct (e <? 0)%Z eqn:E; [apply Z.ltb_lt in E|apply Z.ltb_ge in E]; lia.
Qed.

(** X22. [truncateText] returns a text that fits unchanged; a longer text
    is cut to exactly [maxLength] characters ending in three dots when
    [maxLength] is at least 3; below 3 the subtraction turns the slice end
    negative, and the result is longer than [maxLength]. *)
Theorem truncateText_length (text : jsstring) (maxLength : Z) :
  ((jslength text <= maxLength)%Z -> truncateText text maxLength = text)
  /\ ((maxLength < jslength text)%Z ->
      (3 <= maxLength)%Z ->
      truncateText text maxLength
      = firstn (Z.to_nat (maxLength - 3)) text ++ str "..."
      /\ jslength (truncateText text maxLength) = maxLength)
  /\ ((maxLength < jslength text)%Z ->
      (maxLength < 3)%Z ->
      jslength (truncateText text maxLength)
      = Z.max (jslength text + maxLength) 3
      /\ (maxLength < jslength (truncateText text maxLength))%Z).
Proof.
  unfold truncateText. split; [|split].
  - intros H. apply Z.leb_le in H. now rewrite H.
  - intros H H3. apply Z.leb_gt in H. rewrite H. apply Z.leb_gt in H.
    assert (E : slice0 text (maxLength - 3)
                = firstn (Z.to_nat (maxLength - 3)) text).
    { unfold slice0.
      destruct (maxLength - 3 <? 0)%Z eqn:E; [apply Z.ltb_lt in E; lia|].
      f_equal. lia. }
    split; [now rewrite E|].
    unfold jslength at 1. rewrite length_app, Nat2Z.inj_add.
    fold (jslength (slice0 text (maxLength - 3))).
    rewrite slice0_length.
    destruct (maxLength - 3 <? 0)%Z eqn:E'; [apply Z.ltb_lt in E'; lia|].
    change (Z.of_nat (length (str "..."))) with 3%Z. lia.
  - intros H H3. apply Z.leb_gt in H. rewrite H. apply Z.leb_gt in H.
    unfold jslength at 1 3. rewrite length_app. rewrite Nat2Z.inj_add.
    fold (jslength (slice0 text (maxLength - 3))). rewrite slice0_length.
    destruct (maxLength - 3 <? 0)%Z eqn:E'; [|apply Z.ltb_ge in E'; lia].
    change (Z.of_nat (length (str "..."))) with 3%Z. lia.
Qed.

(** X23. [formatRelativeTime] answers [just now] exactly for the timestamps
    less than a minute old (those in the future included). Between the
    week and month branches and between the month and year branches the
    units leave gaps: an age of 28 or 29 days reads [0 month ago], an age
    of 360 to 364 days reads [0 year ago]. *)
Theorem formatRelativeTime_edges (timestamp now : Z) :
  let day := (24 * 60 * 60 * 1000)%Z in
  (formatRelativeTime timestamp now = str "just now"
   <-> (now - timestamp < 60000)%Z)
  /\ ((28 * day <= now - timestamp < 30 * day)%Z ->
      formatRelativeTime timestamp now = str "0 month ago")
  /\ ((360 * day <= now - timestamp < 365 * day)%Z ->
      formatRelativeTime timestamp now = str "0 year ago").
Proof.
  intros day. subst day. unfold formatRelativeTime.
  set (diff := (now - timestamp)%Z).
  set (seconds := (diff / 1000)%Z).
  set (minutes := (seconds / 60)%Z).
  set (hours := (minutes / 60)%Z).
  set (days := (hours / 24)%Z).
  split; [|split].
  - split.
    + destruct (seconds <? 60)%Z eqn:E.
      * intros _. apply Z.ltb_lt in E. subst seconds.
        revert E. Z.to_euclidean_division_equations. lia.
      * intros H. exfalso. revert H.
        repeat match goal with
               | |- context [if ?c then _ else _] => destruct c
               end; apply ago_not_just_now.
    + intros H.
      assert (E : (seconds <? 60)%Z = true).
      { apply Z.ltb_lt. subst seconds. revert H.
        Z.to_euclidean_division_equations. lia. }
      now rewrite E.
  - intros H.
    assert (Hd : (28 <= days < 30)%Z).
    { subst days hours minutes seconds. revert H.
      Z.to_euclidean_division_equations. lia. }
    assert (E1 : (seconds <? 60)%Z = false).
    { apply Z.ltb_ge. subst days hours minutes. revert Hd.
      Z.to_euclidean_division_equations. lia. }
    assert (E2 : (minutes <? 60)%Z = false).
    { apply Z.ltb_ge. subst days hours. revert Hd.
      Z.to_euclidean_division_equations. lia. }
    assert (E3 : (hours <? 24)%Z = false).
    { apply Z.ltb_ge. subst days. revert Hd.
      Z.to_euclidean_division_equations. lia. }
    assert (E4 : (days <? 7)%Z = false) by (apply Z.ltb_ge; lia).
    assert (E5 : (days / 7 <? 4)%Z = false).
    { apply Z.ltb_ge. revert Hd. Z.to_euclidean_division_equations. lia. }
    assert (E6 : (days / 30 = 0)%Z).
    { revert Hd. Z.to_euclidean_division_equations. lia. }
    rewrite E1, E2, E3, E4, E5, E6. reflexivity.
  - intros H.
    assert (Hd : (360 <= days < 365)%Z).
    { subst days hours minutes seconds. revert H.
      Z.to_euclidean_division_equations. lia. }
    assert (E1 : (seconds <? 60)%Z = false).
    { apply Z.ltb_ge. subst days hours minutes. revert Hd.
      Z.to_euclidean_division_equations. lia. }
    assert (E2 : (minutes <? 60)%Z = false).
    { apply Z.ltb_ge. subst days hours. revert Hd.
      Z.to_euclidean_division_equations. lia. }
    assert (E3 : (hours <? 24)%Z = false).
    { apply Z.ltb_ge. subst days. revert Hd.
      Z.to_euclidean_division_equations. lia. }
    assert (E4 : (days <? 7)%Z = false) by (apply Z.ltb_ge; lia).
    assert (E5 : (days / 7 <? 4)%Z = false).
    { apply Z.ltb_ge. revert Hd. Z.to_euclidean_division_equations. lia. }
    assert (E6 : (days / 30 = 12)%Z).
    { revert Hd. Z.to_euclidean_division_equations. lia. }
    assert (E7 : (days / 365 = 0)%Z).
    { revert Hd. Z.to_euclidean_division_equations. lia. }
    rewrite E1, E2, E3, E4, E5, E6, E7. reflexivity.
Qed.

(** [getDueDateStatus] on a finite date, by comparisons of the date. *)
Lemma getDueDateStatus_num (z now : Z) :
  getDueDateStatus (Some (Num z)) now
  = if (z =? 0)%Z then None
    else if (z <? now)%Z then Some overdue
    else if (z <? now + 86400000)%Z then Some due_soon
    else Some normal.
Proof.
  unfold getDueDateStatus, isFalsy, number_sub, lessThan.
  change (24 * 60 * 60 * 1000)%Z with 86400000%Z.
  destruct (z =? 0)%Z; [reflexivity|].
  destruct (Z.ltb_spec (z - now) 0), (Z.ltb_spec z now); try lia;
    [reflexivity|].
  destruct (Z.ltb_spec (z - now) 86400000),
    (Z.ltb_spec z (now + 86400000)); try lia; reflexivity.
Qed.

Ltac break_up :=
  repeat match goal with
         | |- _ /\ _ => split
         | |- _ <-> _ => split
         | |- _ -> _ => intro
         | |- ~ _ => intro
         | H : _ \/ _ |- _ => destruct H
         | H : exists _, _ |- _ => destruct H
         | H : _ /\ _ |- _ => destruct H
         | H : Num _ = Num _ |- _ => inversion H; subst; clear H
         | H : (_ <? _)%Z = true |- _ => apply Z.ltb_lt in H
         | H : (_ <? _)%Z = false |- _ => apply Z.ltb_ge in H
         end.

(** X24. [getDueDateStatus] and [isValidDueDate] read a due date alike: 0
    and NaN count as no date for both; a date is [overdue] exactly when it
    is a number other than 0 before now, or minus infinity, and [due_soon]
    exactly when it is a number other than 0 from now up to 24 hours
    ahead; a date that [isValidDueDate] accepts is never [overdue], and
    the one date it refuses that is not [overdue] is now itself, which is
    [due_soon]. *)
Theorem due_date_status_consistent (d : number) (now : Z) :
  (getDueDateStatus (Some d) now = None <-> d = Num 0 \/ d = NaN)
  /\ (isValidDueDate (Some (Num 0)) now = true
      /\ isValidDueDate (Some NaN) now = true)
  /\ (getDueDateStatus (Some d) now = Some overdue
      <-> (exists z, d = Num z /\ z <> 0%Z /\ (z < now)%Z)
          \/ d = NegInfinity)
  /\ (getDueDateStatus (Some d) now = Some due_soon
      <-> exists z, d = Num z /\ z <> 0%Z
                    /\ (now <= z < now + 86400000)%Z)
  /\ (isValidDueDate (Some d) now = true ->
      getDueDateStatus (Some d) now <> Some overdue)
  /\ (isValidDueDate (Some d) now = false ->
      getDueDateStatus (Some d) now <> Some overdue ->
      d = Num now /\ getDueDateStatus (Some d) now = Some due_soon).
Proof.
  destruct d as [z| | |].
  - rewrite getDueDateStatus_num.
    unfold isValidDueDate, isFalsy, greaterThan.
    destruct (Z.eqb_spec z 0) as [E0|E0];
      destruct (Z.ltb_spec z now) as [E1|E1];
      destruct (Z.ltb_spec z (now + 86400000)) as [E2|E2];
      destruct (Z.ltb_spec now z) as [E3|E3];
      break_up; try reflexivity; try discriminate; try congruence;
      try lia;
      try (left; now f_equal);
      try (left; exists z; repeat split; (assumption || lia));
      try (exists z; repeat split; (assumption || lia));
      try (f_equal; lia).
  - cbv; break_up; try reflexivity; try discriminate; try congruence;
      try (right; reflexivity).
  - cbv; break_up; try reflexivity; try discriminate; try congruence.
  - cbv; break_up; try reflexivity; try discriminate; try congruence;
      try (right; reflexivity).
Qed.

(** ** Preferences *)

Lemma hd_filter_map {A} (q : A -> bool) (g : A -> A) (l : list A) :
  (forall x, q (g x) = q x) ->
  hd_error (filter q (map g l)) = option_map g (hd_error (filter q l)).
Proof.
  intros Hq. induction l as [|x l IH]; simpl; [reflexivity|].
  rewrite Hq. destruct (q x); simpl; [reflexivity|exact IH].
Qed.

Lemma filter_none_nil {A} (q : A -> bool) (l : list A) :
  hd_error (filter q l) = None -> filter q l = [].
Proof. destruct (filter q l); [reflexivity|discriminate]. Qed.

Lemma no_preferences_of {RL : RateLimiter} (st : Store) (u : UserId) :
  hd_error (filter (fun p => str_eqb (p_userId p) u) (userPreferences st))
  = None ->
  ~ In u (map p_userId (userPreferences st)).
Proof.
  intros H Hin. apply in_map_iff in Hin as [p [<- Hp]].
  pose proof (hd_error_filter_none _ _ H p Hp) as E. simpl in E.
  now rewrite str_eqb_refl in E.
Qed.

Lemma map_patch_key {R K} (key : R -> K) (sel : R -> bool) (f : R -> R)
    (l : list R) :
  (forall x, key (f x) = key x) ->
  map key (map (fun r => if sel r then f r else r) l) = map key l.
Proof.
  intros Hf. rewrite map_map. apply map_ext. intros x.
  now destruct (sel x).
Qed.

Section Preferences.
Context {RL : RateLimiter}.

Lemma update_one_preferences ctx st args :
  one_preferences st ->
  one_preferences (snd (mutation (EpPreferences.update args) ctx st)).
Proof.
  intros H. unfold mutation, EpPreferences.update. unfold_layers.
  unfold_monad. simpl.
  destruct (auth ctx) as [u|]; [|exact H].
  destruct (rl_limit Limit.updatePreferences u (now ctx) (limiter st))
    as [[|ra] l']; [|exact H].
  simpl.
  destruct (hd_error _) as [p|] eqn:Ehd; simpl.
  - destruct (existsb _ _); [|exact H]. simpl.
    unfold one_preferences. simpl.
    now rewrite (map_patch_key p_userId).
  - destruct (find _ _) as [p|]; [|exact H]. simpl.
    destruct (existsb _ _); [|exact H]. simpl.
    unfold one_preferences. simpl.
    rewrite (map_patch_key p_userId) by reflexivity.
    rewrite map_app. simpl.
    apply no_preferences_of in Ehd.
    apply Permutation_NoDup with (l := u :: map p_userId (userPreferences st)).
    + apply Permutation_cons_append.
    + constructor; assumption.
Qed.

Lemma step_one_preferences ctx r st :
  one_preferences st -> one_preferences (step ctx r st).
Proof.
  intros H. destruct r; simpl;
    try (apply update_one_preferences; exact H);
    apply preserves_mutation; try exact H.
  all: first
    [ unfold EpTasks.create | unfold EpTasks.update | unfold EpTasks.reorder
    | unfold EpTasks.remove | unfold EpLabels.create | unfold EpLabels.update
    | unfold EpLabels.remove | unfold EpLabels.addToTask
    | unfold EpLabels.removeFromTask | unfold EpComments.create
    | unfold EpComments.remove
    | unfold EpAi.createThread | unfold EpAi.sendMessage
    | unfold EpAi.updateThread | unfold EpAi.deleteThread ].
  all: walk ltac:(first
    [ intros ? ? ?; assumption
    | intros ? ?; assumption ]).
Qed.

Lemma reachable_one_preferences st : reachable st -> one_preferences st.
Proof.
  induction 1 as [l|ctx r st Hr IH].
  - constructor.
  - now apply step_one_preferences.
Qed.

(** X25. In every store the application can reach, a user has at most one
    preference document: [preferences.update] creates one only when the
    caller has none, and nothing else writes the table. *)
Theorem preferences_one_per_user (st : Store) :
  reachable st ->
  forall p q,
    In p (userPreferences st) -> In q (userPreferences st) ->
    p_userId p = p_userId q -> p = q.
Proof.
  intros Hr p q Hp Hq E.
  pose proof (reachable_one_preferences st Hr) as Hnd.
  unfold one_preferences in Hnd. revert Hnd Hp Hq.
  induction (userPreferences st) as [|x l IH]; simpl; [tauto|].
  intros Hnd. inversion Hnd as [|? ? Hnin Hnd']; subst.
  intros [->|Hp] [->|Hq]; auto.
  - exfalso. apply Hnin. rewrite E. now apply in_map.
  - exfalso. apply Hnin. rewrite <- E. now apply in_map.
Qed.

(** X26. [preferences.update] followed by [preferences.get]: the settings
    shown afterwards are the settings shown before (the defaults for a
    caller without a document) with the supplied fields put over them, and
    the answer of the update is the id of the document shown. *)
Theorem preferences_update_then_get ctx st u args :
  reachable st ->
  auth ctx = Some u ->
  fst (rl_limit Limit.updatePreferences u (now ctx) (limiter st))
    = Limit.Ok ->
  let out := mutation (EpPreferences.update args) ctx st in
  exists before after,
    query EpPreferences.get ctx st = Return before
    /\ query EpPreferences.get ctx (snd out) = Return (inl after)
    /\ fst out = Return (p_id after)
    /\ p_userId after = u
    /\ p_updatedAt after = now ctx
    /\ settingsOf (inl after) = override args (settingsOf before).
Proof.
  intros Hr Hauth Hrl out. subst out.
  destruct (reachable_wf st Hr) as (_ & _ & _ & _ & _ & [Hnd Hlt] & _).
  unfold query, mutation, EpPreferences.get, EpPreferences.update.
  unfold_layers. unfold_monad. simpl. rewrite Hauth.
  destruct (rl_limit Limit.updatePreferences u (now ctx) (limiter st))
    as [s l']. simpl in Hrl. subst s. simpl.
  destruct (hd_error (filter (fun p => str_eqb (p_userId p) u)
                        (userPreferences st))) as [p|] eqn:Ehd; simpl.
  - assert (Hin : In p (userPreferences st) /\ p_userId p = u).
    { destruct (filter _ (userPreferences st)) as [|x l] eqn:Ef;
        [discriminate|].
      inversion Ehd; subst x.
      assert (Hp : In p (filter (fun p => str_eqb (p_userId p) u)
                           (userPreferences st)))
        by (rewrite Ef; now left).
      apply filter_In in Hp as [Hp Eu]. now apply str_eqb_eq in Eu. }
    destruct Hin as [Hin Hu].
    assert (Hex : existsb (has_id userPreferencesT (p_id p))
                    (userPreferences st) = true).
    { apply existsb_exists. exists p. split; [exact Hin|].
      unfold has_id. simpl. apply Nat.eqb_refl. }
    unfold has_id in *. simpl in *. rewrite Hex. simpl.
    rewrite (hd_filter_map (fun p => str_eqb (p_userId p) u))
      by (intros x; now destruct (p_id x =? p_id p)).
    rewrite Ehd. simpl. rewrite Nat.eqb_refl.
    do 2 eexists. repeat split; try reflexivity. exact Hu.
  - pose proof (filter_none_nil _ _ Ehd) as Enil.
    unfold has_id in *. simpl in *.
    erewrite (find_app_fresh p_id (userPreferences st) (nextId st))
      by (try exact Hlt; reflexivity).
    simpl.
    rewrite existsb_app. simpl. rewrite Nat.eqb_refl, orb_true_r. simpl.
    rewrite (hd_filter_map (fun p => str_eqb (p_userId p) u))
      by (intros x; now destruct (p_id x =? nextId st)).
    rewrite filter_app, Enil. simpl. rewrite str_eqb_refl. simpl.
    rewrite Nat.eqb_refl.
    do 2 eexists. repeat split; reflexivity.
Qed.
End Preferences.

(** ** Round trips and logs *)

Lemma find_snoc_none {A} (p : A -> bool) (l : list A) (x : A) :
  existsb p l = false -> find p (l ++ [x]) = if p x then Some x else None.
Proof.
  induction l as [|y l IH]; simpl; [reflexivity|].
  destruct (p y); simpl; [discriminate|exact IH].
Qed.

Lemma filter_keep_below {R} (idof : R -> Id) (l : list R) (n : Id) :
  Forall (fun x => idof x < n) l ->
  filter (fun x => negb (idof x =? n)) l = l.
Proof.
  induction 1 as [|x l Hx Hl IH]; simpl; [reflexivity|].
  destruct (idof x =? n) eqn:E; [apply Nat.eqb_eq in E; lia|].
  simpl. now rewrite IH.
Qed.

Section RoundTrips.
Context {RL : RateLimiter}.

(** X27. Attaching a label and detaching it again: for a task and a label
    of the caller that are not yet associated, [labels.addToTask] appends
    one association, and [labels.removeFromTask] afterwards leaves the
    association table as it was before the two calls. *)
Theorem addToTask_then_removeFromTask ctx ctx' st u task label :
  reachable st ->
  auth ctx = Some u -> auth ctx' = Some u ->
  fst (rl_limit Limit.addLabelToTask u (now ctx) (limiter st)) = Limit.Ok ->
  find (has_id tasksT (t_id task)) (tasks st) = Some task ->
  t_userId task = u ->
  find (has_id labelsT (l_id label)) (labels st) = Some label ->
  l_userId label = u ->
  ~ In (t_id task, l_id label) (map pair_key (taskLabels st)) ->
  let out := mutation (EpLabels.addToTask (t_id task) (l_id label)) ctx st in
  fst (rl_limit Limit.removeLabelFromTask u (now ctx') (limiter (snd out)))
    = Limit.Ok ->
  let out' :=
    mutation (EpLabels.removeFromTask (t_id task) (l_id label)) ctx'
      (snd out) in
  fst out = Return (nextId st)
  /\ taskLabels (snd out)
     = taskLabels st
       ++ [mkTaskLabel (nextId st) (t_id task) (l_id label) u (now ctx)]
  /\ fst out' = Return (t_id task, l_id label)
  /\ taskLabels (snd out') = taskLabels st
  /\ tasks (snd out') = tasks st
  /\ labels (snd out') = labels st.
Proof.
  intros Hr Hauth Hauth' Hrl Htask Hown Hlabel Hown' Hnew.
  destruct (reachable_wf st Hr) as (_ & _ & [_ Hlt] & _).
  apply no_association in Hnew.
  cbv zeta.
  unfold mutation, EpLabels.addToTask, EpLabels.removeFromTask.
  unfold_layers. unfold_monad. simpl. rewrite Hauth.
  destruct (rl_limit Limit.addLabelToTask u (now ctx) (limiter st))
    as [s l']. simpl in Hrl. subst s. simpl.
  unfold has_id in *. simpl in *.
  rewrite Htask, Hown, str_eqb_refl. simpl.
  rewrite Hlabel, Hown', str_eqb_refl. simpl.
  rewrite Hnew. simpl. rewrite Hauth'. simpl.
  intros Hrl'.
  match goal with
  | |- context [rl_limit ?n ?k ?t ?l] =>
      change (rl_limit Limit.removeLabelFromTask u (now ctx') l')
        with (rl_limit n k t l) in Hrl';
      destruct (rl_limit n k t l) as [s l'']
  end.
  simpl in Hrl'. subst s. simpl.
  rewrite Htask, Hown, str_eqb_refl. simpl.
  rewrite filter_app. simpl. rewrite Nat.eqb_refl.
  rewrite find_snoc_none by exact Hnew. simpl. rewrite Nat.eqb_refl.
  simpl. rewrite existsb_app. simpl. rewrite Nat.eqb_refl, orb_true_r.
  simpl. rewrite filter_app. simpl. rewrite Nat.eqb_refl. simpl.
  rewrite app_nil_r, (filter_keep_below tl_id) by exact Hlt.
  repeat split.
Qed.

(** X28. The activity log is append-only: whatever a mutation is called
    with and whatever it answers, the log afterwards is the log before
    with records added at its end; no record is altered or removed. *)
Theorem activity_log_append_only ctx r st :
  exists new, taskActivity (step ctx r st) = taskActivity st ++ new.
Proof.
  set (Inv := fun s : Store =>
                exists new, taskActivity s = taskActivity st ++ new).
  assert (H0 : Inv st) by (exists []; now rewrite app_nil_r).
  change (Inv (step ctx r st)).
  destruct r; simpl; apply preserves_mutation; try exact H0.
  all: first
    [ unfold EpTasks.create | unfold EpTasks.update | unfold EpTasks.reorder
    | unfold EpTasks.remove | unfold EpLabels.create | unfold EpLabels.update
    | unfold EpLabels.remove | unfold EpLabels.addToTask
    | unfold EpLabels.removeFromTask | unfold EpComments.create
    | unfold EpComments.remove | unfold EpPreferences.update
    | unfold EpAi.createThread | unfold EpAi.sendMessage
    | unfold EpAi.updateThread | unfold EpAi.deleteThread ].
  all: walk ltac:(first
    [ intros ? ? ?; assumption
    | intros ? ?; assumption
    | intros ? H; unfold Inv in H; destruct H as [new E];
      eexists (new ++ [_]); simpl; rewrite E; now rewrite app_assoc ]).
Qed.

(** X29. The title in [ai.updateThread]: an absent title leaves the
    thread's title, an empty one removes it, a title of white space only is
    refused, and any other title is stored trimmed when its trimmed form
    has at most 200 characters. *)
Theorem updateThread_title ctx st u thread status :
  auth ctx = Some u ->
  find (has_id threadsT (th_id thread)) (threads st) = Some thread ->
  th_userId thread = u ->
  let run title :=
    mutation (EpAi.updateThread (th_id thread) title status) ctx st in
  let titleAfter title :=
    option_map th_title
      (find (has_id threadsT (th_id thread)) (threads (snd (run title)))) in
  (fst (run None) = Return (th_id thread)
   /\ titleAfter None = Some (th_title thread))
  /\ (fst (run (Some [])) = Return (th_id thread)
      /\ titleAfter (Some []) = Some None)
  /\ (forall t, t <> [] -> trim t = [] ->
        run (Some t) = (Throw InvalidArgument, st))
  /\ (forall t, (1 <= jslength (trim t) <= 200)%Z ->
        fst (run (Some t)) = Return (th_id thread)
        /\ titleAfter (Some t) = Some (Some (trim t))).
Proof.
  intros Hauth Hfind Hown run titleAfter. subst titleAfter run.
  pose proof (find_existsb _ _ _ Hfind) as Hex.
  pose proof (fun p => find_patched th_id (th_id thread)
                (Threads.applyPatch p (now ctx))
                (threads st) thread (fun x => eq_refl) Hfind) as Hp.
  unfold mutation, EpAi.updateThread. unfold_layers. unfold_monad. simpl.
  rewrite Hauth. unfold has_id in *. simpl in *.
  rewrite Hfind, Hown, str_eqb_refl. simpl. rewrite Hex. simpl.
  split; [|split; [|split]].
  - split; [reflexivity|]. now rewrite (Hp (Threads.mkPatch None status)).
  - split; [reflexivity|].
    now rewrite (Hp (Threads.mkPatch (Some None) status)).
  - intros t Hne Htrim.
    assert (Ht : truthy t = true) by (destruct t; [contradiction|reflexivity]).
    rewrite Ht, Htrim. reflexivity.
  - intros t Hlen.
    assert (Ht : truthy t = true).
    { destruct t; [|reflexivity].
      change (jslength (trim [])) with 0%Z in Hlen. lia. }
    assert (E1 : (0 <? jslength (trim t))%Z = true)
      by (apply Z.ltb_lt; lia).
    assert (E2 : (jslength (trim t) <=? 200)%Z = true)
      by (apply Z.leb_le; lia).
    rewrite Ht, E1, E2. cbn [andb negb]. rewrite Hex. cbn [fst snd].
    split; [reflexivity|].
    cbn [threads set_threads]. rewrite Hp. reflexivity.
Qed.
End RoundTrips.

(** ** The labels of a task *)

Lemma find_unique {R} (idof : R -> Id) (l : list R) (x : R) :
  NoDup (map idof l) -> In x l ->
  find (fun r => idof r =? idof x) l = Some x.
Proof.
  intros Hnd Hin.
  destruct (find (fun r => idof r =? idof x) l) as [y|] eqn:E.
  - apply find_some in E as [Hy Ey]. apply Nat.eqb_eq in Ey.
    f_equal. eapply NoDup_map_inj; eauto.
  - exfalso. apply (find_none _ _ E) in Hin.
    now rewrite Nat.eqb_refl in Hin.
Qed.

Lemma flat_map_singletons {A B} (f : A -> list B) (l : list A) :
  (forall x, In x l -> length (f x) = 1) ->
  length (flat_map f l) = length l.
Proof.
  induction l as [|x l IH]; simpl; intros H; [reflexivity|].
  rewrite length_app, H, IH by auto. reflexivity.
Qed.

Section LabelsOfTask.
Context {RL : RateLimiter}.

(** The documents [fetchAll] collects: for each id in turn, the stored
    document of that id, if any. *)
Lemma fetchAll_get {R} (T : Table R) (ids : list Id) ctx st :
  EpLabels.fetchAll (db_get T) ids ctx st
  = Return (flat_map (fun i => match find (has_id T i) (rows T st) with
                               | Some a => [a]
                               | None => []
                               end) ids, st).
Proof.
  induction ids as [|i ids IH]; simpl; [reflexivity|].
  unfold bind, ret, db_get in *. rewrite IH.
  now destruct (find (has_id T i) (rows T st)).
Qed.

(** X30. In every store the application can reach,
    [labels.getLabelsForTask] on a task of the caller returns exactly the
    stored labels attached to the task, one for each association of the
    task, and each of them is a label of the caller. *)
Theorem getLabelsForTask_own_labels ctx st u task :
  reachable st ->
  auth ctx = Some u ->
  find (has_id tasksT (t_id task)) (tasks st) = Some task ->
  t_userId task = u ->
  exists ls,
    query (EpLabels.getLabelsForTask (t_id task)) ctx st = Return ls
    /\ (forall l,
          In l ls <->
          In l (labels st)
          /\ In (t_id task, l_id l) (map pair_key (taskLabels st)))
    /\ Forall (fun l => l_userId l = u) ls
    /\ length ls
       = length (filter (fun tl => tl_taskId tl =? t_id task)
                   (taskLabels st)).
Proof.
  intros Hr Hauth Hfind Hown.
  destruct (reachable_wf st Hr) as ([Htid _] & [Hlid _] & _).
  destruct (reachable_integrity st Hr) as (_ & [HrefT HrefL] & _).
  rewrite Forall_forall in HrefT, HrefL.
  pose proof (find_some _ _ Hfind) as [Htask _].
  unfold query, EpLabels.getLabelsForTask.
  unfold requireAuth, Tasks.getTaskById, TaskLabels.getLabelsForTask,
    Labels.getLabelById.
  unfold bind at 1 2 3. unfold getAuthUser, ret, throw, db_get at 1.
  simpl. rewrite Hauth. simpl. rewrite Hfind, Hown, str_eqb_refl. simpl.
  unfold bind, db_collect. rewrite fetchAll_get. simpl.
  set (assoc := filter (fun tl => tl_taskId tl =? t_id task) (taskLabels st)).
  set (f := fun i => match find (has_id labelsT i) (labels st) with
                     | Some a => [a]
                     | None => []
                     end).
  assert (Hf : forall i l, In l (f i) <-> find (has_id labelsT i) (labels st)
                                          = Some l).
  { intros i l. unfold f.
    destruct (find (has_id labelsT i) (labels st)) as [a|]; simpl.
    - split; [intros [->|[]]; reflexivity|intros E; inversion E; now left].
    - split; [intros []|discriminate]. }
  assert (Hin : forall l,
            In l (flat_map f (map tl_labelId assoc)) <->
            exists tl, In tl (taskLabels st) /\ tl_taskId tl = t_id task
                       /\ tl_labelId tl = l_id l /\ In l (labels st)).
  { intros l. rewrite in_flat_map. split.
    - intros [i [Hi Hl]]. apply Hf in Hl. apply find_some in Hl as [Hl El].
      unfold has_id in El. simpl in El. apply Nat.eqb_eq in El.
      apply in_map_iff in Hi as [tl [Etl Htl]].
      apply filter_In in Htl as [Htl Et]. apply Nat.eqb_eq in Et.
      exists tl. repeat split; auto. congruence.
    - intros [tl [Htl [Et [El Hl]]]]. exists (l_id l). split.
      + apply in_map_iff. exists tl. split; [exact El|].
        apply filter_In. split; [exact Htl|]. now apply Nat.eqb_eq.
      + apply Hf. unfold has_id. simpl. now apply find_unique. }
  eexists. split; [reflexivity|]. split; [|split].
  - intros l. rewrite Hin. split.
    + intros [tl [Htl [Et [El Hl]]]]. split; [exact Hl|].
      apply in_map_iff. exists tl. split; [|exact Htl].
      unfold pair_key. now rewrite Et, El.
    + intros [Hl Hpair]. apply in_map_iff in Hpair as [tl [Ek Htl]].
      unfold pair_key in Ek. inversion Ek.
      exists tl. repeat split; auto.
  - apply Forall_forall. intros l Hl.
    apply Hin in Hl as [tl [Htl [Et [El Hl]]]].
    destruct (HrefT tl Htl) as [p [Hp [Ep Eo]]].
    destruct (HrefL tl Htl) as [q [Hq [Eq Eo']]].
    assert (p = task)
      by (eapply (NoDup_map_inj t_id); eauto; congruence).
    assert (q = l)
      by (eapply (NoDup_map_inj l_id); eauto; congruence).
    subst p q. congruence.
  - rewrite flat_map_singletons; [apply length_map|].
    intros i Hi. apply in_map_iff in Hi as [tl [Etl Htl]].
    apply filter_In in Htl as [Htl _].
    destruct (HrefL tl Htl) as [q [Hq [Eq _]]].
    unfold f, has_id. simpl. rewrite <- Etl, <- Eq.
    now rewrite (find_unique l_id) by assumption.
Qed.
End LabelsOfTask.

(** * The properties on concrete runs *)

Example s5_tables :
  map t_id (tasks s5) = [0]
  /\ map a_id (taskActivity s5) = [1]
  /\ map c_id (taskComments s5) = [2]
  /\ map l_id (labels s5) = [3]
  /\ map tl_id (taskLabels s5) = [4]
  /\ map th_id (threads s5) = [5]
  /\ tasks s5 = [task0].
Proof. vm_compute. repeat split. Qed.

(** ** C1: a comment removed by another user *)

(** C1 (failing input). In [s2] comment 2 was written by alice on her own
    task; bob, authenticated and within his limit, calls
    [comments.remove(2)]: the call returns the id and the comment is gone,
    where the ownership rule asks for [Forbidden] and an unchanged store. *)
Theorem comments_remove_by_other_user :
  let out := mutation (EpComments.remove 2) (as_user bob 3000) s2 in
  (exists c, find (has_id taskCommentsT 2) (taskComments s2) = Some c
             /\ c_userId c = alice /\ c_userId c <> bob)
  /\ fst out = Return 2
  /\ taskComments (snd out) = []
  /\ snd out <> s2.
Proof.
  split; [|split; [|split]].
  - eexists. split; [reflexivity|]. split; [reflexivity|].
    vm_compute. discriminate.
  - vm_compute. reflexivity.
  - vm_compute. reflexivity.
  - intros E. apply (f_equal taskComments) in E. vm_compute in E.
    discriminate E.
Qed.

(** ** C5: [ai.updateThread] with every bucket empty *)

(** C5 (failing input). With every bucket of alice empty, each limit of
    [rateLimiter.ts] refuses her, and [ai.deleteThread] on her thread fails
    with [RateLimited]; [ai.updateThread] on the same thread, in the same
    instant, goes through. *)
Theorem updateThread_with_exhausted_buckets :
  (forall n, exists retryAfter,
     fst (rl_limit n alice 9000 (limiter s5_drained))
     = Limit.Retry retryAfter)
  /\ fst (mutation (EpAi.deleteThread 5) (as_user alice 9000) s5_drained)
     = Throw (RateLimited 3000)
  /\ fst (mutation (EpAi.updateThread 5 (Some (str "renamed"))
                      (Some archived))
            (as_user alice 9000) s5_drained)
     = Return 5
  /\ map (fun t => (th_title t, th_status t))
       (threads (snd (mutation
                        (EpAi.updateThread 5 (Some (str "renamed"))
                           (Some archived))
                        (as_user alice 9000) s5_drained)))
     = [(Some (str "renamed"), archived)].
Proof.
  split; [|vm_compute; repeat split].
  intros n; destruct n; vm_compute; eexists; reflexivity.
Qed.

(** ** C2: what stays readable after a task is removed *)

(** C2 as the specification words it fails: after alice removes her task
    in [s4], its activity records are still stored, but
    [activity.getByTask] answers [NotFound] instead of returning them. *)
Lemma getByTask_after_remove_counterexample :
  let st' := snd (mutation (EpTasks.remove 0) (as_user alice 6000) s4) in
  fst (mutation (EpTasks.remove 0) (as_user alice 6000) s4) = Return 0
  /\ map a_id (filter (fun a => a_taskId a =? 0) (taskActivity st')) = [1; 5]
  /\ query (EpActivity.getByTask 0) (as_user alice 7000) st'
     = Throw NotFound.
Proof. vm_compute. repeat split. Qed.

Lemma remove_cascades_witness :
  reachable s4
  /\ exists st',
       mutation (EpTasks.remove 0) (as_user alice 6000) s4 = (Return 0, st')
       /\ (forall tl, In tl (taskLabels st') -> tl_taskId tl <> 0)
       /\ (forall a, In a (taskActivity s4) -> In a (taskActivity st')).
Proof.
  assert (Hreach : reachable s4)
    by (do 4 apply reach_step; apply reach_empty).
  split; [exact Hreach|].
  destruct (@remove_cascades_and_keeps_activity tokenBucket
              (as_user alice 6000) s4 alice task0)
    as [st' [E [Hl [_ [Ha _]]]]].
  - exact Hreach.
  - reflexivity.
  - vm_compute. reflexivity.
  - vm_compute. reflexivity.
  - reflexivity.
  - exists st'. split; [exact E|]. split; [exact Hl|exact Ha].
Defined.

(** ** C3 *)

Lemma completedAt_witness :
  reachable s1_completed
  /\ completedAt_inv s1_completed
  /\ (exists t, find (has_id tasksT 0) (tasks s1_completed) = Some t
                /\ t_status t = completed /\ t_completedAt t = Some 2000%Z)
  /\ (exists t, find (has_id tasksT 0) (tasks s1_reopened) = Some t
                /\ t_status t = todo /\ t_completedAt t = None).
Proof.
  assert (H1 : reachable s1) by (apply reach_step, reach_empty).
  assert (H2 : reachable s1_completed) by (apply reach_step, H1).
  split; [exact H2|].
  split; [exact (proj1 (@completedAt_set_iff_completed tokenBucket _ H2))|].
  split.
  - refine (proj1 (proj2 (proj2
             (@completedAt_set_iff_completed tokenBucket s1 H1)))
             (as_user alice 2000)
             (EpTasks.mkUpdateArgs 0 None None (Some completed) None None)
             0 task0 completed _ _ _ _).
    + vm_compute. reflexivity.
    + vm_compute. reflexivity.
    + reflexivity.
    + vm_compute. discriminate.
  - refine (proj1 (proj2 (proj2
             (@completedAt_set_iff_completed tokenBucket s1_completed H2)))
             (as_user alice 3000)
             (EpTasks.mkUpdateArgs 0 None None (Some todo) None None)
             0
             (mkTask 0 alice (str "hello") None completed low None
                (Some 2000%Z) 1 1000 2000)
             todo _ _ _ _).
    + vm_compute. reflexivity.
    + vm_compute. reflexivity.
    + reflexivity.
    + vm_compute. discriminate.
Defined.

(** ** C4: a change that is not logged *)

(** C4 (failing input). The task of [s1] is in status [todo]. Alice calls
    [tasks.update] with a new title and the status [todo]: the call
    returns, the title changes, neither status nor priority changes, and
    nothing is logged, where the handler's comment and the rule of one
    generic record otherwise ask for one [updated] record. The same call
    without the status logs it. *)
Theorem update_rename_with_current_status_unlogged :
  let out := mutation (EpTasks.update renameWithStatus) (as_user alice 2000)
               s1 in
  let out' := mutation (EpTasks.update renameOnly) (as_user alice 2000) s1 in
  map t_title (tasks s1) = [str "hello"]
  /\ fst out = Return 0
  /\ map t_title (tasks (snd out)) = [str "renamed"]
  /\ status_changes task0 renameWithStatus = false
  /\ priority_changes task0 renameWithStatus = false
  /\ taskActivity (snd out) = taskActivity s1
  /\ actions_if_generic_otherwise task0 renameWithStatus = [updated]
  /\ fst out' = Return 0
  /\ map a_action (taskActivity (snd out'))
     = map a_action (taskActivity s1) ++ [updated].
Proof. vm_compute. repeat split. Qed.

(** ** C6: two labels of one name *)

(** C6 (failing input). In [s4] alice owns the label [work]. She calls
    [labels.create] with the name ["  work "], which sanitizes to [work]:
    the lookup of the duplicate check finds nothing, the call returns a new
    id, and alice owns two labels of the same name, where the handler's
    check and its message ask for [InvalidArgument]. *)
Theorem labels_create_duplicate_name :
  let out :=
    mutation (EpLabels.create (str "  work ") (str "#abc"))
      (as_user alice 5000) s4 in
  map label_key (labels s4) = [(alice, str "work")]
  /\ sanitizeString (str "  work ") = str "work"
  /\ fst out = Return 5
  /\ map label_key (labels (snd out))
     = [(alice, str "work"); (alice, str "work")]
  /\ ~ unique_names (snd out).
Proof.
  split; [|split; [|split; [|split]]]; try (vm_compute; reflexivity).
  unfold unique_names. intros H. vm_compute in H.
  inversion H as [|x l Hnin _]. apply Hnin. left. reflexivity.
Qed.

(** ** C7: ten records, not twenty *)

(** C7 as the specification words it fails: alice has eleven activity
    records in [s11], fewer than twenty, and [dashboard.recentActivity]
    returns ten of them and not all eleven; the handler has no limit
    argument to supply. *)
Lemma recentActivity_counterexample :
  length (filter (fun a => str_eqb (a_userId a) alice) (taskActivity s11))
  = 11
  /\ (exists l,
        query EpDashboard.recentActivity (as_user alice 200000) s11
        = Return l
        /\ length l = 10
        /\ l <> firstn 20 (recentFirst s11 alice)).
Proof.
  split; [vm_compute; reflexivity|].
  eexists. split; [vm_compute; reflexivity|].
  split; [reflexivity|].
  intros E. apply (f_equal (@length Activity)) in E.
  vm_compute in E. discriminate E.
Qed.

Lemma recentActivity_witness :
  auth (as_user alice 200000) = Some alice
  /\ query EpDashboard.recentActivity (as_user alice 200000) s11
     = Return (firstn 10 (recentFirst s11 alice)).
Proof.
  split; [reflexivity|].
  exact (proj1 (proj2 (proj2
           (@recentActivity_ten_most_recent tokenBucket
              (as_user alice 200000) s11 alice eq_refl)))).
Defined.

(** ** C8: titles are measured after trimming *)

(** C8 as the specification words it fails in both directions: a title of
    201 code units, 200 letters and a trailing space, is accepted, and a
    title of exactly 1 code unit, a space, is refused. *)
Lemma create_title_counterexample :
  (jslength (repeat 97%N 200 ++ [32%N]) = 201%Z
   /\ fst (mutation
             (EpTasks.create (repeat 97%N 200 ++ [32%N]) None low None)
             (as_user alice 1000) s0)
      = Return 0)
  /\ (jslength [32%N] = 1%Z
      /\ fst (mutation (EpTasks.create [32%N] None low None)
                (as_user alice 1000) s0)
         = Throw InvalidArgument).
Proof. vm_compute. repeat split. Qed.

Lemma create_title_witness :
  fst (mutation (EpTasks.create (repeat 97%N 200) None low None)
         (as_user alice 1000) s0)
  = Return 0
  /\ fst (mutation (EpTasks.create (repeat 97%N 201) None low None)
            (as_user alice 1000) s0)
     = Throw InvalidArgument.
Proof.
  split.
  - refine (proj2 (@create_title_bounds tokenBucket (as_user alice 1000) s0
                     alice (repeat 97%N 200) None low None _ _) _ _).
    + reflexivity.
    + vm_compute. reflexivity.
    + vm_compute. split; discriminate.
    + reflexivity.
  - refine (proj1 (proj1 (@create_title_bounds tokenBucket
                            (as_user alice 1000) s0 alice (repeat 97%N 201)
                            None low None _ _) _)).
    + reflexivity.
    + vm_compute. reflexivity.
    + right. vm_compute. discriminate.
Defined.

(** ** C9 *)

Lemma update_same_status_witness :
  let args := EpTasks.mkUpdateArgs 0 None None (Some todo) None None in
  let out := mutation (EpTasks.update args) (as_user alice 2000) s1 in
  fst out = Return 0
  /\ taskActivity (snd out) = taskActivity s1
  /\ find (has_id tasksT 0) (tasks (snd out)) = Some (touch 2000 task0).
Proof.
  destruct (@update_same_status_only tokenBucket (as_user alice 2000) s1
              alice task0)
    as [Hr [Ha [_ Hf]]].
  - reflexivity.
  - vm_compute. reflexivity.
  - vm_compute. reflexivity.
  - reflexivity.
  - split; [exact Hr|]. split; [exact Ha|exact Hf].
Defined.

(** ** C10 *)

Lemma removeFromTask_witness :
  let out :=
    mutation (EpLabels.removeFromTask 0 3) (as_user alice 4000) s3 in
  fst out = Return (0, 3) /\ data (snd out) = data s3.
Proof.
  destruct (@removeFromTask_without_association tokenBucket
              (as_user alice 4000) s3 alice 0 3 task0)
    as [Hr [_ Hd]].
  - reflexivity.
  - vm_compute. reflexivity.
  - vm_compute. reflexivity.
  - reflexivity.
  - split; [exact Hr|]. apply Hd. intros tl Hin. vm_compute in Hin.
    contradiction.
Defined.

(** ** The further properties, on the runs above *)

Lemma reachable_s5 : reachable s5.
Proof. do 5 apply reach_step. apply reach_empty. Qed.

Lemma reachable_s6 : reachable s6.
Proof. apply reach_step. exact reachable_s5. Qed.

Lemma reachable_s7 : reachable s7.
Proof. apply reach_step. exact reachable_s6. Qed.

Lemma reachable_s9 : reachable s9.
Proof. do 2 apply reach_step. exact reachable_s7. Qed.

Lemma unauthenticated_refused_witness :
  auth nobody = None
  /\ step nobody (TasksRemove 0) s5 = s5
  /\ query EpTasks.list nobody s5 = Throw Unauthenticated.
Proof.
  destruct (@unauthenticated_refused tokenBucket nobody s5 eq_refl)
    as (Hm & Hq & _).
  split; [reflexivity|].
  split; [exact (proj2 (Hm (TasksRemove 0)))|exact Hq].
Defined.

Lemma rate_limited_commits_nothing_witness :
  failure (as_user alice 9000) (TasksRemove 0) s5_drained
  = Some (RateLimited 2000)
  /\ step (as_user alice 9000) (TasksRemove 0) s5_drained = s5_drained.
Proof.
  apply (@rate_limited_commits_nothing tokenBucket (as_user alice 9000)
           s5_drained alice (TasksRemove 0) Limit.deleteTask 2000).
  - reflexivity.
  - reflexivity.
  - vm_compute. reflexivity.
Defined.

Lemma tasks_of_others_forbidden_witness :
  query (EpTasks.get (t_id task0)) (as_user bob 6000) s5 = Throw Forbidden
  /\ mutation (EpTasks.remove (t_id task0)) (as_user bob 6000) s5
     = (Throw Forbidden, s5).
Proof.
  destruct (@tasks_of_others_forbidden tokenBucket (as_user bob 6000) s5 bob
              task0) as (H1 & _ & _ & H4 & _).
  - reflexivity.
  - intros n; destruct n; vm_compute; reflexivity.
  - vm_compute. reflexivity.
  - vm_compute. discriminate.
  - split; [exact H1|exact H4].
Defined.

Lemma labels_of_others_forbidden_witness :
  query (EpLabels.get (l_id label3)) (as_user bob 6000) s5 = Throw Forbidden
  /\ mutation (EpLabels.remove (l_id label3)) (as_user bob 6000) s5
     = (Throw Forbidden, s5).
Proof.
  destruct (@labels_of_others_forbidden tokenBucket (as_user bob 6000) s5 bob
              label3) as (H1 & _ & H3 & _).
  - reflexivity.
  - intros n; destruct n; vm_compute; reflexivity.
  - vm_compute. reflexivity.
  - vm_compute. discriminate.
  - split; [exact H1|exact H3].
Defined.

Lemma threads_of_others_forbidden_witness :
  query (EpAi.getThread (th_id thread5)) (as_user bob 6000) s5
  = Throw Forbidden
  /\ mutation (EpAi.deleteThread (th_id thread5)) (as_user bob 6000) s5
     = (Throw Forbidden, s5).
Proof.
  destruct (@threads_of_others_forbidden tokenBucket (as_user bob 6000) s5
              bob thread5) as (H1 & _ & _ & H4).
  - reflexivity.
  - intros n; destruct n; vm_compute; reflexivity.
  - vm_compute. reflexivity.
  - vm_compute. discriminate.
  - split; [exact H1|exact H4].
Defined.

Lemma missing_document_not_found_witness :
  query (EpTasks.get 42) (as_user alice 6000) s5 = Throw NotFound
  /\ mutation (EpLabels.remove 42) (as_user alice 6000) s5
     = (Throw NotFound, s5)
  /\ mutation (EpAi.deleteThread 42) (as_user alice 6000) s5
     = (Throw NotFound, s5)
  /\ mutation (EpLabels.addToTask (t_id task0) 42) (as_user alice 6000) s5
     = (Throw NotFound, s5)
  /\ fst (mutation (EpLabels.removeFromTask (t_id task0) 42)
            (as_user alice 6000) s5)
     = Return (t_id task0, 42).
Proof.
  destruct (@missing_document_not_found tokenBucket (as_user alice 6000) s5
              alice) as (Ht & Hl & Hth & Hlt).
  - reflexivity.
  - intros n; destruct n; vm_compute; reflexivity.
  - destruct (Ht 42) as (H1 & _); [vm_compute; reflexivity|].
    destruct (Hl 42) as (_ & _ & H2 & _); [vm_compute; reflexivity|].
    destruct (Hth 42) as (_ & _ & _ & H3); [vm_compute; reflexivity|].
    destruct (Hlt 42 task0) as (H4 & H5);
      [vm_compute; reflexivity|vm_compute; reflexivity|reflexivity|].
    split; [exact H1|]. split; [exact H2|]. split; [exact H3|].
    split; [exact H4|exact H5].
Defined.

Lemma associations_never_duplicated_witness :
  unique_pairs s5
  /\ mutation (EpLabels.addToTask (t_id task0) (l_id label3))
       (as_user alice 6000) s5
     = (Throw InvalidArgument, s5).
Proof.
  destruct (@associations_never_duplicated tokenBucket s5 reachable_s5)
    as [Hu Hdup].
  split; [exact Hu|].
  apply (Hdup (as_user alice 6000) alice task0 label3 association4).
  - reflexivity.
  - vm_compute. reflexivity.
  - vm_compute. reflexivity.
  - reflexivity.
  - vm_compute. reflexivity.
  - reflexivity.
  - vm_compute. left. reflexivity.
  - reflexivity.
  - reflexivity.
Defined.

Lemma label_remove_cascades_witness :
  let out :=
    mutation (EpLabels.remove (l_id label3)) (as_user alice 6000) s5 in
  fst out = Return (l_id label3)
  /\ find (has_id labelsT (l_id label3)) (labels (snd out)) = None
  /\ tasks (snd out) = tasks s5.
Proof.
  destruct (@label_remove_cascades tokenBucket (as_user alice 6000) s5 alice
              label3) as (H1 & H2 & _ & _ & H5).
  - exact reachable_s5.
  - reflexivity.
  - vm_compute. reflexivity.
  - vm_compute. reflexivity.
  - reflexivity.
  - split; [exact H1|]. split; [exact H2|exact H5].
Defined.

Lemma thread_delete_cascades_witness :
  let out :=
    mutation (EpAi.deleteThread (th_id thread5)) (as_user alice 7000) s6 in
  fst out = Return (th_id thread5)
  /\ find (has_id threadsT (th_id thread5)) (threads (snd out)) = None
  /\ (forall m, In m (messages (snd out)) <->
                In m (messages s6) /\ m_threadId m <> th_id thread5).
Proof.
  destruct (@thread_delete_cascades tokenBucket (as_user alice 7000) s6 alice
              thread5) as (H1 & H2 & H3 & _).
  - exact reachable_s6.
  - reflexivity.
  - vm_compute. reflexivity.
  - vm_compute. reflexivity.
  - reflexivity.
  - split; [exact H1|]. split; [exact H2|exact H3].
Defined.

Lemma comments_refer_to_own_tasks_witness :
  exists t, In t (tasks s5) /\ t_id t = c_taskId comment2
            /\ t_userId t = c_userId comment2.
Proof.
  apply (@comments_refer_to_own_tasks tokenBucket s5 reachable_s5 comment2).
  vm_compute. left. reflexivity.
Defined.

Lemma associations_refer_to_own_documents_witness :
  (exists t, In t (tasks s5) /\ t_id t = tl_taskId association4
             /\ t_userId t = tl_userId association4)
  /\ (exists l, In l (labels s5) /\ l_id l = tl_labelId association4
                /\ l_userId l = tl_userId association4).
Proof.
  apply (@associations_refer_to_own_documents tokenBucket s5 reachable_s5
           association4).
  vm_compute. left. reflexivity.
Defined.

Lemma messages_refer_to_own_threads_witness :
  exists t, In t (threads s6) /\ th_id t = m_threadId message6
            /\ th_userId t = m_userId message6.
Proof.
  apply (@messages_refer_to_own_threads tokenBucket s6 reachable_s6
           message6).
  vm_compute. left. reflexivity.
Defined.

Lemma create_appends_last_todo_witness :
  (exists order,
     fst (mutation (EpTasks.create (str " second ") None high None)
            (as_user alice 6000) s5) = Return (nextId s5)
     /\ forall t, In t (todoTasks s5 alice) -> (t_order t < order)%Z)
  /\ (exists order,
        tasks (snd (mutation (EpTasks.create (str "far") None low None)
                      (as_user alice 3000) s1_moved))
        = tasks s1_moved
          ++ [mkTask (nextId s1_moved) alice (sanitizeString (str "far"))
                None todo low None None order
                (now (as_user alice 3000)) (now (as_user alice 3000))]
        /\ In task0_moved (todoTasks s1_moved alice)
        /\ t_order task0_moved = order).
Proof.
  split.
  - destruct (@create_appends_last_todo tokenBucket (as_user alice 6000) s5
                alice (str " second ") None high None)
      as [order (H1 & _ & _ & _ & H5 & _)].
    + reflexivity.
    + vm_compute. reflexivity.
    + vm_compute. reflexivity.
    + reflexivity.
    + exists order. split; [exact H1|]. apply H5.
      assert (E : todoTasks s5 alice = [task0]) by (vm_compute; reflexivity).
      rewrite E. constructor; [split; reflexivity|constructor].
  - destruct (@create_appends_last_todo tokenBucket (as_user alice 3000)
                s1_moved alice (str "far") None low None)
      as [order (_ & H2 & _ & _ & _ & H6 & _)].
    + reflexivity.
    + vm_compute. reflexivity.
    + vm_compute. reflexivity.
    + reflexivity.
    + assert (Hin : In task0_moved (todoTasks s1_moved alice))
        by (vm_compute; left; reflexivity).
      exists order. split; [exact H2|]. split; [exact Hin|].
      rewrite (H6 task0_moved Hin eq_refl); [reflexivity|].
      assert (E : todoTasks s1_moved alice = [task0_moved])
        by (vm_compute; reflexivity).
      rewrite E. constructor; [vm_compute; discriminate|constructor].
Defined.

Lemma due_date_stored_unchecked_witness :
  isValidDueDate (Some (Num 1)) (now (as_user alice 6000)) = false
  /\ exists t,
       tasks (snd (mutation (EpTasks.create (str "late") None low
                               (Some (Num 1)))
                     (as_user alice 6000) s5)) = tasks s5 ++ [t]
       /\ t_dueDate t = Some (Num 1).
Proof.
  destruct (@due_date_stored_unchecked tokenBucket (as_user alice 6000) s5
              alice 1%Z) as (H1 & H2 & _).
  - reflexivity.
  - intros n; destruct n; vm_compute; reflexivity.
  - discriminate.
  - vm_compute. discriminate.
  - split; [exact H1|].
    apply (H2 (str "late") low). vm_compute. reflexivity.
Defined.

Lemma update_empty_title_ignored_witness :
  fst (mutation (EpTasks.update
                   (EpTasks.mkUpdateArgs (t_id task0) (Some []) None None
                      None None)) (as_user alice 6000) s5)
  = Return (t_id task0)
  /\ mutation (EpTasks.update
                 (EpTasks.mkUpdateArgs (t_id task0) (Some (str "  ")) None
                    None None None)) (as_user alice 6000) s5
     = (Throw InvalidArgument, s5).
Proof.
  destruct (@update_empty_title_ignored tokenBucket (as_user alice 6000) s5
              alice task0) as ((H1 & _) & H2).
  - reflexivity.
  - vm_compute. reflexivity.
  - vm_compute. reflexivity.
  - reflexivity.
  - split; [exact H1|].
    apply (H2 (str "  ")); [discriminate|vm_compute; reflexivity].
Defined.

Lemma comments_create_outcome_witness :
  let out :=
    mutation (EpComments.create (t_id task0) (str " fine ") None)
      (as_user alice 6000) s5 in
  fst out = Return (nextId s5)
  /\ taskComments (snd out)
     = taskComments s5
       ++ [mkComment (nextId s5) (t_id task0) alice (trim (str " fine "))
             user_note (now (as_user alice 6000))].
Proof.
  destruct (@comments_create_outcome tokenBucket (as_user alice 6000) s5
              alice task0 (str " fine ") None) as (Hok & _).
  - reflexivity.
  - vm_compute. reflexivity.
  - vm_compute. reflexivity.
  - reflexivity.
  - destruct Hok as (H1 & H2 & _); [vm_compute; split; discriminate|].
    split; [exact H1|exact H2].
Defined.

Lemma sendMessage_outcome_witness :
  let out :=
    mutation (EpAi.sendMessage (th_id thread5) (str " hi "))
      (as_user alice 6000) s5 in
  fst out = Return (nextId s5)
  /\ messages (snd out)
     = messages s5
       ++ [mkMessage (nextId s5) (th_id thread5) alice user
             (trim (str " hi ")) (now (as_user alice 6000))].
Proof.
  destruct (@sendMessage_outcome tokenBucket (as_user alice 6000) s5 alice
              thread5 (str " hi ")) as (Hok & _).
  - reflexivity.
  - vm_compute. reflexivity.
  - vm_compute. reflexivity.
  - reflexivity.
  - destruct Hok as (H1 & H2 & _); [vm_compute; split; discriminate|].
    split; [exact H1|exact H2].
Defined.

Lemma counters_agree_witness :
  exists c s,
    query EpTasks.getCounts (as_user alice 6000) s5 = Return c
    /\ query EpDashboard.summary (as_user alice 6000) s5 = Return s
    /\ EpTasks.cnt_total c = count (ownedBy t_userId alice (tasks s5))
    /\ EpDashboard.s_total s = EpTasks.cnt_total c.
Proof.
  destruct (@counters_agree tokenBucket (as_user alice 6000) s5 alice
              eq_refl)
    as (c & s & perTable & total & H1 & H2 & _ & H4 & _ & _ & _ & _ & H9 & _).
  exists c, s. split; [exact H1|]. split; [exact H2|]. split; [exact H4|].
  now inversion H9.
Defined.

Lemma listByStatus_sorted_witness :
  exists l,
    query (EpTasks.listByStatus todo) (as_user alice 200000) s11 = Return l
    /\ Permutation l (withStatus todo (ownedBy t_userId alice (tasks s11)))
    /\ ascending t_order l.
Proof.
  exact (@listByStatus_sorted tokenBucket (as_user alice 200000) s11 alice
           todo eq_refl).
Defined.

Lemma recent_ten_latest_witness :
  exists l,
    query EpDashboard.recent (as_user alice 200000) s11
    = Return (firstn 10 l)
    /\ Permutation l (ownedBy t_userId alice (tasks s11))
    /\ descending t_updatedAt l.
Proof.
  exact (@recent_ten_latest tokenBucket (as_user alice 200000) s11 alice
           eq_refl).
Defined.

Lemma listings_show_own_documents_witness :
  exists l,
    query EpTasks.list (as_user bob 6000) s5 = Return l
    /\ forall t, In t l <-> In t (tasks s5) /\ t_userId t = bob.
Proof.
  exact (proj1 (@listings_show_own_documents tokenBucket (as_user bob 6000)
                  s5 bob eq_refl)).
Defined.

Lemma truncateText_length_witness :
  jslength (truncateText (str "hello world") 8) = 8%Z
  /\ (2 < jslength (truncateText (str "hello world") 2))%Z.
Proof.
  destruct (truncateText_length (str "hello world") 8) as (_ & H8 & _).
  destruct (truncateText_length (str "hello world") 2) as (_ & _ & H2).
  split.
  - apply H8; vm_compute; [reflexivity|discriminate].
  - apply H2; vm_compute; reflexivity.
Defined.

Lemma formatRelativeTime_edges_witness :
  formatRelativeTime 0 (28 * 86400000) = str "0 month ago"
  /\ formatRelativeTime 0 (360 * 86400000) = str "0 year ago".
Proof.
  split.
  - apply (proj1 (proj2 (formatRelativeTime_edges 0 (28 * 86400000)))).
    vm_compute. split; [discriminate|reflexivity].
  - apply (proj2 (proj2 (formatRelativeTime_edges 0 (360 * 86400000)))).
    vm_compute. split; [discriminate|reflexivity].
Defined.

Lemma due_date_status_consistent_witness :
  getDueDateStatus (Some NaN) 6000 = None
  /\ getDueDateStatus (Some (Num 7000)) 6000 <> Some overdue
  /\ Num 6000 = Num 6000
  /\ getDueDateStatus (Some (Num 6000)) 6000 = Some due_soon.
Proof.
  destruct (due_date_status_consistent NaN 6000) as (H1 & _).
  destruct (due_date_status_consistent (Num 7000) 6000)
    as (_ & _ & _ & _ & H5 & _).
  destruct (due_date_status_consistent (Num 6000) 6000)
    as (_ & _ & _ & _ & _ & H6).
  split; [apply H1; right; reflexivity|].
  split; [apply H5; reflexivity|].
  apply H6; [reflexivity|vm_compute; discriminate].
Defined.

Lemma preferences_one_per_user_witness :
  map p_userId (userPreferences s9) = [alice; bob]
  /\ (forall p q,
        In p (userPreferences s9) -> In q (userPreferences s9) ->
        p_userId p = p_userId q -> p = q)
  /\ (forall p,
        In p (userPreferences s9) -> p_userId p = alice ->
        p = preferences_alice)
  /\ (forall p,
        In p (userPreferences s9) -> p_userId p = bob ->
        p = preferences_bob).
Proof.
  pose proof (@preferences_one_per_user tokenBucket s9 reachable_s9) as H.
  split; [vm_compute; reflexivity|]. split; [exact H|]. split.
  - intros p Hp Hu. apply (H p preferences_alice Hp).
    + vm_compute. left. reflexivity.
    + exact Hu.
  - intros p Hp Hu. apply (H p preferences_bob Hp).
    + vm_compute. right. left. reflexivity.
    + exact Hu.
Defined.

Lemma preferences_update_then_get_witness :
  let out :=
    mutation (EpPreferences.update darkTheme) (as_user alice 7000) s6 in
  exists before after,
    query EpPreferences.get (as_user alice 7000) s6 = Return before
    /\ query EpPreferences.get (as_user alice 7000) (snd out)
       = Return (inl after)
    /\ settingsOf (inl after) = override darkTheme (settingsOf before).
Proof.
  destruct (@preferences_update_then_get tokenBucket (as_user alice 7000) s6
              alice darkTheme)
    as (before & after & H1 & H2 & _ & _ & _ & H6).
  - exact reachable_s6.
  - reflexivity.
  - vm_compute. reflexivity.
  - exists before, after. split; [exact H1|]. split; [exact H2|exact H6].
Defined.

Lemma addToTask_then_removeFromTask_witness :
  let out :=
    mutation (EpLabels.addToTask (t_id task0) (l_id label3))
      (as_user alice 4000) s3 in
  let out' :=
    mutation (EpLabels.removeFromTask (t_id task0) (l_id label3))
      (as_user alice 5000) (snd out) in
  fst out = Return (nextId s3)
  /\ fst out' = Return (t_id task0, l_id label3)
  /\ taskLabels (snd out') = taskLabels s3.
Proof.
  destruct (@addToTask_then_removeFromTask tokenBucket (as_user alice 4000)
              (as_user alice 5000) s3 alice task0 label3)
    as (H1 & _ & H3 & H4 & _).
  - do 3 apply reach_step. apply reach_empty.
  - reflexivity.
  - reflexivity.
  - vm_compute. reflexivity.
  - vm_compute. reflexivity.
  - reflexivity.
  - vm_compute. reflexivity.
  - reflexivity.
  - vm_compute. intros H. exact H.
  - vm_compute. reflexivity.
  - split; [exact H1|]. split; [exact H3|exact H4].
Defined.

Lemma updateThread_title_witness :
  let run title :=
    mutation (EpAi.updateThread (th_id thread5) title None)
      (as_user alice 6000) s5 in
  fst (run (Some [])) = Return (th_id thread5)
  /\ run (Some (str "  ")) = (Throw InvalidArgument, s5)
  /\ fst (run (Some (str " plan B "))) = Return (th_id thread5).
Proof.
  destruct (@updateThread_title tokenBucket (as_user alice 6000) s5 alice
              thread5 None) as (_ & (H2 & _) & H3 & H4).
  - reflexivity.
  - vm_compute. reflexivity.
  - reflexivity.
  - split; [exact H2|]. split.
    + apply (H3 (str "  ")); [discriminate|vm_compute; reflexivity].
    + apply (H4 (str " plan B ")). vm_compute. split; discriminate.
Defined.

Lemma getLabelsForTask_own_labels_witness :
  exists ls,
    query (EpLabels.getLabelsForTask (t_id task0)) (as_user alice 6000) s5
    = Return ls
    /\ Forall (fun l => l_userId l = alice) ls
    /\ length ls
       = length (filter (fun tl => tl_taskId tl =? t_id task0)
                   (taskLabels s5)).
Proof.
  destruct (@getLabelsForTask_own_labels tokenBucket (as_user alice 6000) s5
              alice task0) as (ls & H1 & _ & H3 & H4).
  - exact reachable_s5.
  - reflexivity.
  - vm_compute. reflexivity.
  - reflexivity.
  - exists ls. split; [exact H1|]. split; [exact H3|exact H4].
Defined.
